(** * Scientific advisor: a shallow embedding of the RAG core

    The development follows the Python sources of the service:

    - [core/memory/vector_store.py]  (text chunker, vector store),
    - [core/rag/rag_engine.py]       (conversation table, query, streaming),
    - [ingestion/processors/document_processor.py] (format dispatch).

    Python values are modelled as the code has them: a [str] is a list of
    Unicode code points, [bytes] a list of bytes, a [dict] a finite map,
    indices are integers with Python's treatment of negative and
    out-of-range bounds, exceptions are values of an error type.  External
    collaborators (ChromaDB, the embedding model, the LLM backend, the
    codecs, the clock and the uuid generator) enter as explicit inputs. *)

From Stdlib Require Import ZArith List Lia Bool String Ascii.
From Stdlib Require Import Strings.Byte.
From Stdlib Require Import Floats.PrimFloat.
From stdpp Require Import gmap strings list.

Local Open Scope Z_scope.

(** ** Python strings *)

(** A Python [str] is a sequence of code points. *)
Abbreviation char := N (only parsing).
Abbreviation str := (list N) (only parsing).

(** ASCII literals of the source, as code points. *)
Definition lit (s : string) : str :=
  List.map N_of_ascii (list_ascii_of_string s).

Definition len {A} (s : list A) : Z := Z.of_nat (length s).

(** [str.isspace] on one code point: the characters [str.strip()] removes. *)
Definition is_space (c : char) : bool :=
  ((9 <=? c) && (c <=? 13) || (28 <=? c) && (c <=? 32)
   || (c =? 133) || (c =? 160) || (c =? 5760)
   || (8192 <=? c) && (c <=? 8202)
   || (c =? 8232) || (c =? 8233) || (c =? 8239) || (c =? 8287)
   || (c =? 12288))%N.

Fixpoint lstrip (s : str) : str :=
  match s with
  | c :: s' => if is_space c then lstrip s' else s
  | [] => []
  end.

Definition rstrip (s : str) : str := rev (lstrip (rev s)).

(** [s.strip()] *)
Definition strip (s : str) : str := rstrip (lstrip s).

(** Truthiness of a string: [if chunk:]. *)
Definition truthy (s : str) : bool :=
  match s with [] => false | _ => true end.

(** Bound adjustment of slices: a negative bound counts from the end, and
    bounds are clamped to [0, len]. *)
Definition adjust_index (n i : Z) : Z :=
  if i <? 0 then Z.max (i + n) 0 else Z.min i n.

(** [s[start:stop]] *)
Definition slice {A} (s : list A) (start stop : Z) : list A :=
  let a := adjust_index (len s) start in
  let b := adjust_index (len s) stop in
  take (Z.to_nat (b - a)) (drop (Z.to_nat a) s).

(** Highest index [i] with [a <= i < b] and [s[i] = c], scanning a list
    whose head has index [i0]; [-1] when there is none. *)
Fixpoint rfind_from (s : str) (c : char) (i0 a b : Z) : Z :=
  match s with
  | [] => -1
  | x :: s' =>
      let r := rfind_from s' c (i0 + 1) a b in
      if 0 <=? r then r
      else if (x =? c)%N && (a <=? i0) && (i0 <? b) then i0 else -1
  end.

(** [s.rfind(c, start, stop)] for a one-character needle. *)
Definition rfind (s : str) (c : char) (start stop : Z) : Z :=
  let n := len s in
  let b := if n <? stop then n
           else if stop <? 0 then Z.max (stop + n) 0 else stop in
  let a := if start <? 0 then Z.max (start + n) 0 else start in
  rfind_from s c 0 a b.

(** ** Exceptions and results *)

Inductive exn_class :=
  | ValueError | KeyError | IndexError | TypeError | ValidationError
  | UnicodeDecodeError | ConnectionError | OtherError.

(** A raised exception: its class and [str(e)]. *)
Record exn := Raise { exn_class_of : exn_class; exn_message : str }.

Inductive result (A : Type) :=
  | Ok (a : A)
  | Err (e : exn).
Arguments Ok {A} a.
Arguments Err {A} e.

#[global] Instance result_ret : MRet result := fun A a => Ok a.
#[global] Instance result_bind : MBind result := fun A B f m =>
  match m with Ok a => f a | Err e => Err e end.

Definition is_ok {A} (r : result A) : bool :=
  match r with Ok _ => true | Err _ => false end.

(** ** Python values held in [Dict[str, Any]] *)

#[warnings="-register-all"] Inductive PyValue :=
  | PNone
  | PBool (b : bool)
  | PInt (z : Z)
  | PFloat (f : float)
  | PStr (s : str)
  | PList (l : list PyValue)
  | PDict (d : list (str * PyValue)).

(** Truthiness, as [if v] and [v or w] use it. *)
Definition value_truthy (v : PyValue) : bool :=
  match v with
  | PNone => false
  | PBool b => b
  | PInt z => negb (z =? 0)
  | PFloat f => negb (PrimFloat.eqb f 0%float)
  | PStr s => truthy s
  | PList l => match l with [] => false | _ => true end
  | PDict d => match d with [] => false | _ => true end
  end.

(** [o or None] on the result of [dict.get]. *)
Definition or_None (o : option PyValue) : option PyValue :=
  match o with
  | Some v => if value_truthy v then Some v else None
  | None => None
  end.

(** [s or ""] on an optional label. *)
Definition or_empty (o : option str) : str :=
  match o with Some s => s | None => [] end.

(** ** [datetime], as far as the code uses it

    [isoformat] and [fromisoformat] belong to the Python library; the
    development takes them as an interface with the documented law that
    [fromisoformat] inverts [isoformat].  [dt_le] is [<=] on the naive
    datetimes [datetime.utcnow()] returns. *)
Class PyDateTime := {
  datetime : Type;
  isoformat : datetime -> str;
  fromisoformat : str -> option datetime;
  same_instant : datetime -> datetime -> Prop;
  dt_le : datetime -> datetime -> Prop;
  (* [d.strftime('%Y-%m-%d %H:%M')] *)
  strftime_minutes : datetime -> str;
  dt_le_preorder :: PreOrder dt_le;
  fromisoformat_isoformat :
    forall d, exists d',
      fromisoformat (isoformat d) = Some d' /\ same_instant d d'
}.

(** ** pydantic field validation

    A value of the declared type is taken as it is.  For a value of another
    type pydantic tries a conversion ([int] to [str], [float] to [int], ...);
    these conversions are an input of the development, with no assumption
    on them. *)
Class Pydantic := {
  coerce_str : PyValue -> result str;
  coerce_int : PyValue -> result Z;
  coerce_float : PyValue -> result float
}.

Section Validators.
Context `{Pydantic}.

Definition validate_str (v : PyValue) : result str :=
  match v with PStr s => Ok s | _ => coerce_str v end.

Definition validate_opt_str (o : option PyValue) : result (option str) :=
  match o with
  | None => Ok None
  | Some PNone => Ok None
  | Some v => s ← validate_str v; Ok (Some s)
  end.

Definition validate_int (v : PyValue) : result Z :=
  match v with PInt z => Ok z | _ => coerce_int v end.

Definition validate_opt_int (v : PyValue) : result (option Z) :=
  match v with PNone => Ok None | _ => z ← validate_int v; Ok (Some z) end.

Definition validate_float (v : PyValue) : result float :=
  match v with PFloat f => Ok f | _ => coerce_float v end.

End Validators.

(** ** Settings ([config/settings.py], the RAG part) *)

Record Settings := {
  chunk_size : Z;
  chunk_overlap : Z;
  top_k_results : Z;
  similarity_threshold : float
}.

(** 0.7 as the nearest binary64 value, which is what Python stores. *)
Definition default_settings : Settings :=
  {| chunk_size := 1000; chunk_overlap := 200; top_k_results := 5;
     similarity_threshold := 0x1.6666666666666p-1%float |}.

(** ** The vector store ([core/memory/vector_store.py]) *)

Module VectorStore.

(** *** The text chunker ([VectorStore._chunk_text]) *)

Definition dot : char := 46%N.

Section WithSettings.
Variable settings : Settings.

(** The end of the window that starts at [start]: [start + chunk_size],
    pulled back to just after a full stop found in the last 100 characters
    when the window ends inside the text. *)
Definition window_end (text : str) (start : Z) : Z :=
  let end_ := start + chunk_size settings in
  if end_ <? len text then
    let search_start := Z.max (end_ - 100) start in
    let sentence_end := rfind text dot search_start end_ in
    if start <? sentence_end then sentence_end + 1 else end_
  else end_.

(** One pass of the body of the [while] loop: the chunk list after the
    [append], and the next [start]. *)
Definition chunk_step (text : str) (start : Z) (chunks : list str)
  : list str * Z :=
  let end_ := window_end text start in
  let chunk := strip (slice text start end_) in
  let chunks' := if truthy chunk then chunks ++ [chunk] else chunks in
  (chunks', end_ - chunk_overlap settings).

(** The [while start < len(text)] loop.  The loop of the source has no
    bound, so the model takes fuel; [None] means the fuel ran out. *)
Fixpoint chunk_loop (fuel : nat) (text : str) (start : Z)
  (chunks : list str) : option (list str) :=
  match fuel with
  | O => None
  | S fuel' =>
      if start <? len text then
        let '(chunks', start') := chunk_step text start chunks in
        if len text <=? start' then Some chunks'
        else chunk_loop fuel' text start' chunks'
      else Some chunks
  end.

Definition _chunk_text (fuel : nat) (text : str) : option (list str) :=
  if len text <=? chunk_size settings then Some [text]
  else chunk_loop fuel text 0 [].

End WithSettings.

Definition small_settings (size overlap : Z) : Settings :=
  {| chunk_size := size; chunk_overlap := overlap; top_k_results := 5;
     similarity_threshold := 0x1.6666666666666p-1%float |}.

(** *** Stored rows and memory entries *)

(** One record of the ChromaDB collection. *)
Record Row := {
  row_embedding : list float;
  row_metadata : gmap str PyValue;
  row_document : str
}.

(** What [collection.query] answers for one query embedding: per-query
    lists, of which the code reads the first. *)
Record QueryResult := {
  res_ids : list (list str);
  res_metadatas : option (list (list (gmap str PyValue)));
  res_documents : option (list (list str));
  res_distances : option (list (list float))
}.

(** The store object: the collection, and how many uuids were drawn. *)
Record Store := {
  collection : gmap str Row;
  store_uuids : nat
}.

Definition k_customer := lit "customer".
Definition k_project := lit "project".
Definition k_date := lit "date".
Definition k_date_from := lit "date_from".
Definition k_date_to := lit "date_to".
Definition k_source_document_id := lit "source_document_id".
Definition k_chunk_index := lit "chunk_index".
Definition k_importance_score := lit "importance_score".
Definition k_is_manual_entry := lit "is_manual_entry".
Definition k_gte := lit "$gte".
Definition k_lte := lit "$lte".

(** The metadata keys that [add_memory_entry] writes and the readers
    interpret. *)
Definition reserved_keys : list str :=
  [k_customer; k_project; k_date; k_source_document_id; k_chunk_index;
   k_importance_score].

Section WithCollaborators.
Context `{PyDateTime} `{Pydantic}.

(** [MemoryEntry] of [api/schemas/models.py]; [created_at], a clock reading
    no operation of the store looks at, is left out. *)
Record MemoryEntry := {
  id : str;
  content : str;
  embedding : option (list float);
  customer : option str;
  project : option str;
  date : datetime;
  source_document_id : str;
  chunk_index : Z;
  importance_score : float;
  metadata : gmap str PyValue
}.

Variable settings : Settings.

(** The sentence-transformers model: [embedding_model.encode(text).tolist()]. *)
Variable encode : str -> list float.

(** ChromaDB's nearest-neighbour query over a collection:
    [collection.query(query_embeddings=[e], n_results=k, where=w)]. *)
Variable collection_query :
  gmap str Row -> list float -> Z -> option (gmap str PyValue)
  -> result QueryResult.

(** [uuid.uuid4()], by draw number. *)
Variable uuid4 : nat -> str.

(** [repr(key)] for the keys the code reads, which are fixed identifiers
    (letters and underscores): the key between single quotes. *)
Definition repr_key (key : str) : str := lit "'" ++ key ++ lit "'".

(** [d[key]]; [str(KeyError(key))] is [repr(key)]. *)
Definition getitem (d : gmap str PyValue) (key : str) : result PyValue :=
  match d !! key with
  | Some v => Ok v
  | None => Err (Raise KeyError (repr_key key))
  end.

(** [datetime.fromisoformat(v)] *)
Definition parse_date (v : PyValue) : result datetime :=
  match v with
  | PStr s =>
      match fromisoformat s with
      | Some d => Ok d
      | None => Err (Raise ValueError (lit "Invalid isoformat string"))
      end
  | _ => Err (Raise TypeError (lit "fromisoformat: argument must be str"))
  end.

(** The [MemoryEntry(...)] call shared by [search], [get_memory_entry] and
    [list_memory_entries]: the arguments are evaluated in order, then the
    fields are validated. *)
Definition entry_of_row (memory_id : str) (md : gmap str PyValue)
  (doc : str) : result MemoryEntry :=
  let customer_arg := or_None (md !! k_customer) in
  let project_arg := or_None (md !! k_project) in
  date_val ← getitem md k_date;
  date_arg ← parse_date date_val;
  source_arg ← getitem md k_source_document_id;
  chunk_arg ← getitem md k_chunk_index;
  let importance_arg := default (PFloat 1%float) (md !! k_importance_score) in
  customer_v ← validate_opt_str customer_arg;
  project_v ← validate_opt_str project_arg;
  source_v ← validate_str source_arg;
  chunk_v ← validate_int chunk_arg;
  importance_v ← validate_float importance_arg;
  Ok {| id := memory_id; content := doc; embedding := None;
        customer := customer_v; project := project_v; date := date_arg;
        source_document_id := source_v; chunk_index := chunk_v;
        importance_score := importance_v; metadata := md |}.

(** *** [add_memory_entry] *)

(** ChromaDB stores [str], [int], [float] and [bool] metadata values. *)
Definition storable (v : PyValue) : bool :=
  match v with
  | PStr _ | PInt _ | PFloat _ | PBool _ => true
  | _ => false
  end.

(** [collection.add] of one record: the metadata is validated; a record
    whose id is already there is skipped. *)
Definition collection_add (c : gmap str Row) (memory_id : str) (r : Row)
  : result (gmap str Row) :=
  if decide (map_Forall (fun _ v => storable v = true) (row_metadata r)) then
    match c !! memory_id with
    | Some _ => Ok c
    | None => Ok (<[memory_id := r]> c)
    end
  else Err (Raise ValueError (lit "Expected metadata value to be a str, int, float or bool")).

Definition entry_metadata (e : MemoryEntry) : gmap str PyValue :=
  let base : gmap str PyValue :=
    <[k_source_document_id := PStr (source_document_id e)]>
    (<[k_chunk_index := PInt (chunk_index e)]>
    (<[k_customer := PStr (or_empty (customer e))]>
    (<[k_project := PStr (or_empty (project e))]>
    (<[k_date := PStr (isoformat (date e))]>
    (<[k_importance_score := PFloat (importance_score e)]>
    (<[k_is_manual_entry := PBool true]> ∅)))))) in
  (* metadata.update(memory_entry.metadata) *)
  metadata e ∪ base.

Definition add_memory_entry (e : MemoryEntry) (st : Store)
  : result str * Store :=
  let memory_id := uuid4 (store_uuids st) in
  let st1 := {| collection := collection st;
                store_uuids := S (store_uuids st) |} in
  let row := {| row_embedding := encode (content e);
                row_metadata := entry_metadata e;
                row_document := content e |} in
  match collection_add (collection st1) memory_id row with
  | Ok c => (Ok memory_id,
             {| collection := c; store_uuids := store_uuids st1 |})
  | Err ex => (Err ex, st1)
  end.

(** *** [get_memory_entry] *)

Definition get_memory_entry (memory_id : str) (st : Store)
  : result (option MemoryEntry) :=
  match collection st !! memory_id with
  | None => Ok None
  | Some r =>
      e ← entry_of_row memory_id (row_metadata r) (row_document r);
      Ok (Some e)
  end.

(** *** [delete_memory_entry] *)

(** [collection.delete(ids=[memory_id])] removes the record when it is
    there and does nothing otherwise; the method then returns [True]. *)
Definition delete_memory_entry (memory_id : str) (st : Store)
  : result bool * Store :=
  (Ok true, {| collection := delete memory_id (collection st);
               store_uuids := store_uuids st |}).

(** *** [search] *)

(** The [where] clause built from the filters. *)
Definition where_clause_of (filters : option (gmap str PyValue))
  : gmap str PyValue :=
  match filters with
  | None => ∅
  | Some f =>
      if decide (f = ∅) then ∅ else
      let w0 : gmap str PyValue := ∅ in
      let w1 := match or_None (f !! k_customer) with
                | Some v => <[k_customer := v]> w0 | None => w0 end in
      let w2 := match or_None (f !! k_project) with
                | Some v => <[k_project := v]> w1 | None => w1 end in
      let w3 := match or_None (f !! k_date_from) with
                | Some v => <[k_date := PDict [(k_gte, v)]]> w2
                | None => w2 end in
      match or_None (f !! k_date_to) with
      | Some v =>
          match w3 !! k_date with
          | Some (PDict d) => <[k_date := PDict (d ++ [(k_lte, v)])]> w3
          | _ => <[k_date := PDict [(k_lte, v)]]> w3
          end
      | None => w3
      end
  end.

(** [rows[0][i]] on an optional list of lists. *)
Definition first_at {A} (rows : option (list (list A))) (i : nat)
  : result A :=
  match rows with
  | None => Err (Raise TypeError (lit "'NoneType' object is not subscriptable"))
  | Some [] => Err (Raise IndexError (lit "list index out of range"))
  | Some (row :: _) =>
      match row !! i with
      | Some x => Ok x
      | None => Err (Raise IndexError (lit "list index out of range"))
      end
  end.

(** [results["distances"][0][i] if results["distances"] else 0.0] *)
Definition row_distance (res : QueryResult) (i : nat) : result float :=
  match res_distances res with
  | None | Some [] => Ok 0%float
  | Some _ => first_at (res_distances res) i
  end.

(** [1.0 - distance] *)
Definition similarity_of (distance : float) : float :=
  PrimFloat.sub 1%float distance.

(** The body of [for i, memory_id in enumerate(results["ids"][0])], from
    index [i] on.  Each kept entry is paired with the similarity score the
    loop computed for it. *)
Fixpoint search_rows (res : QueryResult) (i : nat) (ids : list str)
  : result (list (float * MemoryEntry)) :=
  match ids with
  | [] => Ok []
  | memory_id :: rest =>
      md ← first_at (res_metadatas res) i;
      doc ← first_at (res_documents res) i;
      distance ← row_distance res i;
      let similarity_score := similarity_of distance in
      if PrimFloat.ltb similarity_score (similarity_threshold settings)
      then search_rows res (S i) rest
      else
        e ← entry_of_row memory_id md doc;
        more ← search_rows res (S i) rest;
        Ok ((similarity_score, e) :: more)
  end.

Definition search_scored (st : Store) (query : str)
  (filters : option (gmap str PyValue)) (top_k : Z)
  : result (list (float * MemoryEntry)) :=
  let query_embedding := encode query in
  let where_clause := where_clause_of filters in
  results ← collection_query (collection st) query_embedding top_k
              (if decide (where_clause = ∅) then None else Some where_clause);
  match res_ids results with
  | [] => Ok []
  | [] :: _ => Ok []
  | ids0 :: _ => search_rows results 0 ids0
  end.

Definition search (st : Store) (query : str)
  (filters : option (gmap str PyValue)) (top_k : Z)
  : result (list MemoryEntry) :=
  scored ← search_scored st query filters top_k;
  Ok (List.map snd scored).

End WithCollaborators.

End VectorStore.

(** ** The RAG engine ([core/rag/rag_engine.py]) *)

Module RAGEngine.

Definition newline : str := [10%N].

(** [str(n)] for a natural number. *)
Fixpoint digits_of (fuel n : nat) (acc : str) : str :=
  match fuel with
  | O => acc
  | S fuel' =>
      let acc' := (48 + N.of_nat (n mod 10))%N :: acc in
      if (n / 10 =? 0)%nat then acc' else digits_of fuel' (n / 10)%nat acc'
  end.

Definition str_of_nat (n : nat) : str := digits_of (S n) n [].

(** [sep.join(parts)] *)
Fixpoint join (sep : str) (parts : list str) : str :=
  match parts with
  | [] => []
  | [p] => p
  | p :: rest => p ++ sep ++ join sep rest
  end.

Definition _get_system_prompt : str := lit
"You are an AI Scientific Advisor assistant with access to a comprehensive knowledge base of customer data, project information, and technical documents.

Your role is to:
1. Provide accurate, helpful responses based on the retrieved context
2. Cite specific sources when referencing information
3. Be precise and scientific in your language
4. Ask clarifying questions when information is insufficient
5. Maintain professional and collaborative tone

When responding:
- Always base your answers on the provided context when available
- If you reference specific information, mention the source
- If the context doesn't contain relevant information, clearly state this
- Provide actionable insights and recommendations when appropriate
- Be concise but thorough in your explanations

Remember: You are working with scientific and technical content, so accuracy and precision are paramount.".

Section WithCollaborators.
Context `{PyDateTime} `{Pydantic}.

Abbreviation MemoryEntry := VectorStore.MemoryEntry.

(** One message record of a conversation: the dict with the keys [role],
    [content] and [timestamp]. *)
Record Message := {
  role : str;
  msg_content : str;
  timestamp : str
}.

Record Conversation := {
  conv_id : str;
  title : option str;
  messages : list Message;
  conv_customer : option str;
  conv_project : option str;
  created_at : datetime;
  updated_at : datetime
}.

Record Query := {
  question : str;
  conversation_id : option str;
  filters : option (gmap str PyValue);
  max_results : Z
}.

Record AgentResponse := {
  answer : str;
  sources : list MemoryEntry;
  resp_conversation_id : str;
  query_time_ms : Z;
  tokens_used : option Z;
  resp_created_at : datetime
}.

(** The keys of the dict [OllamaClient.generate] returns that [query]
    reads. *)
Record LLMResponse := {
  llm_response : PyValue;
  llm_generation_time_ms : PyValue;
  llm_tokens_used : PyValue
}.

(** The events [query_stream] yields: the dict's [type] is the
    constructor. *)
Inductive StreamEvent :=
  | ChunkEvent (chunk_content : str) (cid : str)
  | CompleteEvent (response : AgentResponse) (cid : str)
  | ErrorEvent (error : str) (cid : str).

(** The engine object: the conversation table, and how often the clock was
    read and a uuid drawn.  The table holds each conversation by reference,
    one object per key: mutating a conversation taken from the table is
    writing its new value under that key. *)
Record Engine := {
  conversations : gmap str Conversation;
  clock_reads : nat;
  uuid_draws : nat
}.

(** [datetime.utcnow()] and [uuid.uuid4()], by call number. *)
Variable utcnow : nat -> datetime.
Variable uuid4 : nat -> str.

(** The collaborators handed to [RAGEngine.__init__]:
    [vector_store.search(query, filters, top_k)],
    [llm_client.generate(prompt, context, system_prompt)] and
    [llm_client.generate_stream(...)]: the fragments it yields, and the
    exception that ends it, if one does. *)
Variable vector_store_search :
  str -> option (gmap str PyValue) -> Z -> result (list MemoryEntry).
Variable llm_generate : str -> str -> str -> result LLMResponse.
Variable llm_generate_stream : str -> str -> str -> list str * option exn.

Definition tick (n : nat) (st : Engine) : Engine :=
  {| conversations := conversations st;
     clock_reads := n + clock_reads st;
     uuid_draws := uuid_draws st |}.

Definition create_conversation (title_arg customer_arg project_arg : option str)
  (st : Engine) : Conversation * Engine :=
  let cid := uuid4 (uuid_draws st) in
  let '(title_v, n) :=
    match title_arg with
    | Some (c :: t) => (c :: t, clock_reads st)
    | _ => (lit "Conversation " ++ strftime_minutes (utcnow (clock_reads st)),
            S (clock_reads st))
    end in
  let conversation :=
    {| conv_id := cid; title := Some title_v; messages := [];
       conv_customer := customer_arg; conv_project := project_arg;
       created_at := utcnow n; updated_at := utcnow (S n) |} in
  (conversation,
   {| conversations := <[cid := conversation]> (conversations st);
      clock_reads := S (S n);
      uuid_draws := S (uuid_draws st) |}).

Definition get_conversation (cid : str) (st : Engine) : option Conversation :=
  conversations st !! cid.

Definition delete_conversation (cid : str) (st : Engine) : bool * Engine :=
  match conversations st !! cid with
  | Some _ =>
      (true, {| conversations := delete cid (conversations st);
                clock_reads := clock_reads st;
                uuid_draws := uuid_draws st |})
  | None => (false, st)
  end.

(** Returns the key under which the table holds the conversation, and the
    conversation. *)
Definition _get_or_create_conversation (cid_arg : option str) (st : Engine)
  : (str * Conversation) * Engine :=
  let create :=
    let '(c, st') := create_conversation None None None st in
    ((conv_id c, c), st') in
  match cid_arg with
  | Some (c :: t) =>
      match conversations st !! (c :: t) with
      | Some conversation => ((c :: t, conversation), st)
      | None => create
      end
  | _ => create
  end.

Definition source_line (i : nat) (entry : MemoryEntry) : str :=
  let s0 := lit "Source " ++ str_of_nat i in
  let s1 := match VectorStore.customer entry with
            | Some (c :: t) => s0 ++ lit " (Customer: " ++ (c :: t) ++ lit ")"
            | _ => s0 end in
  let s2 := match VectorStore.project entry with
            | Some (c :: t) => s1 ++ lit " (Project: " ++ (c :: t) ++ lit ")"
            | _ => s1 end in
  let s3 := if truthy (VectorStore.source_document_id entry)
            then s2 ++ lit " (Document: "
                 ++ slice (VectorStore.source_document_id entry) 0 8
                 ++ lit "...)"
            else s2 in
  s3 ++ lit ":" ++ newline ++ VectorStore.content entry.

Definition _build_context (memory_entries : list MemoryEntry) : str :=
  match memory_entries with
  | [] => lit "No relevant information found in the knowledge base."
  | _ => join (newline ++ newline)
           (imap (fun i entry => source_line (S i) entry) memory_entries)
  end.

(** The resolved conversation is the object the table holds under [key];
    the appends and the assignment to [updated_at] show there. *)
Definition _update_conversation (key : str) (conversation : Conversation)
  (question_arg answer_arg : str) (st : Engine) : Engine :=
  let n := clock_reads st in
  let m_user := {| role := lit "user"; msg_content := question_arg;
                   timestamp := isoformat (utcnow n) |} in
  let m_assistant := {| role := lit "assistant"; msg_content := answer_arg;
                        timestamp := isoformat (utcnow (S n)) |} in
  let conversation' :=
    {| conv_id := conv_id conversation; title := title conversation;
       messages := messages conversation ++ [m_user; m_assistant];
       conv_customer := conv_customer conversation;
       conv_project := conv_project conversation;
       created_at := created_at conversation;
       updated_at := utcnow (S (S n)) |} in
  {| conversations := <[key := conversation']> (conversations st);
     clock_reads := S (S (S n));
     uuid_draws := uuid_draws st |}.

(** [AgentResponse(...)]: the fields are validated, [created_at] is read
    from the clock. *)
Definition new_AgentResponse (answer_v time_v tokens_v : PyValue)
  (sources_v : list MemoryEntry) (cid : str) (st : Engine)
  : result AgentResponse * Engine :=
  let st' := tick 1 st in
  (a ← validate_str answer_v;
   t ← validate_int time_v;
   k ← validate_opt_int tokens_v;
   Ok {| answer := a; sources := sources_v; resp_conversation_id := cid;
         query_time_ms := t; tokens_used := k;
         resp_created_at := utcnow (clock_reads st) |},
   st').

(** [RAGEngine.query]: an exception raised on the way is logged and raised
    again, so what the caller sees is the [Err]. *)
Definition query (q : Query) (st : Engine) : result AgentResponse * Engine :=
  let st0 := tick 1 st in (* start_time *)
  let '((key, conversation), st1) :=
    _get_or_create_conversation (conversation_id q) st0 in
  match vector_store_search (question q) (filters q) (max_results q) with
  | Err e => (Err e, st1)
  | Ok memory_entries =>
      let context := _build_context memory_entries in
      let system_prompt := _get_system_prompt in
      match llm_generate (question q) context system_prompt with
      | Err e => (Err e, st1)
      | Ok llm =>
          match new_AgentResponse (llm_response llm)
                  (llm_generation_time_ms llm) (llm_tokens_used llm)
                  memory_entries (conv_id conversation) st1 with
          | (Err e, st2) => (Err e, st2)
          | (Ok response, st2) =>
              (Ok response,
               _update_conversation key conversation (question q)
                 (answer response) st2)
          end
      end
  end.

(** One run of the generator [query_stream], consumed to its end: what it
    yielded, the exception that escaped it (if any), and the engine
    afterwards. *)
Record StreamRun := {
  events : list StreamEvent;
  escaped : option exn;
  engine_after : Engine
}.

(** The [except Exception as e] clause: one [error] event. *)
Definition stream_handler (q : Query) (e : exn) (st : Engine)
  : list StreamEvent * Engine :=
  match conversation_id q with
  | Some (c :: t) => ([ErrorEvent (exn_message e) (c :: t)], st)
  | _ => ([ErrorEvent (exn_message e) (uuid4 (uuid_draws st))],
          {| conversations := conversations st;
             clock_reads := clock_reads st;
             uuid_draws := S (uuid_draws st) |})
  end.

(** The body of the [try]: the events yielded, and the exception raised
    in it, if any. *)
Definition stream_body (q : Query) (st : Engine)
  : list StreamEvent * option exn * Engine :=
  let '((key, conversation), st1) :=
    _get_or_create_conversation (conversation_id q) st in
  match vector_store_search (question q) (filters q) (max_results q) with
  | Err e => ([], Some e, st1)
  | Ok memory_entries =>
      let context := _build_context memory_entries in
      let system_prompt := _get_system_prompt in
      let '(fragments, failure) :=
        llm_generate_stream (question q) context system_prompt in
      let chunk_events :=
        List.map (fun chunk => ChunkEvent chunk (conv_id conversation))
          fragments in
      match failure with
      | Some e => (chunk_events, Some e, st1)
      | None =>
          let response_text := List.concat fragments in
          match new_AgentResponse (PStr response_text) (PInt 0) (PInt 0)
                  memory_entries (conv_id conversation) st1 with
          | (Err e, st2) => (chunk_events, Some e, st2)
          | (Ok response, st2) =>
              (chunk_events ++ [CompleteEvent response (conv_id conversation)],
               None,
               _update_conversation key conversation (question q)
                 (answer response) st2)
          end
      end
  end.

Definition query_stream (q : Query) (st : Engine) : StreamRun :=
  match stream_body q st with
  | (evs, None, st') =>
      {| events := evs; escaped := None; engine_after := st' |}
  | (evs, Some e, st') =>
      let '(evs', st'') := stream_handler q e st' in
      {| events := evs ++ evs'; escaped := None; engine_after := st'' |}
  end.

End WithCollaborators.

End RAGEngine.

(** ** Document ingestion ([ingestion/processors/document_processor.py]) *)

(** [filename.lower()], the text codecs and the PDF and DOCX readers are
    library code: inputs of the development.  A decoder answers [None] for
    [UnicodeDecodeError]; a reader gives the page or paragraph texts, or
    the exception it raised. *)
Class TextLibs := {
  str_lower : str -> str;
  decode_utf8 : list Byte.byte -> option str;
  (* [str(e)] of the error [decode('utf-8')] raised *)
  utf8_error : list Byte.byte -> str;
  decode_utf16 : list Byte.byte -> option str;
  decode_cp1252 : list Byte.byte -> option str;
  decode_utf8_replace : list Byte.byte -> str;
  pdf_pages : list Byte.byte -> result (list str);
  docx_paragraphs : list Byte.byte -> result (list str)
}.

(** [s.endswith(suffix)] *)
Definition endswith (s suffix : str) : bool :=
  (length suffix <=? length s)%nat
  && bool_decide (drop (length s - length suffix) s = suffix).

(** [bytes.decode('latin-1')]: every byte is the code point of its value. *)
Definition decode_latin1 (b : list Byte.byte) : str :=
  List.map Byte.to_N b.

Inductive DocumentType := PDF | TXT | DOCX | MD.

(** [text = ""; for part in parts: text += part + "\n"] *)
Definition lines_of (parts : list str) : str :=
  List.concat (List.map (fun part => part ++ [10%N]) parts).

Module PDFProcessor.
Section Methods.
Context `{TextLibs}.

Definition can_process (filename : str) : bool :=
  endswith (str_lower filename) (lit ".pdf").

Definition extract_text (file_content : list Byte.byte) : result str :=
  match pdf_pages file_content with
  | Ok pages => Ok (strip (lines_of pages))
  | Err e =>
      Err (Raise ValueError (lit "Failed to process PDF: " ++ exn_message e))
  end.

End Methods.
End PDFProcessor.

Module DocxProcessor.
Section Methods.
Context `{TextLibs}.

Definition can_process (filename : str) : bool :=
  endswith (str_lower filename) (lit ".docx").

Definition extract_text (file_content : list Byte.byte) : result str :=
  match docx_paragraphs file_content with
  | Ok paragraphs => Ok (strip (lines_of paragraphs))
  | Err e =>
      Err (Raise ValueError (lit "Failed to process DOCX: " ++ exn_message e))
  end.

End Methods.
End DocxProcessor.

Module TxtProcessor.

Inductive Encoding := Utf8 | Utf16 | Latin1 | Cp1252.

Definition encodings : list Encoding := [Utf8; Utf16; Latin1; Cp1252].

Section Methods.
Context `{TextLibs}.

Definition can_process (filename : str) : bool :=
  endswith (str_lower filename) (lit ".txt").

(** [file_content.decode(encoding)] *)
Definition decode (encoding : Encoding) (file_content : list Byte.byte)
  : option str :=
  match encoding with
  | Utf8 => decode_utf8 file_content
  | Utf16 => decode_utf16 file_content
  | Latin1 => Some (decode_latin1 file_content)
  | Cp1252 => decode_cp1252 file_content
  end.

(** The [for encoding in encodings] loop: the encodings it attempted, in
    order, and the text it returned, if one decoded. *)
Fixpoint decode_first (encs : list Encoding) (file_content : list Byte.byte)
  : list Encoding * option str :=
  match encs with
  | [] => ([], None)
  | encoding :: rest =>
      match decode encoding file_content with
      | Some text => ([encoding], Some (strip text))
      | None =>
          let '(tried, r) := decode_first rest file_content in
          (encoding :: tried, r)
      end
  end.

(** The encodings attempted, whether the fall-back with replacement
    characters ran, and the outcome. *)
Definition extract_text_traced (file_content : list Byte.byte)
  : list Encoding * bool * result str :=
  match decode_first encodings file_content with
  | (tried, Some text) => (tried, false, Ok text)
  | (tried, None) =>
      (tried, true, Ok (strip (decode_utf8_replace file_content)))
  end.

Definition extract_text (file_content : list Byte.byte) : result str :=
  snd (extract_text_traced file_content).

End Methods.
End TxtProcessor.

Module MarkdownProcessor.
Section Methods.
Context `{TextLibs}.

Definition can_process (filename : str) : bool :=
  endswith (str_lower filename) (lit ".md")
  || endswith (str_lower filename) (lit ".markdown").

Definition extract_text (file_content : list Byte.byte) : result str :=
  match decode_utf8 file_content with
  | Some text => Ok (strip text)
  | None =>
      Err (Raise ValueError
             (lit "Failed to process Markdown: " ++ utf8_error file_content))
  end.

End Methods.
End MarkdownProcessor.

Module DocumentIngestionService.

(** The registered processors: the classes, dispatched on by
    [can_process] and [extract_text]. *)
Inductive Processor :=
  | ThePDFProcessor | TheDocxProcessor | TheTxtProcessor
  | TheMarkdownProcessor.

(** [self.processors], in registration order. *)
Definition processors : list Processor :=
  [ThePDFProcessor; TheDocxProcessor; TheTxtProcessor; TheMarkdownProcessor].

Section WithCollaborators.
Context `{PyDateTime} `{TextLibs}.

Record Document := {
  doc_id : str;
  filename : str;
  content : str;
  document_type : DocumentType;
  customer : option str;
  project : option str;
  date : datetime;
  metadata : gmap str PyValue;
  file_size : Z;
  created_at : datetime
}.

(** The clock and the uuid generator, by call number, and how often each
    was used. *)
Variable utcnow : nat -> datetime.
Variable uuid4 : nat -> str.

Record World := {
  clock_reads : nat;
  uuid_draws : nat
}.

Definition can_process (proc : Processor) (name : str) : bool :=
  match proc with
  | ThePDFProcessor => PDFProcessor.can_process name
  | TheDocxProcessor => DocxProcessor.can_process name
  | TheTxtProcessor => TxtProcessor.can_process name
  | TheMarkdownProcessor => MarkdownProcessor.can_process name
  end.

Definition extract_text (proc : Processor) (file_content : list Byte.byte)
  : result str :=
  match proc with
  | ThePDFProcessor => PDFProcessor.extract_text file_content
  | TheDocxProcessor => DocxProcessor.extract_text file_content
  | TheTxtProcessor => TxtProcessor.extract_text file_content
  | TheMarkdownProcessor => MarkdownProcessor.extract_text file_content
  end.

(** [for proc in self.processors: if proc.can_process(filename): ...
    break] *)
Fixpoint find_processor (procs : list Processor) (name : str)
  : option Processor :=
  match procs with
  | [] => None
  | proc :: rest =>
      if can_process proc name then Some proc else find_processor rest name
  end.

Definition _get_document_type (name : str) : DocumentType :=
  let filename_lower := str_lower name in
  if endswith filename_lower (lit ".pdf") then PDF
  else if endswith filename_lower (lit ".docx") then DOCX
  else if endswith filename_lower (lit ".txt") then TXT
  else if endswith filename_lower (lit ".md")
          || endswith filename_lower (lit ".markdown") then MD
  else TXT.

Definition process_document (name : str) (file_content : list Byte.byte)
  (customer_arg project_arg : option str)
  (metadata_arg : option (gmap str PyValue)) (w : World)
  : result Document * World :=
  match find_processor processors name with
  | None =>
      (Err (Raise ValueError
              (lit "No processor available for file type: " ++ name)), w)
  | Some processor =>
      match extract_text processor file_content with
      | Err e => (Err e, w)
      | Ok text =>
          if truthy (strip text) then
            let doc_type := _get_document_type name in
            (Ok {| doc_id := uuid4 (uuid_draws w);
                   filename := name;
                   content := text;
                   document_type := doc_type;
                   customer := customer_arg;
                   project := project_arg;
                   date := utcnow (clock_reads w);
                   metadata := default ∅ metadata_arg;
                   file_size := len file_content;
                   created_at := utcnow (S (clock_reads w)) |},
             {| clock_reads := S (S (clock_reads w));
                uuid_draws := S (uuid_draws w) |})
          else
            (Err (Raise ValueError
                    (lit "Document appears to be empty or unreadable")), w)
      end
  end.

End WithCollaborators.

End DocumentIngestionService.

(** ** The other operations of the vector store

    [update_memory_entry], [list_memory_entries], [get_stats] and
    [add_document] of [core/memory/vector_store.py], over the store and the
    readers modelled above. *)

Module VectorStoreOps.

Definition k_content := lit "content".
Definition k_metadata := lit "metadata".
Definition k_filename := lit "filename".
Definition k_document_type := lit "document_type".

(** What [collection.get(limit, offset, where)] answers: parallel lists. *)
Record GetResult := {
  got_ids : list str;
  got_metadatas : list (gmap str PyValue);
  got_documents : list str
}.

(** [document.document_type.value] *)
Definition document_type_value (t : DocumentType) : str :=
  match t with
  | PDF => lit "pdf"
  | TXT => lit "txt"
  | DOCX => lit "docx"
  | MD => lit "md"
  end.

Section WithCollaborators.
Context `{PyDateTime} `{Pydantic}.

Variable settings : Settings.
Variable encode : str -> list float.
Variable uuid4 : nat -> str.

(** ChromaDB's paginated read and its batch insert. *)
Variable collection_get :
  gmap str VectorStore.Row -> Z -> Z -> option (gmap str PyValue)
  -> result GetResult.
Variable collection_add_many :
  gmap str VectorStore.Row -> list (str * VectorStore.Row)
  -> result (gmap str VectorStore.Row).

(** What encoding and storing a content that is not a [str] raises, and
    what [dict.update] makes of an argument that is not a dict. *)
Variable content_error : PyValue -> exn.
Variable update_pairs : PyValue -> result (list (str * PyValue)).

(** [collection.count()] *)
Definition get_stats (st : VectorStore.Store) : nat :=
  size (VectorStore.collection st).

(** [collection.update] of one record: the metadata is validated and
    merged over the stored one; an id the collection does not hold is
    skipped. *)
Definition collection_update (c : gmap str VectorStore.Row) (memory_id : str)
  (emb : option (list float)) (md : gmap str PyValue) (doc : option str)
  : result (gmap str VectorStore.Row) :=
  if decide (map_Forall (fun _ v => VectorStore.storable v = true) md) then
    match c !! memory_id with
    | Some r =>
        Ok (<[memory_id :=
                {| VectorStore.row_embedding :=
                     default (VectorStore.row_embedding r) emb;
                   VectorStore.row_metadata := md ∪ VectorStore.row_metadata r;
                   VectorStore.row_document :=
                     default (VectorStore.row_document r) doc |}]> c)
    | None => Ok c
    end
  else Err (Raise ValueError
              (lit "Expected metadata value to be a str, int, float or bool")).

(** [v or ""] *)
Definition value_or_empty (v : PyValue) : PyValue :=
  if value_truthy v then v else PStr [].

(** [d.update(pairs)] *)
Definition dict_update (d : gmap str PyValue) (pairs : list (str * PyValue))
  : gmap str PyValue :=
  foldl (fun m kv => <[fst kv := snd kv]> m) d pairs.

(** The assignments to [existing.metadata]. *)
Definition updated_metadata (md : gmap str PyValue)
  (updates : gmap str PyValue) : result (gmap str PyValue) :=
  let md1 := match updates !! VectorStore.k_customer with
             | Some v => <[VectorStore.k_customer := value_or_empty v]> md
             | None => md end in
  let md2 := match updates !! VectorStore.k_project with
             | Some v => <[VectorStore.k_project := value_or_empty v]> md1
             | None => md1 end in
  let md3 := match updates !! VectorStore.k_importance_score with
             | Some v => <[VectorStore.k_importance_score := v]> md2
             | None => md2 end in
  match updates !! k_metadata with
  | None => Ok md3
  | Some (PDict d) => Ok (dict_update md3 d)
  | Some v => pairs ← update_pairs v; Ok (dict_update md3 pairs)
  end.

Definition with_collection (st : VectorStore.Store)
  (c : gmap str VectorStore.Row) : VectorStore.Store :=
  {| VectorStore.collection := c;
     VectorStore.store_uuids := VectorStore.store_uuids st |}.

Definition update_memory_entry (memory_id : str)
  (updates : gmap str PyValue) (st : VectorStore.Store)
  : result bool * VectorStore.Store :=
  match VectorStore.get_memory_entry memory_id st with
  | Err e => (Err e, st)
  | Ok None => (Ok false, st)
  | Ok (Some existing) =>
      let written :=
        match updates !! k_content with
        | None => Ok (VectorStore.collection st)
        | Some (PStr s) =>
            collection_update (VectorStore.collection st) memory_id
              (Some (encode s)) (VectorStore.metadata existing) (Some s)
        | Some v => Err (content_error v)
        end in
      match written with
      | Err e => (Err e, st)
      | Ok c1 =>
          match updated_metadata (VectorStore.metadata existing) updates with
          | Err e => (Err e, with_collection st c1)
          | Ok md =>
              match collection_update c1 memory_id None md None with
              | Ok c2 => (Ok true, with_collection st c2)
              | Err e => (Err e, with_collection st c1)
              end
          end
      end
  end.

(** The [where] clause of [list_memory_entries]. *)
Definition list_where_clause (filters : option (gmap str PyValue))
  : gmap str PyValue :=
  match filters with
  | None => ∅
  | Some f =>
      if decide (f = ∅) then ∅ else
      let w0 : gmap str PyValue := ∅ in
      let w1 := match or_None (f !! VectorStore.k_customer) with
                | Some v => <[VectorStore.k_customer := v]> w0
                | None => w0 end in
      match or_None (f !! VectorStore.k_project) with
      | Some v => <[VectorStore.k_project := v]> w1
      | None => w1
      end
  end.

(** [xs[i]] *)
Definition at_index {A} (xs : list A) (i : nat) : result A :=
  match xs !! i with
  | Some x => Ok x
  | None => Err (Raise IndexError (lit "list index out of range"))
  end.

Fixpoint list_rows (res : GetResult) (i : nat) (ids : list str)
  : result (list VectorStore.MemoryEntry) :=
  match ids with
  | [] => Ok []
  | memory_id :: rest =>
      md ← at_index (got_metadatas res) i;
      doc ← at_index (got_documents res) i;
      e ← VectorStore.entry_of_row memory_id md doc;
      more ← list_rows res (S i) rest;
      Ok (e :: more)
  end.

Definition list_memory_entries (limit offset : Z)
  (filters : option (gmap str PyValue)) (st : VectorStore.Store)
  : result (list VectorStore.MemoryEntry) :=
  let where_clause := list_where_clause filters in
  res ← collection_get (VectorStore.collection st) limit offset
          (if decide (where_clause = ∅) then None else Some where_clause);
  list_rows res 0 (got_ids res).

(** The metadata [add_document] writes for chunk [i]. *)
Definition chunk_metadata (document : DocumentIngestionService.Document)
  (i : nat) : gmap str PyValue :=
  let base : gmap str PyValue :=
    <[VectorStore.k_source_document_id :=
        PStr (DocumentIngestionService.doc_id document)]>
    (<[VectorStore.k_chunk_index := PInt (Z.of_nat i)]>
    (<[VectorStore.k_customer :=
         PStr (or_empty (DocumentIngestionService.customer document))]>
    (<[VectorStore.k_project :=
         PStr (or_empty (DocumentIngestionService.project document))]>
    (<[VectorStore.k_date :=
         PStr (isoformat (DocumentIngestionService.date document))]>
    (<[k_filename := PStr (DocumentIngestionService.filename document)]>
    (<[k_document_type :=
         PStr (document_type_value
                 (DocumentIngestionService.document_type document))]>
    (<[VectorStore.k_importance_score := PFloat 1%float]> ∅))))))) in
  DocumentIngestionService.metadata document ∪ base.

(** The rows prepared by the loop over the chunks: chunk [i] gets the
    [i]-th uuid drawn from [n] on. *)
Definition chunk_rows (document : DocumentIngestionService.Document)
  (n : nat) (chunks : list str) : list (str * VectorStore.Row) :=
  imap (fun i chunk =>
          (uuid4 (n + i),
           {| VectorStore.row_embedding := encode chunk;
              VectorStore.row_metadata := chunk_metadata document i;
              VectorStore.row_document := chunk |})) chunks.

(** [add_document]; [None] when the chunker runs out of fuel. *)
Definition add_document (fuel : nat)
  (document : DocumentIngestionService.Document) (st : VectorStore.Store)
  : option (result (list str) * VectorStore.Store) :=
  match VectorStore._chunk_text settings fuel
          (DocumentIngestionService.content document) with
  | None => None
  | Some chunks =>
      let rows := chunk_rows document (VectorStore.store_uuids st) chunks in
      let drawn := (VectorStore.store_uuids st + length chunks)%nat in
      Some
        match collection_add_many (VectorStore.collection st) rows with
        | Ok c =>
            (Ok (List.map fst rows),
             {| VectorStore.collection := c;
                VectorStore.store_uuids := drawn |})
        | Err e =>
            (Err e,
             {| VectorStore.collection := VectorStore.collection st;
                VectorStore.store_uuids := drawn |})
        end
  end.

End WithCollaborators.

End VectorStoreOps.

(** ** The prompt of the language-model client
    ([OllamaClient._build_prompt], [core/llm/ollama_client.py]) *)

Module OllamaClient.

Definition blank_line : str := [10%N; 10%N].

Definition _build_prompt (prompt : str) (context system_prompt : option str)
  : str :=
  let parts0 : list str := [] in
  let parts1 := match system_prompt with
                | Some (c :: t) => parts0 ++ [lit "System: " ++ c :: t]
                | _ => parts0
                end in
  let parts2 := match context with
                | Some (c :: t) => parts1 ++ [lit "Context:" ++ [10%N] ++ c :: t]
                | _ => parts1
                end in
  RAGEngine.join blank_line
    (parts2 ++ [lit "Human: " ++ prompt; lit "Assistant:"]).

End OllamaClient.

(** ** Stand-ins for the libraries

    Concrete collaborators on which the model runs: naive datetimes with
    the text form [isoformat] prints, a strict pydantic that converts
    nothing, and text libraries that know ASCII only. *)

Module NaiveDateTime.

Local Open Scope N_scope.

Record t := {
  year : N; month : N; day : N;
  hour : N; minute : N; second : N; microsecond : N
}.

Definition is_leap (y : N) : bool :=
  (y mod 4 =? 0) && negb (y mod 100 =? 0) || (y mod 400 =? 0).

Definition days_in_month (y m : N) : N :=
  match m with
  | 2 => if is_leap y then 29 else 28
  | 4 | 6 | 9 | 11 => 30
  | _ => 31
  end.

(** The field ranges the [datetime] constructor enforces. *)
Definition valid (d : t) : bool :=
  (1 <=? year d) && (year d <=? 9999)
  && (1 <=? month d) && (month d <=? 12)
  && (1 <=? day d) && (day d <=? days_in_month (year d) (month d))
  && (hour d <? 24) && (minute d <? 60) && (second d <? 60)
  && (microsecond d <? 1000000).

Definition digit (n : N) : N := 48 + n.

(** [n] in [k] decimal digits, zero padded: ["%0kd"]. *)
Fixpoint pad (k : nat) (n : N) : str :=
  match k with
  | O => []
  | S k' => pad k' (n / 10) ++ [digit (n mod 10)]
  end.

Definition digit_value (c : N) : option N :=
  if (48 <=? c) && (c <=? 57) then Some (c - 48) else None.

Fixpoint parse_digits (acc : N) (s : str) : option N :=
  match s with
  | [] => Some acc
  | c :: s' =>
      match digit_value c with
      | Some v => parse_digits (10 * acc + v) s'
      | None => None
      end
  end.

(** Reads exactly [k] digits off the front. *)
Definition take_digits (k : nat) (s : str) : option (N * str) :=
  if (k <=? length s)%nat then
    match parse_digits 0 (take k s) with
    | Some n => Some (n, drop k s)
    | None => None
    end
  else None.

Definition expect (c : N) (s : str) : option str :=
  match s with
  | x :: s' => if x =? c then Some s' else None
  | [] => None
  end.

Definition isoformat (d : t) : str :=
  pad 4 (year d) ++ lit "-" ++ pad 2 (month d) ++ lit "-" ++ pad 2 (day d)
  ++ lit "T" ++ pad 2 (hour d) ++ lit ":" ++ pad 2 (minute d) ++ lit ":"
  ++ pad 2 (second d)
  ++ (if microsecond d =? 0 then []
      else lit "." ++ pad 6 (microsecond d)).

Definition strftime_minutes (d : t) : str :=
  pad 4 (year d) ++ lit "-" ++ pad 2 (month d) ++ lit "-" ++ pad 2 (day d)
  ++ lit " " ++ pad 2 (hour d) ++ lit ":" ++ pad 2 (minute d).

(** The fraction of a second: absent, or a point and six digits. *)
Definition parse_fraction (s : str) : option N :=
  match s with
  | [] => Some 0
  | _ =>
      s1 ← expect 46 s;
      '(us, s2) ← take_digits 6 s1;
      match s2 with [] => Some us | _ => None end
  end.

Definition parse (s : str) : option t :=
  '(y, s) ← take_digits 4 s;
  s ← expect 45 s;
  '(m, s) ← take_digits 2 s;
  s ← expect 45 s;
  '(d, s) ← take_digits 2 s;
  s ← expect 84 s;
  '(h, s) ← take_digits 2 s;
  s ← expect 58 s;
  '(mi, s) ← take_digits 2 s;
  s ← expect 58 s;
  '(sec, s) ← take_digits 2 s;
  us ← parse_fraction s;
  Some {| year := y; month := m; day := d; hour := h; minute := mi;
          second := sec; microsecond := us |}.

(** A datetime object: fields in range. *)
Inductive in_range (d : t) : Prop :=
  | fields_in_range (Hv : valid d = true).

Definition datetime : Type := { d : t | in_range d }.

Definition checked (d : t) : option datetime :=
  match Bool.bool_dec (valid d) true with
  | left Hv => Some (exist _ d (fields_in_range d Hv))
  | right _ => None
  end.

Definition fromisoformat (s : str) : option datetime :=
  d ← parse s; checked d.

(** Naive datetimes compare field by field, the year first. *)
Definition key (d : t) : N :=
  (((((year d * 13 + month d) * 32 + day d) * 24 + hour d) * 60
     + minute d) * 60 + second d) * 1000000 + microsecond d.

Definition le (d1 d2 : datetime) : Prop :=
  key (proj1_sig d1) <= key (proj1_sig d2).

Definition same (d1 d2 : datetime) : Prop := proj1_sig d1 = proj1_sig d2.

(** A datetime from fields known to be in range. *)
Definition make (d : t) (Hv : valid d = true) : datetime :=
  exist _ d (fields_in_range d Hv).

End NaiveDateTime.

(** A clock that advances by one microsecond per reading, up to the end
    of its second, and a uuid generator that numbers its draws. *)
Definition at_microsecond (us : N) : NaiveDateTime.t :=
  {| NaiveDateTime.year := 2024; NaiveDateTime.month := 1;
     NaiveDateTime.day := 1; NaiveDateTime.hour := 12;
     NaiveDateTime.minute := 0; NaiveDateTime.second := 0;
     NaiveDateTime.microsecond := us |}.

Definition noon : NaiveDateTime.datetime :=
  NaiveDateTime.make (at_microsecond 0) eq_refl.

Definition stepping_clock (n : nat) : NaiveDateTime.datetime :=
  default noon
    (NaiveDateTime.checked (at_microsecond (N.min (N.of_nat n) 999999))).

Definition numbered_uuid (n : nat) : str :=
  lit "id-" ++ RAGEngine.str_of_nat n.

(** A pydantic that accepts a field's own type only. *)
Definition strict_pydantic : Pydantic :=
  {| coerce_str := fun _ => Err (Raise ValidationError (lit "str type expected"));
     coerce_int := fun _ => Err (Raise ValidationError (lit "value is not a valid integer"));
     coerce_float := fun _ => Err (Raise ValidationError (lit "value is not a valid float")) |}.

Module AsciiText.

Definition lower_char (c : N) : N :=
  if ((65 <=? c) && (c <=? 90))%N then (c + 32)%N else c.

(** Decodes a byte string of ASCII characters; anything else is an
    error. *)
Definition decode_ascii (b : list Byte.byte) : option str :=
  if forallb (fun x => (Byte.to_N x <? 128)%N) b
  then Some (List.map Byte.to_N b) else None.

Definition libs : TextLibs :=
  {| str_lower := List.map lower_char;
     decode_utf8 := decode_ascii;
     utf8_error := fun _ => lit "'utf-8' codec can't decode";
     decode_utf16 := fun _ => None;
     decode_cp1252 := fun b => Some (List.map Byte.to_N b);
     decode_utf8_replace := List.map Byte.to_N;
     pdf_pages := fun _ => Err (Raise OtherError (lit "not a PDF"));
     docx_paragraphs := fun _ => Err (Raise OtherError (lit "not a DOCX")) |}.

End AsciiText.

(** ** The stand-in datetime: [fromisoformat] inverts [isoformat] *)

Section NaiveDateTimeFacts.
Import NaiveDateTime.
Local Open Scope N_scope.

Lemma length_pad (k : nat) (n : N) : length (pad k n) = k.
Proof.
  revert n. induction k as [|k IH]; intros n; [reflexivity|].
  cbn [pad]. rewrite length_app, IH. simpl. lia.
Qed.

Lemma parse_digits_app (acc : N) (s1 s2 : str) :
  parse_digits acc (s1 ++ s2)
  = match parse_digits acc s1 with
    | Some a => parse_digits a s2
    | None => None
    end.
Proof.
  revert acc. induction s1 as [|c s1 IH]; intros acc; [reflexivity|].
  cbn [parse_digits app]. destruct (digit_value c); [apply IH|reflexivity].
Qed.

Lemma digit_value_digit (v : N) : v < 10 -> digit_value (digit v) = Some v.
Proof.
  intros Hv. unfold digit_value, digit.
  destruct (N.leb_spec 48 (48 + v)); [|lia].
  destruct (N.leb_spec (48 + v) 57); [|lia].
  simpl. f_equal. lia.
Qed.

Lemma parse_digits_pad (k : nat) :
  forall (n acc : N),
    n < 10 ^ N.of_nat k ->
    parse_digits acc (pad k n) = Some (acc * 10 ^ N.of_nat k + n).
Proof.
  induction k as [|k IH]; intros n acc Hn.
  - simpl in *. f_equal. lia.
  - cbn [pad]. rewrite parse_digits_app.
    rewrite Nat2N.inj_succ, N.pow_succ_r' in *.
    assert (n / 10 < 10 ^ N.of_nat k) as Hq.
    { apply N.Div0.div_lt_upper_bound. exact Hn. }
    rewrite (IH _ _ Hq). cbn [parse_digits].
    rewrite digit_value_digit by (apply N.mod_lt; lia).
    f_equal. pose proof (N.div_mod n 10 ltac:(lia)). lia.
Qed.

Lemma take_digits_pad (k : nat) (n : N) (rest : str) :
  n < 10 ^ N.of_nat k ->
  take_digits k (pad k n ++ rest) = Some (n, rest).
Proof.
  intros Hn. unfold take_digits.
  rewrite length_app, length_pad.
  destruct (Nat.leb_spec k (k + length rest)); [|lia].
  rewrite take_app_length' by (symmetry; apply length_pad).
  rewrite drop_app_length' by (symmetry; apply length_pad).
  rewrite (parse_digits_pad k n 0 Hn). reflexivity.
Qed.

Lemma valid_bounds (d : t) :
  valid d = true ->
  year d < 10 ^ 4 /\ month d < 10 ^ 2 /\ day d < 10 ^ 2 /\ hour d < 10 ^ 2
  /\ minute d < 10 ^ 2 /\ second d < 10 ^ 2 /\ microsecond d < 10 ^ 6.
Proof.
  unfold valid. rewrite !andb_true_iff.
  rewrite !N.leb_le, !N.ltb_lt. intros Hv.
  assert (days_in_month (year d) (month d) <= 31) as Hd.
  { unfold days_in_month.
    destruct (month d) as [|[[[[|[]|]|[[]|[]|]|]|[[[]|[]|]|[]|]|]|[[[]|[]|]|[[]|[]|]|]|]];
      try destruct (is_leap (year d)); lia. }
  change (10 ^ 4) with 10000. change (10 ^ 2) with 100.
  change (10 ^ 6) with 1000000. lia.
Qed.

Lemma bind_Some {A B} (x : A) (f : A -> option B) : Some x ≫= f = f x.
Proof. reflexivity. Qed.

Ltac read_field Hbound :=
  rewrite take_digits_pad by exact Hbound;
  rewrite bind_Some; cbn beta iota.

Ltac read_mark :=
  cbn [expect app]; rewrite N.eqb_refl; rewrite bind_Some; cbn beta.

Lemma parse_isoformat (d : t) : valid d = true -> parse (isoformat d) = Some d.
Proof.
  intros Hv. destruct (valid_bounds d Hv) as (Hy & Hm & Hd & Hh & Hmi & Hs & Hus).
  unfold parse, isoformat.
  change (lit "-") with [45]. change (lit "T") with [84].
  change (lit ":") with [58]. change (lit ".") with [46].
  read_field Hy. read_mark. read_field Hm. read_mark.
  read_field Hd. read_mark. read_field Hh. read_mark.
  read_field Hmi. read_mark. read_field Hs.
  destruct (N.eqb_spec (microsecond d) 0) as [E|E].
  - cbn [parse_fraction]. rewrite bind_Some.
    destruct d; simpl in *; congruence.
  - cbn [parse_fraction app]. read_mark.
    rewrite <- (app_nil_r (pad 6 (microsecond d))).
    read_field Hus. rewrite bind_Some. destruct d; reflexivity.
Qed.

Lemma checked_valid (d : t) (Hv : valid d = true) :
  exists d', checked d = Some d' /\ proj1_sig d' = d.
Proof.
  unfold checked. destruct (Bool.bool_dec (valid d) true) as [Hv'|Hn].
  - eexists. split; reflexivity.
  - contradiction.
Qed.

Lemma naive_fromisoformat_isoformat (d : datetime) :
  exists d', fromisoformat (isoformat (proj1_sig d)) = Some d' /\ same d d'.
Proof.
  destruct d as [d [Hv]]. simpl. unfold fromisoformat.
  rewrite (parse_isoformat d Hv). cbn [mbind option_bind].
  destruct (checked_valid d Hv) as (d' & Hc & Hd).
  exists d'. split; [exact Hc|]. unfold same. simpl. congruence.
Qed.

Lemma naive_le_preorder : PreOrder le.
Proof.
  split.
  - intros d. unfold le. lia.
  - intros a b c. unfold le. lia.
Qed.

End NaiveDateTimeFacts.

(** The stand-in as an implementation of the datetime interface. *)
Definition naive_datetime : PyDateTime :=
  {| datetime := NaiveDateTime.datetime;
     isoformat := fun d => NaiveDateTime.isoformat (proj1_sig d);
     fromisoformat := NaiveDateTime.fromisoformat;
     same_instant := NaiveDateTime.same;
     dt_le := NaiveDateTime.le;
     strftime_minutes := fun d => NaiveDateTime.strftime_minutes (proj1_sig d);
     dt_le_preorder := naive_le_preorder;
     fromisoformat_isoformat := naive_fromisoformat_isoformat |}.


Section SteppingClock.
Import NaiveDateTime.
Local Open Scope N_scope.

Lemma at_microsecond_valid (us : N) :
  us < 1000000 -> valid (at_microsecond us) = true.
Proof. intros Hus. unfold valid. cbn. now apply N.ltb_lt. Qed.

Lemma stepping_clock_fields (n : nat) :
  proj1_sig (stepping_clock n)
  = at_microsecond (N.min (N.of_nat n) 999999).
Proof.
  unfold stepping_clock.
  destruct (checked_valid (at_microsecond (N.min (N.of_nat n) 999999)))
    as (d & -> & Hd); [apply at_microsecond_valid; lia|exact Hd].
Qed.

Lemma stepping_clock_le (i j : nat) :
  (i <= j)%nat -> le (stepping_clock i) (stepping_clock j).
Proof.
  intros Hij. unfold le. rewrite !stepping_clock_fields.
  unfold key. cbn. lia.
Qed.

End SteppingClock.

(** ** Fixtures: a small store, and backends that answer or fail *)

Module Fixture.

#[local] Existing Instance naive_datetime.
#[local] Existing Instance strict_pydantic.

Definition encode (_ : str) : list float := [].

(** The stepping clock, as the [utcnow] of the datetime stand-in. *)
Definition clock : nat -> datetime := stepping_clock.

(** A clock that is set back: each reading is a microsecond earlier than
    the one before. *)
Definition clock_set_back : nat -> datetime :=
  fun n => stepping_clock (1000 - n).

Definition stored_metadata : gmap str PyValue :=
  list_to_map
    [(VectorStore.k_customer, PStr (lit "acme"));
     (VectorStore.k_project, PStr []);
     (VectorStore.k_date, PStr (lit "2024-01-01T12:00:00"));
     (VectorStore.k_source_document_id, PStr (lit "doc-1"));
     (VectorStore.k_chunk_index, PInt 0);
     (VectorStore.k_importance_score, PFloat 1%float)].

Definition row : VectorStore.Row :=
  {| VectorStore.row_embedding := [];
     VectorStore.row_metadata := stored_metadata;
     VectorStore.row_document := lit "assay results" |}.

Definition store : VectorStore.Store :=
  {| VectorStore.collection := <[lit "near" := row]> {[lit "far" := row]};
     VectorStore.store_uuids := 0 |}.

Definition empty_store : VectorStore.Store :=
  {| VectorStore.collection := ∅; VectorStore.store_uuids := 0 |}.

(** Two neighbours, at cosine distances 0.1 and 0.5. *)
Definition near_and_far : VectorStore.QueryResult :=
  {| VectorStore.res_ids := [[lit "near"; lit "far"]];
     VectorStore.res_metadatas := Some [[stored_metadata; stored_metadata]];
     VectorStore.res_documents :=
       Some [[lit "assay results"; lit "assay results"]];
     VectorStore.res_distances :=
       Some [[0x1.999999999999ap-4%float; 0x1p-1%float]] |}.

(** One neighbour, at cosine distance 0.5. *)
Definition only_far : VectorStore.QueryResult :=
  {| VectorStore.res_ids := [[lit "far"]];
     VectorStore.res_metadatas := Some [[stored_metadata]];
     VectorStore.res_documents := Some [[lit "assay results"]];
     VectorStore.res_distances := Some [[0x1p-1%float]] |}.

Definition answers (r : VectorStore.QueryResult)
  : gmap str VectorStore.Row -> list float -> Z
    -> option (gmap str PyValue) -> result VectorStore.QueryResult :=
  fun _ _ _ _ => Ok r.

(** A note with an empty customer label. *)
Definition note : VectorStore.MemoryEntry :=
  {| VectorStore.id := lit "draft";
     VectorStore.content := lit "buffer at pH 7";
     VectorStore.embedding := None;
     VectorStore.customer := Some [];
     VectorStore.project := Some (lit "alpha");
     VectorStore.date := noon;
     VectorStore.source_document_id := lit "draft";
     VectorStore.chunk_index := 0;
     VectorStore.importance_score := 1%float;
     VectorStore.metadata := ∅ |}.

Definition question_only : RAGEngine.Query :=
  {| RAGEngine.question := lit "What was measured?";
     RAGEngine.conversation_id := None;
     RAGEngine.filters := None;
     RAGEngine.max_results := 5 |}.

Definition search_nothing
  : str -> option (gmap str PyValue) -> Z
    -> result (list VectorStore.MemoryEntry) :=
  fun _ _ _ => Ok [].

Definition search_down
  : str -> option (gmap str PyValue) -> Z
    -> result (list VectorStore.MemoryEntry) :=
  fun _ _ _ => Err (Raise ConnectionError (lit "store unreachable")).

Definition generate_answer : str -> str -> str -> result RAGEngine.LLMResponse :=
  fun _ _ _ =>
    Ok {| RAGEngine.llm_response := PStr (lit "Nothing yet.");
          RAGEngine.llm_generation_time_ms := PInt 12;
          RAGEngine.llm_tokens_used := PInt 7 |}.

Definition stream_breaks : str -> str -> str -> list str * option exn :=
  fun _ _ _ =>
    ([lit "Noth"; lit "ing"],
     Some (Raise ConnectionError (lit "connection lost"))).

Definition world0 : DocumentIngestionService.World :=
  {| DocumentIngestionService.clock_reads := 0;
     DocumentIngestionService.uuid_draws := 0 |}.

End Fixture.

(** More fixtures, for the operations above. *)

Module MoreFixtures.

#[local] Existing Instance naive_datetime.
#[local] Existing Instance strict_pydantic.

(** A stream that ends normally. *)
Definition stream_ends : str -> str -> str -> list str * option exn :=
  fun _ _ _ => ([lit "Noth"; lit "ing"], None).

(** A question asked within conversation [id-0]. *)
Definition follow_up : RAGEngine.Query :=
  {| RAGEngine.question := lit "And the control?";
     RAGEngine.conversation_id := Some (numbered_uuid 0);
     RAGEngine.filters := None;
     RAGEngine.max_results := 5 |}.

(** A note whose metadata holds a list, which ChromaDB does not store. *)
Definition tagged_note : VectorStore.MemoryEntry :=
  {| VectorStore.id := lit "draft";
     VectorStore.content := lit "buffer at pH 7";
     VectorStore.embedding := None;
     VectorStore.customer := None;
     VectorStore.project := None;
     VectorStore.date := noon;
     VectorStore.source_document_id := lit "draft";
     VectorStore.chunk_index := 0;
     VectorStore.importance_score := 1%float;
     VectorStore.metadata := {[lit "tags" := PList [PStr (lit "ph")]]} |}.

Definition content_error (_ : PyValue) : exn :=
  Raise TypeError (lit "content must be a string").

Definition update_pairs (_ : PyValue) : result (list (str * PyValue)) :=
  Err (Raise TypeError (lit "metadata must be a mapping")).

(** A listing that reports the one row [near]. *)
Definition lists_near
  : gmap str VectorStore.Row -> Z -> Z -> option (gmap str PyValue)
    -> result VectorStoreOps.GetResult :=
  fun _ _ _ _ =>
    Ok {| VectorStoreOps.got_ids := [lit "near"];
          VectorStoreOps.got_metadatas := [Fixture.stored_metadata];
          VectorStoreOps.got_documents := [lit "assay results"] |}.

(** A batch insert that stores every row it is given. *)
Definition add_all (c : gmap str VectorStore.Row)
  (rows : list (str * VectorStore.Row)) : result (gmap str VectorStore.Row) :=
  Ok (foldl (fun m kv => <[fst kv := snd kv]> m) c rows).

Definition report : DocumentIngestionService.Document :=
  {| DocumentIngestionService.doc_id := lit "doc-1";
     DocumentIngestionService.filename := lit "report.txt";
     DocumentIngestionService.content := lit "alpha beta gamma delta";
     DocumentIngestionService.document_type := TXT;
     DocumentIngestionService.customer := Some (lit "acme");
     DocumentIngestionService.project := None;
     DocumentIngestionService.date := noon;
     DocumentIngestionService.metadata := ∅;
     DocumentIngestionService.file_size := 24;
     DocumentIngestionService.created_at := noon |}.

End MoreFixtures.

(** * Facts *)

(** ** Python string primitives *)

Lemma len_nonneg {A} (s : list A) : 0 <= len s.
Proof. unfold len. lia. Qed.




Lemma lstrip_fixed (s : str) :
  (forall c, c ∈ s -> is_space c = false) -> lstrip s = s.
Proof.
  destruct s as [|x s]; [reflexivity|]. intros H. simpl.
  rewrite (H x); [reflexivity|]. apply elem_of_cons. now left.
Qed.



(** What [rfind_from] returns: nothing ([-1]) or a position in range. *)
Lemma rfind_from_range (s : str) (c : char) (i0 a b : Z) :
  rfind_from s c i0 a b = -1
  \/ (a <= rfind_from s c i0 a b < b /\ i0 <= rfind_from s c i0 a b).
Proof.
  revert i0. induction s as [|x s IH]; intros i0; simpl; [now left|].
  destruct (Z.leb_spec 0 (rfind_from s c (i0 + 1) a b)) as [Hr|Hr].
  - destruct (IH (i0 + 1)) as [E|[? ?]]; [lia|right; lia].
  - destruct ((x =? c)%N && (a <=? i0) && (i0 <? b)) eqn:E; [|now left].
    right. apply andb_true_iff in E as [E1 E3].
    apply andb_true_iff in E1 as [_ E2]. lia.
Qed.


(** ** The chunker *)

Section ChunkerAdvancing.
Import VectorStore.
Variable settings : Settings.
Variable text : str.

Let size := chunk_size settings.
Let overlap := chunk_overlap settings.

(** The settings under which every window moves [start] forward: the
    overlap is not negative, and it is smaller than the shortest window a
    sentence cut can leave (one found at most 100 characters before the
    end, or any at all when the overlap is at most 1). *)
Hypothesis overlap_nonneg : 0 <= overlap.
Hypothesis overlap_lt_size : overlap < size.
Hypothesis overlap_room : overlap + 100 <= size \/ overlap <= 1.







End ChunkerAdvancing.

Section ChunkerClaims.
Import VectorStore.

(** C3, as the spec words it: one chunk, the trimmed input. *)
Definition short_text_claim (settings : Settings) (text : str) : Prop :=
  forall fuel, _chunk_text settings fuel text = Some [strip text].

(** C2, as the spec words it: the loop returns, with at least two chunks,
    and every character of the text occurs in one of them. *)
Definition long_text_claim (settings : Settings) (text : str) : Prop :=
  exists fuel chunks,
    _chunk_text settings fuel text = Some chunks
    /\ (2 <= length chunks)%nat
    /\ forall c : char, c ∈ text -> exists chunk, chunk ∈ chunks /\ c ∈ chunk.

(** C3 (amended): a text no longer than [chunk_size] comes back as exactly
    one chunk, which is the text itself, untrimmed; that chunk is the
    trimmed text exactly when stripping leaves the text unchanged. *)
Theorem chunk_text_short_is_input
  (settings : Settings) (text : str) (fuel : nat) :
  len text <= chunk_size settings ->
  _chunk_text settings fuel text = Some [text]
  /\ (_chunk_text settings fuel text = Some [strip text] <-> strip text = text).
Proof.
  intros Hlen. unfold _chunk_text.
  destruct (Z.leb_spec (len text) (chunk_size settings)); [|lia].
  split; [reflexivity|]. split; intros E; [congruence|now rewrite E].
Qed.

Lemma chunk_text_short_is_input_witness :
  len (lit " a") <= chunk_size default_settings
  /\ _chunk_text default_settings 0 (lit " a") = Some [lit " a"].
Proof.
  split; [vm_compute; discriminate|].
  apply (chunk_text_short_is_input default_settings (lit " a") 0).
  vm_compute; discriminate.
Defined.

(** C3 as stated fails on a short text with a leading blank. *)
Lemma chunk_text_short_not_trimmed :
  len (lit " a") <= chunk_size default_settings
  /\ ~ short_text_claim default_settings (lit " a").
Proof.
  split; [vm_compute; discriminate|].
  intros H. specialize (H O). vm_compute in H. discriminate.
Qed.



(** Not every character of a long text is in a chunk: the blank that ends
    this text is stripped from the last window. *)
Lemma chunk_text_drops_blank :
  chunk_size (small_settings 4 1) < len (lit "abcde ")
  /\ chunk_overlap (small_settings 4 1) < chunk_size (small_settings 4 1)
  /\ ~ long_text_claim (small_settings 4 1) (lit "abcde ").
Proof.
  split; [reflexivity|]. split; [reflexivity|].
  intros (fuel & chunks & Hrun & _ & Hall).
  destruct (Hall 32%N) as (chunk & Hin & Hc).
  { apply list_elem_of_In. vm_compute. tauto. }
  destruct fuel as [|[|fuel]]; vm_compute in Hrun; try discriminate.
  injection Hrun as <-.
  apply list_elem_of_In in Hin. apply list_elem_of_In in Hc.
  vm_compute in Hin.
  destruct Hin as [<-|[<-|[]]]; vm_compute in Hc;
    repeat (destruct Hc as [Hc|Hc]; [discriminate|]); exact Hc.
Qed.

(** With [overlap < chunk_size] alone the loop can stall: after a
    sentence cut close to [start], [start] turns negative and stays at
    [-5] for ever.  No amount of fuel gives a result. *)
Lemma chunk_loop_stuck (fuel : nat) (chunks : list str) :
  chunk_loop (small_settings 10 5) fuel (lit "a.aaaaaaaaaaaa") (-5) chunks
  = None.
Proof.
  revert chunks. induction fuel as [|fuel IH]; intros chunks; [reflexivity|].
  cbn [chunk_loop].
  change (chunk_step (small_settings 10 5) (lit "a.aaaaaaaaaaaa") (-5) chunks)
    with (chunks, -5).
  apply IH.
Qed.

Lemma chunk_text_stalls (fuel : nat) :
  _chunk_text (small_settings 10 5) fuel (lit "a.aaaaaaaaaaaa") = None.
Proof.
  unfold _chunk_text.
  change (len (lit "a.aaaaaaaaaaaa") <=? chunk_size (small_settings 10 5))
    with false. cbv iota.
  destruct fuel as [|[|fuel]]; [reflexivity|reflexivity|].
  cbn [chunk_loop].
  change (chunk_step (small_settings 10 5) (lit "a.aaaaaaaaaaaa") 0 [])
    with ([lit "a."], -3).
  change (0 <? len (lit "a.aaaaaaaaaaaa")) with true.
  change (len (lit "a.aaaaaaaaaaaa") <=? -3) with false. cbv iota.
  change (chunk_step (small_settings 10 5) (lit "a.aaaaaaaaaaaa") (-3)
            [lit "a."]) with ([lit "a."], -5).
  change (-3 <? len (lit "a.aaaaaaaaaaaa")) with true.
  change (len (lit "a.aaaaaaaaaaaa") <=? -5) with false. cbv iota.
  apply chunk_loop_stuck.
Qed.

(** A window whose end, less the overlap, is its own start is taken
    again and again: the same slice is appended on every pass and the
    loop never returns. *)
Lemma chunk_loop_fixed_start (settings : Settings) (text : str) (start : Z) :
  start < len text ->
  window_end settings text start - chunk_overlap settings = start ->
  forall (fuel : nat) (chunks : list str),
    chunk_loop settings fuel text start chunks = None.
Proof.
  intros Hs Hfix fuel. induction fuel as [|fuel IH]; intros chunks;
    [reflexivity|].
  cbn [chunk_loop]. destruct (Z.ltb_spec start (len text)); [|lia].
  unfold chunk_step. cbv zeta. rewrite Hfix.
  destruct (Z.leb_spec (len text) start); [lia|]. apply IH.
Qed.

(** A first sentence of 20 characters, then 96 characters with no full
    stop. *)
Definition short_first_sentence : str :=
  lit "Assay run completed. The buffer was held at pH 7 while the samples were stirred for two hours and then cooled on ice".

(** C2: with [chunk_overlap < chunk_size] the loop need not return.  A
    pass whose window is cut at a sentence end that lies [chunk_overlap]
    characters after [start] puts [start] back where it was, and the loop
    then never returns; with a chunk size of 100 and an overlap of 20, a
    text of 116 characters whose first sentence has 20 characters is
    such a text: every pass appends that sentence again and starts at 0
    again. *)
Theorem chunk_text_never_returns :
  (forall (settings : Settings) (text : str) (start : Z),
     start < len text ->
     window_end settings text start - chunk_overlap settings = start ->
     forall (fuel : nat) (chunks : list str),
       chunk_loop settings fuel text start chunks = None)
  /\ (chunk_overlap (small_settings 100 20) < chunk_size (small_settings 100 20)
      /\ chunk_size (small_settings 100 20) < len short_first_sentence
      /\ (forall chunks,
            chunk_step (small_settings 100 20) short_first_sentence 0 chunks
            = (chunks ++ [lit "Assay run completed."], 0))
      /\ forall fuel : nat,
           _chunk_text (small_settings 100 20) fuel short_first_sentence
           = None).
Proof.
  split; [exact chunk_loop_fixed_start|].
  split; [reflexivity|]. split; [reflexivity|].
  split; [intros chunks; reflexivity|].
  intros fuel. unfold _chunk_text.
  change (len short_first_sentence <=? chunk_size (small_settings 100 20))
    with false. cbv iota.
  apply chunk_loop_fixed_start; reflexivity.
Qed.

Lemma chunk_text_never_returns_witness :
  chunk_loop (small_settings 100 20) 1000 short_first_sentence 0 [] = None.
Proof.
  apply (proj1 chunk_text_never_returns (small_settings 100 20)
           short_first_sentence 0); reflexivity.
Defined.

End ChunkerClaims.

(** ** Document ingestion *)

Lemma lstrip_all_space (s : str) :
  (forall c, c ∈ s -> is_space c = true) -> lstrip s = [].
Proof.
  induction s as [|x s IH]; intros Hall; [reflexivity|].
  simpl. rewrite (Hall x) by (apply elem_of_cons; now left).
  apply IH. intros c Hc. apply Hall, elem_of_cons. now right.
Qed.

Lemma strip_all_space (s : str) :
  (forall c, c ∈ s -> is_space c = true) -> strip s = [].
Proof.
  intros Hall. unfold strip. now rewrite (lstrip_all_space s Hall).
Qed.

Lemma lstrip_nonempty (s : str) :
  lstrip s <> [] -> exists c, c ∈ s /\ is_space c = false.
Proof.
  induction s as [|x s IH]; intros Hne; [now elim Hne|].
  simpl in Hne. destruct (is_space x) eqn:Hx.
  - destruct (IH Hne) as (c & Hc & Hsp). exists c. split; [|exact Hsp].
    apply elem_of_cons. now right.
  - exists x. split; [apply elem_of_cons; now left|exact Hx].
Qed.

(** A text whose stripped form is not empty holds a character that is not
    white space. *)
Lemma strip_nonempty (s : str) :
  truthy (strip s) = true -> exists c, c ∈ s /\ is_space c = false.
Proof.
  intros Ht. apply lstrip_nonempty. intros E.
  unfold strip in Ht. rewrite E in Ht. discriminate.
Qed.

Section IngestionFacts.
Context `{PyDateTime} `{TextLibs}.
Import DocumentIngestionService.

(** [find_processor] picks the first processor, in list order, whose
    [can_process] accepts the name. *)
Lemma find_processor_first (procs : list Processor) (name : str)
  (proc : Processor) :
  find_processor procs name = Some proc ->
  exists before after,
    procs = before ++ proc :: after
    /\ can_process proc name = true
    /\ forall p, p ∈ before -> can_process p name = false.
Proof.
  induction procs as [|p procs IH]; intros Hf; [discriminate|].
  simpl in Hf. destruct (can_process p name) eqn:Hp.
  - injection Hf as <-. exists [], procs. split; [reflexivity|].
    split; [exact Hp|]. intros q Hq. inversion Hq.
  - destruct (IH Hf) as (before & after & -> & Hc & Hb).
    exists (p :: before), after. split; [reflexivity|]. split; [exact Hc|].
    intros q Hq. apply elem_of_cons in Hq as [->|Hq]; auto.
Qed.

Lemma find_processor_none (procs : list Processor) (name : str) :
  (forall p, p ∈ procs -> can_process p name = false) ->
  find_processor procs name = None.
Proof.
  induction procs as [|p procs IH]; intros Hall; [reflexivity|].
  simpl. rewrite (Hall p) by (apply elem_of_cons; now left).
  apply IH. intros q Hq. apply Hall, elem_of_cons. now right.
Qed.

(** C10: [TxtProcessor.extract_text] returns a string for every byte
    string.  The loop over the encodings stops at utf-8, utf-16 or latin-1
    at the latest: cp1252 is never attempted and the decode with
    replacement characters never runs. *)
Theorem txt_extract_text_never_fails (file_content : list Byte.byte) :
  exists tried text,
    TxtProcessor.extract_text_traced file_content = (tried, false, Ok text)
    /\ TxtProcessor.extract_text file_content = Ok text
    /\ (TxtProcessor.Cp1252 ∉ tried)
    /\ (tried = [TxtProcessor.Utf8]
        \/ tried = [TxtProcessor.Utf8; TxtProcessor.Utf16]
        \/ tried = [TxtProcessor.Utf8; TxtProcessor.Utf16;
                    TxtProcessor.Latin1]).
Proof.
  unfold TxtProcessor.extract_text, TxtProcessor.extract_text_traced,
    TxtProcessor.encodings.
  cbn [TxtProcessor.decode_first TxtProcessor.decode].
  destruct (decode_utf8 file_content) as [t8|].
  { exists [TxtProcessor.Utf8], (strip t8). repeat split; auto.
    intros Hin. apply elem_of_cons in Hin as [Hin|Hin];
      [discriminate|inversion Hin]. }
  destruct (decode_utf16 file_content) as [t16|].
  { exists [TxtProcessor.Utf8; TxtProcessor.Utf16], (strip t16).
    repeat split; auto.
    intros Hin. repeat (apply elem_of_cons in Hin as [Hin|Hin];
      [discriminate|]). inversion Hin. }
  exists [TxtProcessor.Utf8; TxtProcessor.Utf16; TxtProcessor.Latin1],
    (strip (decode_latin1 file_content)).
  repeat split; auto.
  intros Hin. repeat (apply elem_of_cons in Hin as [Hin|Hin];
    [discriminate|]). inversion Hin.
Qed.

Variable utcnow : nat -> datetime.
Variable uuid4 : nat -> str.

(** C8: a file name no registered processor accepts is refused with the
    unsupported-format error; the processor is the first in registration
    order that accepts the name, whatever the bytes are; an extracted text
    of white space only is refused as an empty document; and a document
    that is returned holds a character that is not white space. *)
Theorem process_document_refusals
  (name : str) (file_content : list Byte.byte)
  (customer_arg project_arg : option str)
  (metadata_arg : option (gmap str PyValue)) (w : World) :
  ((forall proc, proc ∈ processors -> can_process proc name = false) ->
   process_document utcnow uuid4 name file_content customer_arg project_arg
     metadata_arg w
   = (Err (Raise ValueError
             (lit "No processor available for file type: " ++ name)), w))
  /\ (forall proc,
        find_processor processors name = Some proc ->
        exists before after,
          processors = before ++ proc :: after
          /\ can_process proc name = true
          /\ forall p, p ∈ before -> can_process p name = false)
  /\ (forall proc text,
        find_processor processors name = Some proc ->
        extract_text proc file_content = Ok text ->
        (forall c, c ∈ text -> is_space c = true) ->
        process_document utcnow uuid4 name file_content customer_arg
          project_arg metadata_arg w
        = (Err (Raise ValueError
                  (lit "Document appears to be empty or unreadable")), w))
  /\ (forall doc w',
        process_document utcnow uuid4 name file_content customer_arg
          project_arg metadata_arg w = (Ok doc, w') ->
        exists c, c ∈ content doc /\ is_space c = false).
Proof.
  split; [|split; [|split]].
  - intros Hnone. unfold process_document.
    now rewrite (find_processor_none processors name Hnone).
  - intros proc. apply find_processor_first.
  - intros proc text Hf Hx Hall. unfold process_document.
    rewrite Hf, Hx. now rewrite (strip_all_space text Hall).
  - intros doc w' Hrun. unfold process_document in Hrun.
    destruct (find_processor processors name) as [proc|]; [|discriminate].
    destruct (extract_text proc file_content) as [text|e]; [|discriminate].
    destruct (truthy (strip text)) eqn:Ht; [|discriminate].
    injection Hrun as <- <-. simpl. now apply strip_nonempty.
Qed.

End IngestionFacts.

(** ** The vector store *)

Ltac key_ne := let E := fresh "E" in intros E; vm_compute in E; discriminate E.

Section VectorStoreFacts.
Context `{PyDateTime} `{Pydantic}.
Import VectorStore.

Variable settings : Settings.
Variable encode : str -> list float.
Variable collection_query :
  gmap str Row -> list float -> Z -> option (gmap str PyValue)
  -> result QueryResult.
Variable uuid4 : nat -> str.

(** What the loop of [search] keeps: every pair it returns was built from
    a row at or after [i], carries that row's id and the similarity
    computed from that row's distance, and passed the threshold test. *)
Definition kept_row (res : QueryResult) (ids : list str)
  (p : float * MemoryEntry) : Prop :=
  exists (j : nat) (distance : float),
    ids !! j = Some (id (snd p))
    /\ row_distance res j = Ok distance
    /\ fst p = similarity_of distance
    /\ PrimFloat.ltb (fst p) (similarity_threshold settings) = false.

Lemma entry_of_row_fields (memory_id : str) (md : gmap str PyValue)
  (doc : str) (e : MemoryEntry) :
  entry_of_row memory_id md doc = Ok e ->
  id e = memory_id /\ content e = doc /\ metadata e = md.
Proof.
  unfold entry_of_row. intros He.
  destruct (getitem md k_date) as [v1|]; simpl in He; [|discriminate].
  destruct (parse_date v1) as [v2|]; simpl in He; [|discriminate].
  destruct (getitem md k_source_document_id) as [v3|]; simpl in He;
    [|discriminate].
  destruct (getitem md k_chunk_index) as [v4|]; simpl in He; [|discriminate].
  destruct (validate_opt_str (or_None (md !! k_customer))) as [v5|];
    simpl in He; [|discriminate].
  destruct (validate_opt_str (or_None (md !! k_project))) as [v6|];
    simpl in He; [|discriminate].
  destruct (validate_str v3) as [v7|]; simpl in He; [|discriminate].
  destruct (validate_int v4) as [v8|]; simpl in He; [|discriminate].
  destruct (validate_float _) as [v9|]; simpl in He; [|discriminate].
  injection He as <-. auto.
Qed.

Lemma search_rows_kept (res : QueryResult) (ids0 : list str) :
  forall (ids : list str) (i : nat) (scored : list (float * MemoryEntry)),
    (forall k x, ids !! k = Some x -> ids0 !! (i + k)%nat = Some x) ->
    search_rows settings res i ids = Ok scored ->
    Forall (kept_row res ids0) scored
    /\ (length scored <= length ids)%nat.
Proof.
  induction ids as [|memory_id rest IH]; intros i scored Hids Hrun.
  - injection Hrun as <-. split; [constructor|reflexivity].
  - cbn [search_rows] in Hrun.
    assert (forall k x, rest !! k = Some x -> ids0 !! (S i + k)%nat = Some x)
      as Hrest.
    { intros k x Hk. replace (S i + k)%nat with (i + S k)%nat by lia.
      apply Hids. exact Hk. }
    destruct (first_at (res_metadatas res) i) as [md|]; simpl in Hrun;
      [|discriminate].
    destruct (first_at (res_documents res) i) as [doc|]; simpl in Hrun;
      [|discriminate].
    destruct (row_distance res i) as [distance|] eqn:Hd; simpl in Hrun;
      [|discriminate].
    destruct (PrimFloat.ltb (similarity_of distance)
                (similarity_threshold settings)) eqn:Hlt.
    + destruct (IH (S i) scored Hrest Hrun) as [Hall Hlen].
      split; [exact Hall|]. simpl. lia.
    + destruct (entry_of_row memory_id md doc) as [e|] eqn:He;
        simpl in Hrun; [|discriminate].
      destruct (search_rows settings res (S i) rest) as [more|] eqn:Hmore;
        simpl in Hrun; [|discriminate].
      injection Hrun as <-.
      destruct (IH (S i) more Hrest Hmore) as [Hall Hlen].
      split; [|simpl; lia]. constructor; [|exact Hall].
      exists i, distance. simpl.
      destruct (entry_of_row_fields _ _ _ _ He) as (-> & _ & _).
      split; [|auto]. rewrite <- (Nat.add_0_r i). apply Hids. reflexivity.
Qed.

(** The part of C1 that holds of every run of [search]. *)
Lemma search_above_threshold (st : Store) (query : str)
  (filters : option (gmap str PyValue)) (top_k : Z)
  (entries : list MemoryEntry) :
  search settings encode collection_query st query filters top_k
  = Ok entries ->
  exists (results : QueryResult) (scored : list (float * MemoryEntry)),
    collection_query (collection st) (encode query) top_k
      (if decide (where_clause_of filters = ∅) then None
       else Some (where_clause_of filters)) = Ok results
    /\ search_scored settings encode collection_query st query filters top_k
       = Ok scored
    /\ entries = List.map snd scored
    /\ Forall (kept_row results (default [] (head (res_ids results)))) scored
    /\ (length entries <= length (default [] (head (res_ids results))))%nat.
Proof.
  unfold search. intros Hrun.
  destruct (search_scored settings encode collection_query st query filters
              top_k) as [scored|] eqn:Hs; [|discriminate].
  injection Hrun as <-. unfold search_scored in Hs.
  destruct (collection_query _ _ _ _) as [results|]; [|discriminate].
  exists results, scored. cbn [mbind result_bind] in Hs.
  split; [reflexivity|].
  split; [reflexivity|]. split; [reflexivity|]. rewrite length_map.
  destruct (res_ids results) as [|[|memory_id ids0] others]; cbn [head default].
  - injection Hs as <-. split; [constructor|reflexivity].
  - injection Hs as <-. split; [constructor|reflexivity].
  - apply (search_rows_kept results (memory_id :: ids0)
             (memory_id :: ids0) 0 scored); auto.
Qed.

(** How a label comes back: the empty string is the stored sign of "no
    label" and reads back as [None]. *)
Definition label_read_back (o : option str) : option str :=
  match o with
  | Some (c :: t) => Some (c :: t)
  | _ => None
  end.

(** C6, as the spec words it. *)
Definition round_trip_claim (e e' : MemoryEntry) : Prop :=
  content e' = content e /\ customer e' = customer e
  /\ project e' = project e /\ same_instant (date e) (date e').

Lemma entry_metadata_reserved (e : MemoryEntry) :
  (forall k, k ∈ reserved_keys -> metadata e !! k = None) ->
  entry_metadata e !! k_customer = Some (PStr (or_empty (customer e)))
  /\ entry_metadata e !! k_project = Some (PStr (or_empty (project e)))
  /\ entry_metadata e !! k_date = Some (PStr (isoformat (date e)))
  /\ entry_metadata e !! k_source_document_id
     = Some (PStr (source_document_id e))
  /\ entry_metadata e !! k_chunk_index = Some (PInt (chunk_index e))
  /\ entry_metadata e !! k_importance_score
     = Some (PFloat (importance_score e)).
Proof.
  intros Hfree. unfold entry_metadata.
  repeat split;
    (rewrite lookup_union_r
       by (apply Hfree; unfold reserved_keys;
           repeat (first [apply list_elem_of_here | apply list_elem_of_further])));
    repeat (rewrite lookup_insert_ne by key_ne);
    apply lookup_insert_eq.
Qed.

Lemma label_stored_read_back (o : option str) :
  validate_opt_str (or_None (Some (PStr (or_empty o))))
  = Ok (label_read_back o).
Proof. destruct o as [[|c t]|]; reflexivity. Qed.

(** C6 (amended): when [add_memory_entry] returns an id that was not in
    the collection, and the entry's own metadata map does not use the keys
    the store writes, [get_memory_entry] of that id returns an entry with
    the same content, the same customer and project labels except that an
    empty label comes back as [None], and a date that is the same
    instant. *)
Theorem add_then_get_memory_entry
  (e : MemoryEntry) (st st' : Store) (memory_id : str) :
  add_memory_entry encode uuid4 e st = (Ok memory_id, st') ->
  collection st !! memory_id = None ->
  (forall k, k ∈ reserved_keys -> metadata e !! k = None) ->
  exists e',
    get_memory_entry memory_id st' = Ok (Some e')
    /\ id e' = memory_id
    /\ content e' = content e
    /\ customer e' = label_read_back (customer e)
    /\ project e' = label_read_back (project e)
    /\ same_instant (date e) (date e').
Proof.
  intros Hadd Hfresh Hfree. unfold add_memory_entry, collection_add in Hadd.
  cbn [collection row_metadata] in Hadd.
  destruct (decide (map_Forall _ (entry_metadata e))); [|discriminate].
  destruct (collection st !! uuid4 (store_uuids st)) eqn:Hid.
  { injection Hadd as <- <-. simpl in Hfresh. congruence. }
  injection Hadd as <- <-. unfold get_memory_entry. cbn [collection].
  rewrite lookup_insert_eq. cbn [row_metadata row_document].
  destruct (entry_metadata_reserved e Hfree)
    as (Hc & Hp & Hd & Hs & Hi & Hsc).
  destruct (fromisoformat_isoformat (date e)) as (d' & Hparse & Hsame).
  unfold entry_of_row, getitem. rewrite Hc, Hp, Hd, Hs, Hi, Hsc.
  cbn [mbind result_bind parse_date]. rewrite Hparse.
  rewrite !label_stored_read_back.
  cbn [mbind result_bind validate_str validate_int validate_float default].
  eexists. split; [reflexivity|]. cbn. auto.
Qed.

(** [delete_memory_entry] answers [True] whatever the collection holds,
    and leaves a collection without the id as it was. *)
Lemma delete_memory_entry_always_True (memory_id : str) (st : Store) :
  fst (delete_memory_entry memory_id st) = Ok true.
Proof. reflexivity. Qed.

Lemma delete_memory_entry_absent (memory_id : str) (st : Store) :
  collection st !! memory_id = None ->
  delete_memory_entry memory_id st = (Ok true, st).
Proof.
  intros Hnone. unfold delete_memory_entry.
  rewrite delete_id by exact Hnone. now destruct st.
Qed.

End VectorStoreFacts.

(** ** The RAG engine *)

Section RAGEngineFacts.
Context `{PyDateTime} `{Pydantic}.
Import RAGEngine.

Variable utcnow : nat -> datetime.
Variable uuid4 : nat -> str.
Variable vector_store_search :
  str -> option (gmap str PyValue) -> Z -> result (list VectorStore.MemoryEntry).
Variable llm_generate : str -> str -> str -> result LLMResponse.
Variable llm_generate_stream : str -> str -> str -> list str * option exn.

(** The clock does not run backwards from one reading to a later one. *)
Definition clock_monotone : Prop :=
  forall i j : nat, (i <= j)%nat -> dt_le (utcnow i) (utcnow j).

(** What holds of the table in every state the engine reaches: a
    conversation is stored under its own id, it was not updated before it
    was created, and its [updated_at] is a reading the clock has given. *)
Definition engine_wf (st : Engine) : Prop :=
  forall (k : str) (c : Conversation),
    conversations st !! k = Some c ->
    conv_id c = k
    /\ dt_le (created_at c) (updated_at c)
    /\ exists i : nat, (i < clock_reads st)%nat /\ updated_at c = utcnow i.

(** The call resolves to a conversation made for it: no id was given, or
    the id given is not in the table. *)
Definition resolves_fresh (cid_arg : option str) (st : Engine) : Prop :=
  match cid_arg with
  | Some (c :: t) => conversations st !! (c :: t) = None
  | _ => True
  end.

Definition empty_engine : Engine :=
  {| conversations := ∅; clock_reads := 0; uuid_draws := 0 |}.

Lemma engine_wf_empty : engine_wf empty_engine.
Proof. intros k c Hk. simpl in Hk. rewrite lookup_empty in Hk. discriminate. Qed.

Lemma engine_wf_later (st : Engine) (n u : nat) :
  engine_wf st -> (clock_reads st <= n)%nat ->
  engine_wf {| conversations := conversations st; clock_reads := n;
               uuid_draws := u |}.
Proof.
  intros Hwf Hn k c Hk. destruct (Hwf k c Hk) as (Hid & Hle & i & Hi & Hu).
  split; [exact Hid|]. split; [exact Hle|]. exists i. simpl. split; [lia|auto].
Qed.

Lemma create_conversation_spec (st : Engine) (conv : Conversation)
  (st' : Engine) :
  create_conversation utcnow uuid4 None None None st = (conv, st') ->
  conv_id conv = uuid4 (uuid_draws st)
  /\ messages conv = []
  /\ created_at conv = utcnow (S (clock_reads st))
  /\ updated_at conv = utcnow (S (S (clock_reads st)))
  /\ conversations st' = <[conv_id conv := conv]> (conversations st)
  /\ clock_reads st' = S (S (S (clock_reads st)))
  /\ uuid_draws st' = S (uuid_draws st).
Proof.
  unfold create_conversation. intros Hc. injection Hc as <- <-.
  simpl. repeat split.
Qed.

(** Resolving the conversation: either the one the table holds under the
    id given, with the engine untouched, or a new one with no messages,
    stored under a drawn id. *)
Lemma get_or_create_spec (cid_arg : option str) (st : Engine)
  (key : str) (conv : Conversation) (st1 : Engine) :
  _get_or_create_conversation utcnow uuid4 cid_arg st = ((key, conv), st1) ->
  (cid_arg = Some key /\ conversations st !! key = Some conv /\ st1 = st
   /\ ~ resolves_fresh cid_arg st)
  \/ (resolves_fresh cid_arg st
      /\ key = uuid4 (uuid_draws st) /\ conv_id conv = key
      /\ messages conv = []
      /\ created_at conv = utcnow (S (clock_reads st))
      /\ updated_at conv = utcnow (S (S (clock_reads st)))
      /\ conversations st1 = <[key := conv]> (conversations st)
      /\ clock_reads st1 = S (S (S (clock_reads st)))
      /\ uuid_draws st1 = S (uuid_draws st)).
Proof.
  unfold _get_or_create_conversation. intros Hres.
  assert (forall kk cc ss,
            (let '(c0, s0) := create_conversation utcnow uuid4 None None None st
             in ((conv_id c0, c0), s0)) = ((kk, cc), ss) ->
            kk = uuid4 (uuid_draws st) /\ conv_id cc = kk /\ messages cc = []
            /\ created_at cc = utcnow (S (clock_reads st))
            /\ updated_at cc = utcnow (S (S (clock_reads st)))
            /\ conversations ss = <[kk := cc]> (conversations st)
            /\ clock_reads ss = S (S (S (clock_reads st)))
            /\ uuid_draws ss = S (uuid_draws st)) as Hnew.
  { intros kk cc ss Hc.
    destruct (create_conversation utcnow uuid4 None None None st)
      as [c0 s0] eqn:Hcreate.
    injection Hc as <- <- <-.
    destruct (create_conversation_spec _ _ _ Hcreate)
      as (Hid & Hm & Hca & Hua & Ht & Hcl & Huu).
    rewrite <- Hid. repeat split; auto. }
  destruct cid_arg as [[|c t]|].
  - right. split; [exact I|]. apply Hnew. exact Hres.
  - destruct (conversations st !! (c :: t)) as [found|] eqn:Hfound.
    + left. injection Hres as <- <- <-. repeat split; auto.
      simpl. congruence.
    + right. split; [exact Hfound|]. apply Hnew. exact Hres.
  - right. split; [exact I|]. apply Hnew. exact Hres.
Qed.

Lemma get_or_create_stored (cid_arg : option str) (st : Engine)
  (key : str) (conv : Conversation) (st1 : Engine) :
  _get_or_create_conversation utcnow uuid4 cid_arg st = ((key, conv), st1) ->
  conversations st1 !! key = Some conv
  /\ (clock_reads st <= clock_reads st1)%nat.
Proof.
  intros Hres. destruct (get_or_create_spec _ _ _ _ _ Hres)
    as [(_ & Hk & -> & _)|(_ & _ & _ & _ & _ & _ & Ht & Hc & _)].
  - split; [exact Hk|lia].
  - rewrite Ht, Hc. split; [apply lookup_insert_eq|lia].
Qed.

Lemma get_or_create_wf (cid_arg : option str) (st : Engine)
  (key : str) (conv : Conversation) (st1 : Engine) :
  clock_monotone -> engine_wf st ->
  _get_or_create_conversation utcnow uuid4 cid_arg st = ((key, conv), st1) ->
  engine_wf st1.
Proof.
  intros Hmono Hwf Hres. destruct (get_or_create_spec _ _ _ _ _ Hres)
    as [(_ & _ & -> & _)|(_ & Hkey & Hid & _ & Hca & Hua & Ht & Hc & _)];
    [exact Hwf|].
  intros k c Hk. rewrite Ht in Hk. rewrite Hc.
  destruct (decide (key = k)) as [<-|Hne].
  - rewrite lookup_insert_eq in Hk. injection Hk as <-.
    split; [exact Hid|]. split.
    + rewrite Hca, Hua. apply Hmono. lia.
    + exists (S (S (clock_reads st))). split; [lia|exact Hua].
  - rewrite lookup_insert_ne in Hk by exact Hne.
    destruct (Hwf k c Hk) as (Hi & Hle & i & Hlt & Hu).
    split; [exact Hi|]. split; [exact Hle|]. exists i. split; [lia|exact Hu].
Qed.

Lemma new_AgentResponse_spec (a t k : PyValue) (srcs : list VectorStore.MemoryEntry)
  (cid : str) (st : Engine) (resp : AgentResponse) (st2 : Engine) :
  new_AgentResponse utcnow a t k srcs cid st = (Ok resp, st2) ->
  resp_conversation_id resp = cid /\ sources resp = srcs
  /\ validate_str a = Ok (answer resp)
  /\ conversations st2 = conversations st
  /\ clock_reads st2 = S (clock_reads st)
  /\ uuid_draws st2 = uuid_draws st.
Proof.
  unfold new_AgentResponse. intros Hn. injection Hn as Hr <-.
  destruct (validate_str a) as [a'|]; [|discriminate].
  destruct (validate_int t) as [t'|]; [|discriminate].
  destruct (validate_opt_int k) as [k'|]; [|discriminate].
  cbn [mbind result_bind] in Hr. injection Hr as <-. simpl. repeat split.
Qed.

(** C4 (amended): when [query] returns a response, the conversation it
    resolved has, in the table, the messages it had when it was resolved
    followed by exactly two more: the question in the role user, then the
    answer in the role assistant; its [created_at] is as before and its
    [updated_at] is a reading of the clock made during the call.  This
    holds on every clock.  On a clock that does not run backwards, and in
    a state of the engine where the table invariant holds, that
    [updated_at] is not earlier than before the call nor than
    [created_at], and the invariant holds again afterwards. *)
Theorem query_appends_one_turn
  (q : Query) (st st' : Engine) (resp : AgentResponse) :
  query utcnow uuid4 vector_store_search llm_generate q st = (Ok resp, st') ->
  exists (key : str) (conv : Conversation) (st1 : Engine)
         (conv' : Conversation) (m_user m_assistant : Message) (n : nat),
    _get_or_create_conversation utcnow uuid4 (conversation_id q) (tick 1 st)
    = ((key, conv), st1)
    /\ resp_conversation_id resp = conv_id conv
    /\ conversations st' !! key = Some conv'
    /\ messages conv' = messages conv ++ [m_user; m_assistant]
    /\ length (messages conv') = (length (messages conv) + 2)%nat
    /\ role m_user = lit "user" /\ msg_content m_user = question q
    /\ role m_assistant = lit "assistant"
    /\ msg_content m_assistant = answer resp
    /\ created_at conv' = created_at conv
    /\ updated_at conv' = utcnow n
    /\ (clock_reads st < n < clock_reads st')%nat
    /\ (clock_monotone -> engine_wf st ->
        resp_conversation_id resp = key
        /\ dt_le (updated_at conv) (updated_at conv')
        /\ dt_le (created_at conv') (updated_at conv')
        /\ engine_wf st').
Proof.
  intros Hrun. unfold query in Hrun.
  destruct (_get_or_create_conversation utcnow uuid4 (conversation_id q)
              (tick 1 st)) as [[key conv] st1] eqn:Hres.
  destruct (vector_store_search _ _ _) as [entries|]; [|discriminate].
  destruct (llm_generate _ _ _) as [llm|]; [|discriminate].
  destruct (new_AgentResponse _ _ _ _ _ _ _) as [[resp0|] st2] eqn:Hresp;
    [|discriminate].
  injection Hrun as -> <-.
  destruct (new_AgentResponse_spec _ _ _ _ _ _ _ _ Hresp)
    as (Hcid & _ & _ & Ht2 & Hc2 & _).
  destruct (get_or_create_stored _ _ _ _ _ Hres) as [Hstored Hreads].
  cbn [tick clock_reads] in Hreads.
  eexists key, conv, st1, _, _, _, (S (S (clock_reads st2))).
  split; [reflexivity|]. split; [exact Hcid|].
  split; [apply lookup_insert_eq|]. split; [reflexivity|].
  split; [cbn; rewrite length_app; reflexivity|].
  do 6 (split; [reflexivity|]).
  split; [cbn; lia|].
  intros Hmono Hwf.
  assert (engine_wf (tick 1 st)) as Hwf0.
  { apply engine_wf_later; [exact Hwf|lia]. }
  pose proof (get_or_create_wf _ _ _ _ _ Hmono Hwf0 Hres) as Hwf1.
  destruct (Hwf1 key conv Hstored) as (Hid & Hle & i & Hi & Hu).
  split; [congruence|].
  assert (dt_le (updated_at conv) (utcnow (S (S (clock_reads st2))))) as Hup.
  { rewrite Hu. apply Hmono. lia. }
  split; [exact Hup|]. split; [cbn; etransitivity; eassumption|].
  intros k c Hk. cbn in Hk.
  destruct (decide (key = k)) as [<-|Hne].
  - rewrite lookup_insert_eq in Hk. injection Hk as <-. cbn.
    split; [exact Hid|]. split; [etransitivity; eassumption|].
    exists (S (S (clock_reads st2))). split; [lia|reflexivity].
  - rewrite lookup_insert_ne in Hk by exact Hne. rewrite Ht2 in Hk.
    destruct (Hwf1 k c Hk) as (Hi' & Hle' & j & Hj & Hu').
    split; [exact Hi'|]. split; [exact Hle'|]. exists j. cbn.
    split; [lia|exact Hu'].
Qed.

(** C9: when the call resolves to a conversation made for it, and the
    search or the generation then raises, [query] raises that exception
    and the engine keeps the new conversation, with no messages, in the
    table. *)
Theorem query_failure_keeps_new_conversation
  (q : Query) (st : Engine) (e : exn) :
  resolves_fresh (conversation_id q) st ->
  (vector_store_search (question q) (filters q) (max_results q) = Err e
   \/ exists entries,
        vector_store_search (question q) (filters q) (max_results q)
        = Ok entries
        /\ llm_generate (question q) (_build_context entries)
             _get_system_prompt = Err e) ->
  exists (st' : Engine) (conv : Conversation),
    query utcnow uuid4 vector_store_search llm_generate q st = (Err e, st')
    /\ conversations st'
       = <[uuid4 (uuid_draws st) := conv]> (conversations st)
    /\ conversations st' !! uuid4 (uuid_draws st) = Some conv
    /\ conv_id conv = uuid4 (uuid_draws st)
    /\ messages conv = [].
Proof.
  intros Hfresh Hfail. unfold query.
  destruct (_get_or_create_conversation utcnow uuid4 (conversation_id q)
              (tick 1 st)) as [[key conv] st1] eqn:Hres.
  destruct (get_or_create_spec _ _ _ _ _ Hres)
    as [(_ & _ & _ & Hnot)|(_ & Hkey & Hid & Hm & _ & _ & Ht & _ & _)].
  { elim Hnot. exact Hfresh. }
  cbn in Hkey, Ht. subst key.
  assert (conversations st1 !! uuid4 (uuid_draws st) = Some conv) as Hin.
  { rewrite Ht. apply lookup_insert_eq. }
  destruct Hfail as [Hs|(entries & Hs & Hg)].
  - rewrite Hs. exists st1, conv. auto.
  - rewrite Hs, Hg. exists st1, conv. auto.
Qed.

Definition is_error_event (ev : StreamEvent) : bool :=
  match ev with ErrorEvent _ _ => true | _ => false end.

Definition is_complete_event (ev : StreamEvent) : bool :=
  match ev with CompleteEvent _ _ => true | _ => false end.

(** [query.conversation_id or str(uuid.uuid4())], in the engine state the
    handler runs in. *)
Definition error_conversation_id (q : Query) (st : Engine) : str :=
  match conversation_id q with
  | Some (c :: t) => c :: t
  | _ => uuid4 (uuid_draws st)
  end.

Lemma filter_chunk_events (p : StreamEvent -> bool) (cid : str)
  (fragments : list str) :
  (forall f, p (ChunkEvent f cid) = false) ->
  List.filter p (List.map (fun f => ChunkEvent f cid) fragments) = [].
Proof.
  intros Hp. induction fragments as [|f fs IH]; [reflexivity|].
  simpl. now rewrite Hp.
Qed.


(** The run of [query_stream] when the stream raises after some
    fragments. *)
Lemma stream_failure_run
  (q : Query) (st : Engine) (key : str) (conv : Conversation) (st1 : Engine)
  (entries : list VectorStore.MemoryEntry) (fragments : list str) (e : exn) :
  _get_or_create_conversation utcnow uuid4 (conversation_id q) st
  = ((key, conv), st1) ->
  vector_store_search (question q) (filters q) (max_results q) = Ok entries ->
  llm_generate_stream (question q) (_build_context entries) _get_system_prompt
  = (fragments, Some e) ->
  let run := query_stream utcnow uuid4 vector_store_search
               llm_generate_stream q st in
  events run
  = List.map (fun f => ChunkEvent f (conv_id conv)) fragments
    ++ [ErrorEvent (exn_message e) (error_conversation_id q st1)]
  /\ escaped run = None
  /\ conversations (engine_after run) = conversations st1.
Proof.
  intros Hres Hs Hg run.
  unfold run, query_stream, stream_body. rewrite Hres, Hs, Hg.
  unfold stream_handler, error_conversation_id.
  destruct (conversation_id q) as [[|c t]|]; repeat split.
Qed.

(** C5: the error event does not carry the id of the conversation the
    call established.  When the query names no conversation of the table,
    [query_stream] makes one and tags every chunk event with its id; when
    the stream then raises, the one error event carries
    [query.conversation_id or str(uuid.uuid4())] instead: the id the
    query gave, or an id drawn for the event.  With ids that do not
    repeat, that id is not the id of the conversation, which the table
    still holds, and it names no conversation of the table. *)
Theorem query_stream_error_id_names_no_conversation
  (q : Query) (st : Engine) (key : str) (conv : Conversation) (st1 : Engine)
  (entries : list VectorStore.MemoryEntry) (fragments : list str) (e : exn) :
  _get_or_create_conversation utcnow uuid4 (conversation_id q) st
  = ((key, conv), st1) ->
  vector_store_search (question q) (filters q) (max_results q) = Ok entries ->
  llm_generate_stream (question q) (_build_context entries) _get_system_prompt
  = (fragments, Some e) ->
  resolves_fresh (conversation_id q) st ->
  error_conversation_id q st1 <> uuid4 (uuid_draws st) ->
  conversations st !! error_conversation_id q st1 = None ->
  let run := query_stream utcnow uuid4 vector_store_search
               llm_generate_stream q st in
  events run
  = List.map (fun f => ChunkEvent f (conv_id conv)) fragments
    ++ [ErrorEvent (exn_message e) (error_conversation_id q st1)]
  /\ length (List.filter is_error_event (events run)) = 1%nat
  /\ List.filter is_complete_event (events run) = []
  /\ escaped run = None
  /\ conv_id conv = uuid4 (uuid_draws st)
  /\ conversations (engine_after run) !! conv_id conv = Some conv
  /\ messages conv = []
  /\ error_conversation_id q st1 <> conv_id conv
  /\ conversations (engine_after run) !! error_conversation_id q st1 = None
  /\ (conversation_id q = None ->
      error_conversation_id q st1 = uuid4 (S (uuid_draws st))).
Proof.
  intros Hres Hs Hg Hfresh Hne Hunused run.
  destruct (stream_failure_run q st key conv st1 entries fragments e
              Hres Hs Hg) as (Hev & Hesc & Htab).
  fold run in Hev, Hesc, Htab.
  destruct (get_or_create_spec _ _ _ _ _ Hres)
    as [(_ & _ & _ & Hnot)|(_ & Hkey & Hid & Hm & _ & _ & Ht & _ & Hdraws)].
  { elim Hnot. exact Hfresh. }
  subst key. rewrite Hev, Hesc, Htab, Ht.
  split; [reflexivity|].
  split; [rewrite List.filter_app, filter_chunk_events by reflexivity;
          reflexivity|].
  split; [rewrite List.filter_app, filter_chunk_events by reflexivity;
          reflexivity|].
  split; [reflexivity|]. split; [exact Hid|].
  split; [rewrite Hid; apply lookup_insert_eq|].
  split; [exact Hm|]. split; [rewrite Hid; exact Hne|].
  split; [rewrite lookup_insert_ne by (intros E; apply Hne; now rewrite E);
          exact Hunused|].
  intros Hnone. unfold error_conversation_id. rewrite Hnone, Hdraws.
  reflexivity.
Qed.

(** [query_stream] never lets an exception escape. *)
Lemma query_stream_never_raises (q : Query) (st : Engine) :
  escaped (query_stream utcnow uuid4 vector_store_search llm_generate_stream
             q st) = None.
Proof.
  unfold query_stream.
  destruct (stream_body _ _ _ _ _ _) as [[evs [e|]] st'];
    [destruct (stream_handler uuid4 q e st')|]; reflexivity.
Qed.

(** [delete_conversation] on an id the table does not hold answers
    [False] and changes nothing; after a delete the id is such an id. *)
Lemma delete_conversation_absent (cid : str) (st : Engine) :
  conversations st !! cid = None ->
  delete_conversation cid st = (false, st).
Proof. intros Hnone. unfold delete_conversation. now rewrite Hnone. Qed.

Lemma delete_conversation_twice (cid : str) (st : Engine) :
  let st' := snd (delete_conversation cid st) in
  delete_conversation cid st' = (false, st').
Proof.
  intros st'. apply delete_conversation_absent. unfold st', delete_conversation.
  destruct (conversations st !! cid) eqn:Hc; simpl; [|exact Hc].
  apply lookup_delete_eq.
Qed.

End RAGEngineFacts.

(** ** Deleting what is not there *)

Section DeleteFacts.
Context `{PyDateTime} `{Pydantic}.

(** C7, as the spec words it for the store: deleting an id that is not
    there gives the not-found outcome, the [False] that the route turns
    into a 404. *)
Definition delete_reports_not_found (memory_id : str)
  (st : VectorStore.Store) : Prop :=
  VectorStore.collection st !! memory_id = None ->
  fst (VectorStore.delete_memory_entry memory_id st) = Ok false.

(** C7 (amended): for an id that is not there, neither delete raises and
    neither changes anything; [delete_conversation] answers [False], the
    not-found outcome, while [delete_memory_entry] answers [True] as it
    does for every id: the store has no not-found outcome.  After a
    delete the id is not there, so a second delete is a delete of an id
    that is not there, in the store and in the table alike. *)
Theorem delete_of_absent_id
  (memory_id : str) (st : VectorStore.Store)
  (cid : str) (eng : RAGEngine.Engine) :
  VectorStore.collection st !! memory_id = None ->
  RAGEngine.conversations eng !! cid = None ->
  VectorStore.delete_memory_entry memory_id st = (Ok true, st)
  /\ RAGEngine.delete_conversation cid eng = (false, eng)
  /\ (forall st0 : VectorStore.Store,
        let st' := snd (VectorStore.delete_memory_entry memory_id st0) in
        fst (VectorStore.delete_memory_entry memory_id st0) = Ok true
        /\ VectorStore.collection st' !! memory_id = None
        /\ VectorStore.delete_memory_entry memory_id st' = (Ok true, st'))
  /\ (forall eng0 : RAGEngine.Engine,
        let eng' := snd (RAGEngine.delete_conversation cid eng0) in
        RAGEngine.conversations eng' !! cid = None
        /\ RAGEngine.delete_conversation cid eng' = (false, eng')).
Proof.
  intros Hnone Hcid.
  split; [now apply delete_memory_entry_absent|].
  split; [now apply delete_conversation_absent|].
  split.
  - intros st0 st'. split; [reflexivity|].
    assert (VectorStore.collection st' !! memory_id = None) as Hgone
      by apply lookup_delete_eq.
    split; [exact Hgone|now apply delete_memory_entry_absent].
  - intros eng0 eng'.
    assert (RAGEngine.conversations eng' !! cid = None) as Hgone.
    { unfold eng', RAGEngine.delete_conversation.
      destruct (RAGEngine.conversations eng0 !! cid) eqn:Hc; simpl;
        [apply lookup_delete_eq|exact Hc]. }
    split; [exact Hgone|now apply delete_conversation_absent].
Qed.

End DeleteFacts.

(** ** The claims on the vector store, and runs of the model *)

Section Runs.
#[local] Existing Instance naive_datetime.
#[local] Existing Instance strict_pydantic.
#[local] Existing Instance AsciiText.libs.

(** C1: every entry [search] returns was built from a row the store
    reported, and the similarity computed for that row, 1 minus its
    distance, is not below the threshold; the entries are no more than the
    rows reported.  Rows below the threshold are dropped: a store that is
    not empty can answer a search for five neighbours with no entry. *)
Theorem search_respects_threshold :
  (forall (D : PyDateTime) (P : Pydantic) (settings : Settings)
          (encode : str -> list float)
          (collection_query :
             gmap str VectorStore.Row -> list float -> Z
             -> option (gmap str PyValue) -> result VectorStore.QueryResult)
          (st : VectorStore.Store) (query : str)
          (filters : option (gmap str PyValue)) (top_k : Z)
          (entries : list VectorStore.MemoryEntry),
     VectorStore.search settings encode collection_query st query filters
       top_k = Ok entries ->
     exists (results : VectorStore.QueryResult)
            (scored : list (float * VectorStore.MemoryEntry)),
       collection_query (VectorStore.collection st) (encode query) top_k
         (if decide (VectorStore.where_clause_of filters = ∅) then None
          else Some (VectorStore.where_clause_of filters)) = Ok results
       /\ VectorStore.search_scored settings encode collection_query st
            query filters top_k = Ok scored
       /\ entries = List.map snd scored
       /\ Forall (kept_row settings results
                    (default [] (head (VectorStore.res_ids results)))) scored
       /\ (length entries
           <= length (default [] (head (VectorStore.res_ids results))))%nat)
  /\ (VectorStore.collection Fixture.store <> ∅
      /\ VectorStore.search default_settings Fixture.encode
           (Fixture.answers Fixture.only_far) Fixture.store (lit "assay")
           None 5 = Ok []).
Proof.
  split.
  - intros D P settings encode collection_query st query filters top_k
      entries Hrun.
    exact (search_above_threshold settings encode collection_query st query
             filters top_k entries Hrun).
  - split.
    + intros E. apply (f_equal (fun m => m !! lit "near")) in E.
      unfold Fixture.store in E. cbn [VectorStore.collection] in E.
      rewrite lookup_insert_eq, lookup_empty in E. discriminate.
    + reflexivity.
Qed.

Lemma search_respects_threshold_witness :
  exists entries,
    VectorStore.search default_settings Fixture.encode
      (Fixture.answers Fixture.near_and_far) Fixture.store (lit "assay")
      None 5 = Ok entries
    /\ List.map VectorStore.id entries = [lit "near"]
    /\ exists results scored,
         VectorStore.search_scored default_settings Fixture.encode
           (Fixture.answers Fixture.near_and_far) Fixture.store (lit "assay")
           None 5 = Ok scored
         /\ entries = List.map snd scored
         /\ Forall (kept_row default_settings results
                      (default [] (head (VectorStore.res_ids results))))
              scored.
Proof.
  eexists. split; [reflexivity|]. split; [reflexivity|].
  destruct (proj1 search_respects_threshold naive_datetime strict_pydantic
              default_settings Fixture.encode
              (Fixture.answers Fixture.near_and_far) Fixture.store
              (lit "assay") None 5 _ eq_refl)
    as (results & scored & _ & Hs & He & Hk & _).
  exists results, scored. auto.
Defined.

(** A run of C6 (amended): the note with an empty customer label comes
    back with its content, its project, its date, and no customer. *)
Lemma add_then_get_memory_entry_witness :
  exists memory_id st' e',
    VectorStore.add_memory_entry Fixture.encode numbered_uuid Fixture.note
      Fixture.empty_store = (Ok memory_id, st')
    /\ VectorStore.collection Fixture.empty_store !! memory_id = None
    /\ VectorStore.get_memory_entry memory_id st' = Ok (Some e')
    /\ VectorStore.content e' = lit "buffer at pH 7"
    /\ VectorStore.customer e' = None
    /\ VectorStore.project e' = Some (lit "alpha")
    /\ same_instant noon (VectorStore.date e').
Proof.
  destruct (add_then_get_memory_entry Fixture.encode numbered_uuid
              Fixture.note Fixture.empty_store _ _ eq_refl)
    as (e' & Hget & _ & Hc & Hcu & Hp & Hd).
  - apply lookup_empty.
  - intros k _. apply lookup_empty.
  - eexists _, _, e'. split; [reflexivity|]. split; [apply lookup_empty|].
    split; [exact Hget|]. auto.
Defined.

(** C6 as stated fails: an empty customer label is stored as the empty
    string, which reads back as no label. *)
Lemma add_then_get_loses_empty_label :
  exists memory_id st' e',
    VectorStore.add_memory_entry Fixture.encode numbered_uuid Fixture.note
      Fixture.empty_store = (Ok memory_id, st')
    /\ VectorStore.get_memory_entry memory_id st' = Ok (Some e')
    /\ ~ round_trip_claim Fixture.note e'.
Proof.
  eexists _, _, _. split; [reflexivity|]. split; [reflexivity|].
  intros (_ & Hc & _). discriminate Hc.
Qed.

Lemma delete_of_absent_id_witness :
  VectorStore.delete_memory_entry (lit "missing") Fixture.store
  = (Ok true, Fixture.store)
  /\ RAGEngine.delete_conversation (lit "missing") empty_engine
     = (false, empty_engine)
  /\ VectorStore.delete_memory_entry (lit "near")
       (snd (VectorStore.delete_memory_entry (lit "near") Fixture.store))
     = (Ok true,
        snd (VectorStore.delete_memory_entry (lit "near") Fixture.store)).
Proof.
  destruct (delete_of_absent_id (lit "missing") Fixture.store (lit "missing")
              empty_engine) as (Hstore & Htable & _ & _);
    [reflexivity|apply lookup_empty|].
  destruct (delete_of_absent_id (lit "near") Fixture.empty_store
              (lit "missing") empty_engine) as (_ & _ & Hagain & _);
    [apply lookup_empty|apply lookup_empty|].
  split; [exact Hstore|]. split; [exact Htable|].
  exact (proj2 (proj2 (Hagain Fixture.store))).
Defined.

(** C7 as stated fails for the store: at an id it does not hold,
    [delete_memory_entry] answers [True], not a not-found outcome;
    [delete_conversation] answers [False] there. *)
Lemma delete_of_missing_id :
  VectorStore.collection Fixture.empty_store !! lit "missing" = None
  /\ VectorStore.delete_memory_entry (lit "missing") Fixture.empty_store
     = (Ok true, Fixture.empty_store)
  /\ ~ delete_reports_not_found (lit "missing") Fixture.empty_store
  /\ RAGEngine.delete_conversation (lit "missing") empty_engine
     = (false, empty_engine).
Proof.
  split; [apply lookup_empty|]. split; [reflexivity|].
  split; [|reflexivity].
  intros Hclaim. specialize (Hclaim (lookup_empty _)). discriminate Hclaim.
Qed.

Lemma process_document_refusals_witness :
  DocumentIngestionService.process_document Fixture.clock numbered_uuid
    (lit "scan.png") [Byte.x89; Byte.x50] None None None Fixture.world0
  = (Err (Raise ValueError
            (lit "No processor available for file type: scan.png")),
     Fixture.world0)
  /\ DocumentIngestionService.process_document Fixture.clock numbered_uuid
       (lit "Notes.TXT") [Byte.x20; Byte.x0a] None None None Fixture.world0
     = (Err (Raise ValueError
               (lit "Document appears to be empty or unreadable")),
        Fixture.world0).
Proof.
  split.
  - destruct (process_document_refusals Fixture.clock numbered_uuid
                (lit "scan.png") [Byte.x89; Byte.x50] None None None
                Fixture.world0) as (Hnone & _).
    apply Hnone. intros proc Hin.
    repeat (apply elem_of_cons in Hin as [->|Hin]; [reflexivity|]).
    inversion Hin.
  - destruct (process_document_refusals Fixture.clock numbered_uuid
                (lit "Notes.TXT") [Byte.x20; Byte.x0a] None None None
                Fixture.world0) as (_ & _ & Hempty & _).
    apply (Hempty DocumentIngestionService.TheTxtProcessor []);
      [reflexivity|reflexivity|].
    intros c Hc. inversion Hc.
Defined.

Lemma query_appends_one_turn_witness :
  exists resp st' conv',
    RAGEngine.query Fixture.clock numbered_uuid Fixture.search_nothing
      Fixture.generate_answer Fixture.question_only empty_engine
    = (Ok resp, st')
    /\ RAGEngine.conversations st' !! RAGEngine.resp_conversation_id resp
       = Some conv'
    /\ List.map RAGEngine.role (RAGEngine.messages conv')
       = [lit "user"; lit "assistant"]
    /\ List.map RAGEngine.msg_content (RAGEngine.messages conv')
       = [lit "What was measured?"; lit "Nothing yet."]
    /\ dt_le (RAGEngine.created_at conv') (RAGEngine.updated_at conv').
Proof.
  assert (exists resp st',
            RAGEngine.query Fixture.clock numbered_uuid
              Fixture.search_nothing Fixture.generate_answer
              Fixture.question_only empty_engine = (Ok resp, st'))
    as (resp & st' & Hrun) by (eexists _, _; reflexivity).
  destruct (query_appends_one_turn Fixture.clock numbered_uuid
              Fixture.search_nothing Fixture.generate_answer
              Fixture.question_only empty_engine st' resp Hrun)
    as (key & conv & st1 & conv' & mu & ma & n & Hres & _ & Hlook & Hmsgs & _
        & Hru & Hcu & Hra & Hca & _ & _ & _ & Hclock).
  destruct (Hclock stepping_clock_le (engine_wf_empty Fixture.clock))
    as (Hk & _ & Hle & _).
  destruct (get_or_create_spec _ _ _ _ _ _ _ Hres)
    as [(Habs & _)|(_ & _ & _ & Hm & _)]; [discriminate Habs|].
  exists resp, st', conv'. split; [exact Hrun|]. rewrite Hk.
  split; [exact Hlook|]. rewrite Hmsgs, Hm. cbn [app List.map].
  rewrite Hru, Hra, Hcu, Hca.
  change (RAGEngine.question Fixture.question_only)
    with (lit "What was measured?").
  assert (RAGEngine.answer resp = lit "Nothing yet.") as ->.
  { assert (exists resp0 st0,
              RAGEngine.query Fixture.clock numbered_uuid
                Fixture.search_nothing Fixture.generate_answer
                Fixture.question_only empty_engine = (Ok resp0, st0)
              /\ RAGEngine.answer resp0 = lit "Nothing yet.")
      as (resp0 & st0 & Hrun0 & Hanswer)
      by (eexists _, _; split; reflexivity).
    rewrite Hrun in Hrun0. injection Hrun0 as <- _. exact Hanswer. }
  auto.
Defined.

(** C4 as stated fails when the clock is set back while the engine runs:
    the query succeeds and appends its two messages, but the
    [updated_at] it writes is earlier than the one before the call and
    earlier than [created_at]. *)
Lemma query_on_clock_set_back :
  let st := snd (RAGEngine.create_conversation Fixture.clock_set_back
                   numbered_uuid None None None empty_engine) in
  exists conv resp st' conv',
    RAGEngine.conversations st !! numbered_uuid 0 = Some conv
    /\ RAGEngine.query Fixture.clock_set_back numbered_uuid
         Fixture.search_nothing Fixture.generate_answer
         MoreFixtures.follow_up st = (Ok resp, st')
    /\ RAGEngine.conversations st' !! numbered_uuid 0 = Some conv'
    /\ length (RAGEngine.messages conv')
       = (length (RAGEngine.messages conv) + 2)%nat
    /\ ~ dt_le (RAGEngine.updated_at conv) (RAGEngine.updated_at conv')
    /\ ~ dt_le (RAGEngine.created_at conv') (RAGEngine.updated_at conv').
Proof.
  intros st. eexists _, _, _, _.
  split; [reflexivity|]. split; [reflexivity|]. split; [reflexivity|].
  split; [reflexivity|].
  split; intros Hle; vm_compute in Hle; apply Hle; reflexivity.
Qed.

Lemma query_failure_keeps_new_conversation_witness :
  exists st' conv,
    RAGEngine.query Fixture.clock numbered_uuid Fixture.search_down
      Fixture.generate_answer Fixture.question_only empty_engine
    = (Err (Raise ConnectionError (lit "store unreachable")), st')
    /\ RAGEngine.conversations st' !! numbered_uuid 0 = Some conv
    /\ RAGEngine.messages conv = [].
Proof.
  destruct (query_failure_keeps_new_conversation Fixture.clock numbered_uuid
              Fixture.search_down Fixture.generate_answer
              Fixture.question_only empty_engine
              (Raise ConnectionError (lit "store unreachable")) I
              (or_introl eq_refl))
    as (st' & conv & Hq & _ & Hl & _ & Hm).
  exists st', conv. auto.
Defined.


(** A run of C5: the chunk events carry [id-0], the id of the
    conversation made for the query; the error event carries [id-1],
    which names nothing. *)
Lemma query_stream_error_id_names_no_conversation_witness :
  let run := RAGEngine.query_stream Fixture.clock numbered_uuid
               Fixture.search_nothing Fixture.stream_breaks
               Fixture.question_only empty_engine in
  RAGEngine.events run
  = [RAGEngine.ChunkEvent (lit "Noth") (numbered_uuid 0);
     RAGEngine.ChunkEvent (lit "ing") (numbered_uuid 0);
     RAGEngine.ErrorEvent (lit "connection lost") (numbered_uuid 1)]
  /\ (exists conv,
        RAGEngine.conversations (RAGEngine.engine_after run)
          !! numbered_uuid 0 = Some conv)
  /\ RAGEngine.conversations (RAGEngine.engine_after run)
       !! numbered_uuid 1 = None.
Proof.
  intros run.
  assert (exists key conv st1,
            RAGEngine._get_or_create_conversation Fixture.clock
              numbered_uuid None empty_engine = ((key, conv), st1)
            /\ RAGEngine.conv_id conv = numbered_uuid 0
            /\ RAGEngine.uuid_draws st1 = 1%nat)
    as (key & conv & st1 & Hres & Hid & Hdraws)
    by (eexists _, _, _; repeat split; reflexivity).
  assert (error_conversation_id numbered_uuid Fixture.question_only st1
          = numbered_uuid 1) as Herr.
  { unfold error_conversation_id. cbn [RAGEngine.conversation_id
      Fixture.question_only]. now rewrite Hdraws. }
  destruct (query_stream_error_id_names_no_conversation Fixture.clock
              numbered_uuid Fixture.search_nothing Fixture.stream_breaks
              Fixture.question_only empty_engine key conv st1 []
              [lit "Noth"; lit "ing"]
              (Raise ConnectionError (lit "connection lost"))
              Hres eq_refl eq_refl I)
    as (Hev & _ & _ & _ & _ & Hlook & _ & _ & Hnone & _).
  - rewrite Herr. key_ne.
  - apply lookup_empty.
  - fold run in Hev, Hlook, Hnone. rewrite Herr in Hev, Hnone.
    rewrite Hid in Hev, Hlook.
    split; [exact Hev|]. split; [exists conv; exact Hlook|exact Hnone].
Defined.

End Runs.

(** * More of the three components *)

(** ** Stripping, once more *)

Lemma lstrip_head (s : str) :
  lstrip s = [] \/ exists c t, lstrip s = c :: t /\ is_space c = false.
Proof.
  induction s as [|x s IH]; [now left|].
  simpl. destruct (is_space x) eqn:Hx; [exact IH|].
  right. exists x, s. auto.
Qed.

Lemma lstrip_snoc (s : str) (c : char) :
  is_space c = false -> lstrip (s ++ [c]) = lstrip s ++ [c].
Proof.
  intros Hc. induction s as [|x s IH]; simpl.
  - now rewrite Hc.
  - destruct (is_space x); [exact IH|reflexivity].
Qed.

Lemma lstrip_idempotent (s : str) : lstrip (lstrip s) = lstrip s.
Proof.
  destruct (lstrip_head s) as [->|(c & t & -> & Hc)]; [reflexivity|].
  simpl. now rewrite Hc.
Qed.

Lemma rstrip_cons (c : char) (t : str) :
  is_space c = false -> rstrip (c :: t) = c :: rstrip t.
Proof.
  intros Hc. unfold rstrip. simpl. rewrite (lstrip_snoc _ _ Hc).
  rewrite rev_app_distr. reflexivity.
Qed.

Lemma rstrip_idempotent (s : str) : rstrip (rstrip s) = rstrip s.
Proof.
  unfold rstrip. rewrite rev_involutive. now rewrite lstrip_idempotent.
Qed.

(** Stripping a stripped string changes nothing. *)
Lemma strip_idempotent (s : str) : strip (strip s) = strip s.
Proof.
  unfold strip.
  destruct (lstrip_head s) as [->|(c & t & -> & Hc)]; [reflexivity|].
  rewrite (rstrip_cons c t Hc). simpl. rewrite Hc.
  rewrite <- (rstrip_cons c t Hc). apply rstrip_idempotent.
Qed.

Lemma length_lstrip (s : str) : (length (lstrip s) <= length s)%nat.
Proof.
  induction s as [|x s IH]; simpl; [lia|].
  destruct (is_space x); simpl; lia.
Qed.

Lemma length_strip (s : str) : (length (strip s) <= length s)%nat.
Proof.
  unfold strip, rstrip. rewrite length_rev.
  etransitivity; [apply length_lstrip|]. rewrite length_rev.
  apply length_lstrip.
Qed.

(** ** The chunker: what every returned chunk looks like *)

Section ChunkShape.
Import VectorStore.
Variable settings : Settings.

Lemma chunk_loop_keeps (P : str -> Prop) (text : str) :
  (forall start, truthy (strip (slice text start
                                  (window_end settings text start))) = true ->
                 P (strip (slice text start (window_end settings text start)))) ->
  forall (fuel : nat) (start : Z) (acc chunks : list str),
    chunk_loop settings fuel text start acc = Some chunks ->
    (forall c, c ∈ acc -> P c) -> forall c, c ∈ chunks -> P c.
Proof.
  intros Hwin. induction fuel as [|fuel IH]; intros start acc chunks Hrun Hacc;
    [discriminate|].
  cbn [chunk_loop] in Hrun.
  destruct (start <? len text); [|injection Hrun as <-; exact Hacc].
  unfold chunk_step in Hrun.
  set (chunk := strip (slice text start (window_end settings text start)))
    in *.
  assert (forall c, c ∈ (if truthy chunk then acc ++ [chunk] else acc) -> P c)
    as Hacc'.
  { intros c Hc. destruct (truthy chunk) eqn:Ht; [|auto].
    apply elem_of_app in Hc as [Hc|Hc]; [auto|].
    apply list_elem_of_singleton in Hc as ->. apply Hwin. exact Ht. }
  destruct (len text <=? window_end settings text start
                         - chunk_overlap settings).
  - injection Hrun as <-. exact Hacc'.
  - exact (IH _ _ _ Hrun Hacc').
Qed.

Lemma window_slice_length (text : str) (start : Z) :
  0 <= chunk_size settings ->
  len (slice text start (window_end settings text start))
  <= chunk_size settings.
Proof.
  intros Hsize. unfold window_end.
  set (size := chunk_size settings) in *.
  assert (forall e, adjust_index (len text) e - adjust_index (len text) start
                    <= size ->
                    len (slice text start e) <= size) as Hslice.
  { intros e He. unfold slice, len in *. rewrite length_take. lia. }
  pose proof (len_nonneg text) as Hn.
  destruct (Z.ltb_spec (start + size) (len text)) as [Hin|Hout].
  - unfold rfind.
    set (a := if Z.max (start + size - 100) start <? 0
              then Z.max (Z.max (start + size - 100) start + len text) 0
              else Z.max (start + size - 100) start).
    set (b := if len text <? start + size then len text
              else if start + size <? 0 then Z.max (start + size + len text) 0
                   else start + size).
    pose proof (rfind_from_range text dot 0 a b) as Hr.
    set (r := rfind_from text dot 0 a b) in *.
    destruct (Z.ltb_spec start r) as [Hcut|Hno].
    + apply Hslice. unfold adjust_index.
      destruct Hr as [Hr|[Hr Hr0]]; subst a b;
        repeat match goal with
               | H : context [if ?c then _ else _] |- _ =>
                   destruct c eqn:?
               | |- context [if ?c then _ else _] => destruct c eqn:?
               end; lia.
    + apply Hslice. unfold adjust_index.
      repeat match goal with
             | |- context [if ?c then _ else _] => destruct c eqn:?
             end; lia.
  - apply Hslice. unfold adjust_index.
    repeat match goal with
           | |- context [if ?c then _ else _] => destruct c eqn:?
           end; lia.
Qed.

(** On the loop path a chunk is never empty and carries no white space at
    either end. *)
Theorem chunk_text_long_chunks_are_stripped
  (text : str) (fuel : nat) (chunks : list str) :
  chunk_size settings < len text ->
  _chunk_text settings fuel text = Some chunks ->
  forall chunk, chunk ∈ chunks -> chunk <> [] /\ strip chunk = chunk.
Proof.
  intros Hlong Hrun. unfold _chunk_text in Hrun.
  destruct (Z.leb_spec (len text) (chunk_size settings)); [lia|].
  apply (chunk_loop_keeps (fun c => c <> [] /\ strip c = c) text)
    with (fuel := fuel) (start := 0) (acc := []); [|exact Hrun|].
  - intros start Ht. split; [|apply strip_idempotent].
    intros E. rewrite E in Ht. discriminate.
  - intros c Hc. inversion Hc.
Qed.

(** No chunk is longer than [chunk_size], whatever the overlap. *)
Theorem chunk_text_chunk_length
  (text : str) (fuel : nat) (chunks : list str) :
  0 <= chunk_size settings ->
  _chunk_text settings fuel text = Some chunks ->
  forall chunk, chunk ∈ chunks -> len chunk <= chunk_size settings.
Proof.
  intros Hsize Hrun. unfold _chunk_text in Hrun.
  destruct (Z.leb_spec (len text) (chunk_size settings)) as [Hshort|Hlong].
  - injection Hrun as <-. intros chunk Hc.
    apply list_elem_of_singleton in Hc as ->. exact Hshort.
  - apply (chunk_loop_keeps (fun c => len c <= chunk_size settings) text)
      with (fuel := fuel) (start := 0) (acc := []); [|exact Hrun|].
    + intros start _. pose proof (window_slice_length text start Hsize).
      pose proof (length_strip (slice text start
                                  (window_end settings text start))).
      unfold len in *. lia.
    + intros c Hc. inversion Hc.
Qed.

End ChunkShape.

(** ** Ingestion: dispatch and the document that comes out *)

Lemma endswith_last (s suffix : str) (c : char) :
  endswith s suffix = true -> last suffix = Some c -> last s = Some c.
Proof.
  unfold endswith. intros He Hl. apply andb_true_iff in He as [_ Hd].
  apply bool_decide_eq_true in Hd.
  rewrite <- (take_drop (length s - length suffix) s), Hd.
  rewrite last_app, Hl. reflexivity.
Qed.

(** The type [_get_document_type] gives for the files of a processor. *)
Definition processor_type (proc : DocumentIngestionService.Processor)
  : DocumentType :=
  match proc with
  | DocumentIngestionService.ThePDFProcessor => PDF
  | DocumentIngestionService.TheDocxProcessor => DOCX
  | DocumentIngestionService.TheTxtProcessor => TXT
  | DocumentIngestionService.TheMarkdownProcessor => MD
  end.

Section IngestionMore.
Context `{PyDateTime} `{TextLibs}.
Import DocumentIngestionService.

Variable utcnow : nat -> datetime.
Variable uuid4 : nat -> str.

(** The last character of the lower-cased name that a processor asks for. *)
Definition final_letters (proc : Processor) : list char :=
  match proc with
  | ThePDFProcessor => [102%N]
  | TheDocxProcessor => [120%N]
  | TheTxtProcessor => [116%N]
  | TheMarkdownProcessor => [100%N; 110%N]
  end.

Lemma can_process_last (proc : Processor) (name : str) :
  can_process proc name = true ->
  exists c, last (str_lower name) = Some c /\ c ∈ final_letters proc.
Proof.
  destruct proc; cbn [can_process]; intros Hc.
  - exists 102%N. split; [|apply list_elem_of_here].
    eapply endswith_last; [exact Hc|reflexivity].
  - exists 120%N. split; [|apply list_elem_of_here].
    eapply endswith_last; [exact Hc|reflexivity].
  - exists 116%N. split; [|apply list_elem_of_here].
    eapply endswith_last; [exact Hc|reflexivity].
  - unfold MarkdownProcessor.can_process in Hc.
    apply orb_true_iff in Hc as [Hc|Hc].
    + exists 100%N. split; [|apply list_elem_of_here].
      eapply endswith_last; [exact Hc|reflexivity].
    + exists 110%N. split; [|apply list_elem_of_further, list_elem_of_here].
      eapply endswith_last; [exact Hc|reflexivity].
Qed.

(** At most one processor accepts a file name, whatever [str.lower] does:
    the order of registration decides nothing. *)
Theorem processors_exclusive (p1 p2 : Processor) (name : str) :
  can_process p1 name = true -> can_process p2 name = true -> p1 = p2.
Proof.
  intros H1 H2.
  destruct (can_process_last p1 name H1) as (c1 & Hl1 & Hc1).
  destruct (can_process_last p2 name H2) as (c2 & Hl2 & Hc2).
  rewrite Hl1 in Hl2. injection Hl2 as <-.
  destruct p1, p2; try reflexivity; cbn in Hc1, Hc2;
    repeat (apply elem_of_cons in Hc1 as [Hc1|Hc1]);
    repeat (apply elem_of_cons in Hc2 as [Hc2|Hc2]);
    try (inversion Hc1); try (inversion Hc2); subst; discriminate.
Qed.

Lemma txt_extract_text_is_stripped (file_content : list Byte.byte) :
  exists raw, TxtProcessor.extract_text file_content = Ok (strip raw).
Proof.
  unfold TxtProcessor.extract_text, TxtProcessor.extract_text_traced,
    TxtProcessor.encodings.
  cbn [TxtProcessor.decode_first TxtProcessor.decode].
  destruct (decode_utf8 file_content) as [t8|]; [now exists t8|].
  destruct (decode_utf16 file_content) as [t16|]; [now exists t16|].
  now exists (decode_latin1 file_content).
Qed.

Lemma extract_text_stripped (proc : Processor) (file_content : list Byte.byte)
  (text : str) :
  extract_text proc file_content = Ok text -> strip text = text.
Proof.
  destruct proc; cbn [extract_text].
  - unfold PDFProcessor.extract_text.
    destruct (pdf_pages file_content); intros E; [|discriminate].
    injection E as <-. apply strip_idempotent.
  - unfold DocxProcessor.extract_text.
    destruct (docx_paragraphs file_content); intros E; [|discriminate].
    injection E as <-. apply strip_idempotent.
  - intros E.
    destruct (txt_extract_text_is_stripped file_content) as (raw & Hraw).
    rewrite Hraw in E. injection E as <-. apply strip_idempotent.
  - unfold MarkdownProcessor.extract_text.
    destruct (decode_utf8 file_content); intros E; [|discriminate].
    injection E as <-. apply strip_idempotent.
Qed.

(** What a returned document holds: the extracted text, trimmed and not
    empty, the byte length of the file, the arguments as given, a drawn
    id and two clock readings; and its type is the type of the processor
    that accepted the name. *)
Theorem process_document_result
  (name : str) (file_content : list Byte.byte)
  (customer_arg project_arg : option str)
  (metadata_arg : option (gmap str PyValue)) (w w' : World)
  (doc : Document) :
  process_document utcnow uuid4 name file_content customer_arg project_arg
    metadata_arg w = (Ok doc, w') ->
  exists proc,
    find_processor processors name = Some proc
    /\ extract_text proc file_content = Ok (content doc)
    /\ document_type doc = processor_type proc
    /\ strip (content doc) = content doc
    /\ content doc <> []
    /\ filename doc = name
    /\ file_size doc = len file_content
    /\ customer doc = customer_arg /\ project doc = project_arg
    /\ metadata doc = default ∅ metadata_arg
    /\ doc_id doc = uuid4 (uuid_draws w)
    /\ date doc = utcnow (clock_reads w)
    /\ created_at doc = utcnow (S (clock_reads w))
    /\ clock_reads w' = S (S (clock_reads w))
    /\ uuid_draws w' = S (uuid_draws w).
Proof.
  intros Hrun. unfold process_document in Hrun.
  destruct (find_processor processors name) as [proc|] eqn:Hf;
    [|discriminate].
  destruct (extract_text proc file_content) as [text|e] eqn:Hx;
    [|discriminate].
  destruct (truthy (strip text)) eqn:Ht; [|discriminate].
  injection Hrun as <- <-. cbn.
  pose proof (extract_text_stripped _ _ _ Hx) as Hs.
  exists proc. split; [reflexivity|]. split; [exact Hx|]. split.
  - unfold _get_document_type. cbn [find_processor processors] in Hf.
    cbn [can_process] in Hf.
    unfold PDFProcessor.can_process, DocxProcessor.can_process,
      TxtProcessor.can_process, MarkdownProcessor.can_process in Hf.
    destruct (endswith (str_lower name) (lit ".pdf"));
      [injection Hf as <-; reflexivity|].
    destruct (endswith (str_lower name) (lit ".docx"));
      [injection Hf as <-; reflexivity|].
    destruct (endswith (str_lower name) (lit ".txt"));
      [injection Hf as <-; reflexivity|].
    destruct (endswith (str_lower name) (lit ".md")
              || endswith (str_lower name) (lit ".markdown"));
      [injection Hf as <-; reflexivity|discriminate].
  - split; [exact Hs|]. split.
    + intros E. rewrite E in Ht. discriminate.
    + repeat split.
Qed.

(** The two text formats agree on files that decode as utf-8 and part
    ways on the others: Markdown raises [ValueError], plain text still
    returns a string. *)
Theorem txt_and_markdown_extraction (file_content : list Byte.byte) :
  (forall text, decode_utf8 file_content = Some text ->
     TxtProcessor.extract_text file_content = Ok (strip text)
     /\ MarkdownProcessor.extract_text file_content = Ok (strip text))
  /\ (decode_utf8 file_content = None ->
      (exists text, TxtProcessor.extract_text file_content = Ok text)
      /\ exists msg, MarkdownProcessor.extract_text file_content
                     = Err (Raise ValueError msg)).
Proof.
  unfold TxtProcessor.extract_text, TxtProcessor.extract_text_traced,
    TxtProcessor.encodings, MarkdownProcessor.extract_text.
  cbn [TxtProcessor.decode_first TxtProcessor.decode].
  split.
  - intros text ->. split; reflexivity.
  - intros ->. split; [|eexists; reflexivity].
    destruct (decode_utf16 file_content); eexists; reflexivity.
Qed.

End IngestionMore.

(** ** The vector store: what [search] returns, and its filters *)

Section SearchMore.
Context `{PyDateTime} `{Pydantic}.
Import VectorStore.

Variable settings : Settings.
Variable encode : str -> list float.
Variable collection_query :
  gmap str Row -> list float -> Z -> option (gmap str PyValue)
  -> result QueryResult.

(** An entry as read from row [j] of the answer: id, metadata and content
    are the row's, and the date is the parsed [date] of the metadata. *)
Definition read_from_row (res : QueryResult) (ids : list str)
  (e : MemoryEntry) : Prop :=
  exists j : nat,
    ids !! j = Some (id e)
    /\ first_at (res_metadatas res) j = Ok (metadata e)
    /\ first_at (res_documents res) j = Ok (content e)
    /\ exists s, metadata e !! k_date = Some (PStr s)
                 /\ fromisoformat s = Some (date e).

Lemma entry_of_row_date (memory_id : str) (md : gmap str PyValue)
  (doc : str) (e : MemoryEntry) :
  entry_of_row memory_id md doc = Ok e ->
  exists s, md !! k_date = Some (PStr s) /\ fromisoformat s = Some (date e).
Proof.
  unfold entry_of_row, getitem. intros He.
  destruct (md !! k_date) as [v1|]; [|discriminate].
  cbn [mbind result_bind] in He.
  destruct v1 as [| | | |s| |]; try discriminate.
  cbn [parse_date] in He.
  destruct (fromisoformat s) as [d|] eqn:Hd; [|discriminate].
  cbn [mbind result_bind] in He.
  destruct (md !! k_source_document_id) as [v3|]; [|discriminate].
  destruct (md !! k_chunk_index) as [v4|]; [|discriminate].
  cbn [mbind result_bind] in He.
  destruct (validate_opt_str (or_None (md !! k_customer))) as [v5|];
    [|discriminate].
  destruct (validate_opt_str (or_None (md !! k_project))) as [v6|];
    [|discriminate].
  destruct (validate_str v3) as [v7|]; [|discriminate].
  destruct (validate_int v4) as [v8|]; [|discriminate].
  destruct (validate_float _) as [v9|]; [|discriminate].
  cbn [mbind result_bind] in He. injection He as <-.
  exists s. auto.
Qed.

Lemma search_rows_origin (res : QueryResult) (ids0 : list str) :
  forall (ids : list str) (i : nat) (scored : list (float * MemoryEntry)),
    (forall k x, ids !! k = Some x -> ids0 !! (i + k)%nat = Some x) ->
    search_rows settings res i ids = Ok scored ->
    Forall (read_from_row res ids0) (List.map snd scored)
    /\ List.map (fun p => id (snd p)) scored `sublist_of` ids.
Proof.
  induction ids as [|memory_id rest IH]; intros i scored Hids Hrun.
  - injection Hrun as <-. split; [constructor|constructor].
  - cbn [search_rows] in Hrun.
    assert (forall k x, rest !! k = Some x -> ids0 !! (S i + k)%nat = Some x)
      as Hrest.
    { intros k x Hk. replace (S i + k)%nat with (i + S k)%nat by lia.
      apply Hids. exact Hk. }
    destruct (first_at (res_metadatas res) i) as [md|] eqn:Hmd;
      cbn [mbind result_bind] in Hrun; [|discriminate].
    destruct (first_at (res_documents res) i) as [doc|] eqn:Hdoc;
      cbn [mbind result_bind] in Hrun; [|discriminate].
    destruct (row_distance res i) as [distance|];
      cbn [mbind result_bind] in Hrun; [|discriminate].
    destruct (PrimFloat.ltb (similarity_of distance)
                (similarity_threshold settings)).
    + destruct (IH (S i) scored Hrest Hrun) as [Hall Hsub].
      split; [exact Hall|]. now apply sublist_cons.
    + destruct (entry_of_row memory_id md doc) as [e|] eqn:He;
        cbn [mbind result_bind] in Hrun; [|discriminate].
      destruct (search_rows settings res (S i) rest) as [more|] eqn:Hmore;
        cbn [mbind result_bind] in Hrun; [|discriminate].
      injection Hrun as <-.
      destruct (IH (S i) more Hrest Hmore) as [Hall Hsub].
      destruct (entry_of_row_fields _ _ _ _ He) as (Hid & Hc & Hm).
      split.
      * cbn [List.map snd]. constructor; [|exact Hall].
        exists i. rewrite Hid, Hc, Hm. split.
        { rewrite <- (Nat.add_0_r i). apply Hids. reflexivity. }
        split; [exact Hmd|]. split; [exact Hdoc|].
        exact (entry_of_row_date _ _ _ _ He).
      * cbn [List.map snd]. rewrite Hid. now apply sublist_skip.
Qed.

(** The entries [search] returns are read from rows of the store's
    answer, each with a [date] that parsed, and they come in the order in
    which the store ranked their ids. *)
Theorem search_entries_in_rank_order (st : Store) (query : str)
  (filters : option (gmap str PyValue)) (top_k : Z)
  (entries : list MemoryEntry) :
  search settings encode collection_query st query filters top_k
  = Ok entries ->
  exists results : QueryResult,
    collection_query (collection st) (encode query) top_k
      (if decide (where_clause_of filters = ∅) then None
       else Some (where_clause_of filters)) = Ok results
    /\ Forall (read_from_row results (default [] (head (res_ids results))))
         entries
    /\ List.map id entries `sublist_of` default [] (head (res_ids results)).
Proof.
  unfold search. intros Hrun.
  destruct (search_scored settings encode collection_query st query filters
              top_k) as [scored|] eqn:Hs; [|discriminate].
  injection Hrun as <-. unfold search_scored in Hs.
  destruct (collection_query _ _ _ _) as [results|]; [|discriminate].
  exists results. cbn [mbind result_bind] in Hs. split; [reflexivity|].
  rewrite List.map_map.
  destruct (res_ids results) as [|[|memory_id ids0] others]; cbn [head default].
  - injection Hs as <-. split; constructor.
  - injection Hs as <-. split; constructor.
  - apply (search_rows_origin results (memory_id :: ids0)
             (memory_id :: ids0) 0 scored); auto.
Qed.

Lemma search_rows_all_below (res : QueryResult) :
  forall (ids : list str) (i : nat),
    (forall k, (k < length ids)%nat ->
       exists md doc distance,
         first_at (res_metadatas res) (i + k) = Ok md
         /\ first_at (res_documents res) (i + k) = Ok doc
         /\ row_distance res (i + k) = Ok distance
         /\ PrimFloat.ltb (similarity_of distance)
              (similarity_threshold settings) = true) ->
    search_rows settings res i ids = Ok [].
Proof.
  induction ids as [|memory_id rest IH]; intros i Hrows; [reflexivity|].
  cbn [search_rows].
  destruct (Hrows 0%nat) as (md & doc & distance & Hmd & Hdoc & Hd & Hlt);
    [simpl; lia|].
  rewrite Nat.add_0_r in Hmd, Hdoc, Hd. rewrite Hmd, Hdoc, Hd.
  cbn [mbind result_bind]. rewrite Hlt. apply IH.
  intros k Hk. replace (S i + k)%nat with (i + S k)%nat by lia.
  apply Hrows. simpl. lia.
Qed.

(** When every row the store reports lies below the threshold, [search]
    returns the empty list: the metadata of such rows is fetched but never
    parsed, so a row whose date would not parse does no harm there. *)
Theorem search_all_below_threshold (st : Store) (query : str)
  (filters : option (gmap str PyValue)) (top_k : Z)
  (results : QueryResult) (ids0 : list str) (others : list (list str)) :
  collection_query (collection st) (encode query) top_k
    (if decide (where_clause_of filters = ∅) then None
     else Some (where_clause_of filters)) = Ok results ->
  res_ids results = ids0 :: others ->
  (forall k, (k < length ids0)%nat ->
     exists md doc distance,
       first_at (res_metadatas results) k = Ok md
       /\ first_at (res_documents results) k = Ok doc
       /\ row_distance results k = Ok distance
       /\ PrimFloat.ltb (similarity_of distance)
            (similarity_threshold settings) = true) ->
  search settings encode collection_query st query filters top_k = Ok [].
Proof.
  intros Hq Hids Hrows. unfold search, search_scored. rewrite Hq.
  cbn [mbind result_bind]. rewrite Hids.
  destruct ids0 as [|memory_id ids0]; [reflexivity|].
  now rewrite (search_rows_all_below results (memory_id :: ids0) 0 Hrows).
Qed.

(** The keys of a [where] clause. *)
Definition date_range (from_v to_v : option PyValue) : option PyValue :=
  match from_v, to_v with
  | Some a, Some b => Some (PDict [(k_gte, a); (k_lte, b)])
  | Some a, None => Some (PDict [(k_gte, a)])
  | None, Some b => Some (PDict [(k_lte, b)])
  | None, None => None
  end.

(** The [where] clause of [search] holds a filter value exactly when it
    is truthy: the customer and the project as they are, the two date
    bounds together under [date], and nothing else. *)
Theorem where_clause_of_filters (f : gmap str PyValue) :
  where_clause_of (Some f) !! k_customer = or_None (f !! k_customer)
  /\ where_clause_of (Some f) !! k_project = or_None (f !! k_project)
  /\ where_clause_of (Some f) !! k_date
     = date_range (or_None (f !! k_date_from)) (or_None (f !! k_date_to))
  /\ forall k, k <> k_customer -> k <> k_project -> k <> k_date ->
               where_clause_of (Some f) !! k = None.
Proof.
  unfold where_clause_of.
  destruct (decide (f = ∅)) as [->|Hne].
  { rewrite !lookup_empty. cbn. repeat split; auto. }
  destruct (or_None (f !! k_customer)) as [vc|];
    destruct (or_None (f !! k_project)) as [vp|];
    destruct (or_None (f !! k_date_from)) as [vf|];
    destruct (or_None (f !! k_date_to)) as [vt|];
    cbn [date_range];
    repeat (first [rewrite lookup_insert_eq
                  | rewrite lookup_insert_ne by key_ne
                  | rewrite lookup_empty]);
    cbn [app];
    (split; [|split; [|split]]);
    try (intros k H1 H2 H3);
    repeat (first [rewrite lookup_insert_eq
                  | rewrite lookup_insert_ne by key_ne
                  | rewrite lookup_insert_ne by congruence
                  | rewrite lookup_empty]);
    reflexivity.
Qed.

End SearchMore.

(** ** The vector store: adding, deleting and updating entries *)

Section StoreMore.
Context `{PyDateTime} `{Pydantic}.
Import VectorStore VectorStoreOps.

Variable encode : str -> list float.
Variable uuid4 : nat -> str.
Variable content_error : PyValue -> exn.
Variable update_pairs : PyValue -> result (list (str * PyValue)).

(** When [add_memory_entry] returns a new id, the collection is the old
    one with one more record under that id: the count of [get_stats]
    grows by one and every other id reads as before. *)
Theorem add_memory_entry_adds_one
  (e : MemoryEntry) (st st' : Store) (memory_id : str) :
  add_memory_entry encode uuid4 e st = (Ok memory_id, st') ->
  collection st !! memory_id = None ->
  memory_id = uuid4 (store_uuids st)
  /\ get_stats st' = S (get_stats st)
  /\ (exists row, collection st' = <[memory_id := row]> (collection st)
                  /\ row_document row = content e
                  /\ row_embedding row = encode (content e)
                  /\ row_metadata row !! k_is_manual_entry
                     = Some (default (PBool true)
                               (metadata e !! k_is_manual_entry)))
  /\ (forall other, other <> memory_id ->
        get_memory_entry other st' = get_memory_entry other st).
Proof.
  intros Hadd Hfresh. unfold add_memory_entry, collection_add in Hadd.
  cbn [collection row_metadata] in Hadd.
  destruct (decide (map_Forall _ (entry_metadata e))); [|discriminate].
  destruct (collection st !! uuid4 (store_uuids st)) eqn:Hid.
  { injection Hadd as <- <-. congruence. }
  injection Hadd as <- <-. split; [reflexivity|]. split.
  { unfold get_stats. cbn [collection].
    now apply map_size_insert_None. }
  split.
  - eexists. split; [reflexivity|].
    cbn [row_document row_embedding row_metadata].
    split; [reflexivity|]. split; [reflexivity|]. unfold entry_metadata.
    destruct (metadata e !! k_is_manual_entry) as [v|] eqn:Hm.
    + cbn [default]. now apply lookup_union_Some_l.
    + rewrite lookup_union_r by exact Hm.
      repeat (rewrite lookup_insert_ne by key_ne). apply lookup_insert_eq.
  - intros other Hne. unfold get_memory_entry. cbn [collection].
    rewrite lookup_insert_ne by congruence. reflexivity.
Qed.

(** An entry whose own metadata holds a value ChromaDB cannot store (a
    [None], a list, a dict) is refused with [ValueError], and the
    collection stays as it was. *)
Theorem add_memory_entry_refuses_unstorable
  (e : MemoryEntry) (st : Store) (k : str) (v : PyValue) :
  metadata e !! k = Some v -> storable v = false ->
  exists msg st',
    add_memory_entry encode uuid4 e st = (Err (Raise ValueError msg), st')
    /\ collection st' = collection st.
Proof.
  intros Hk Hv. unfold add_memory_entry, collection_add.
  cbn [collection row_metadata].
  destruct (decide (map_Forall _ (entry_metadata e))) as [Hall|_].
  - exfalso. specialize (Hall k v). cbv beta in Hall.
    rewrite Hall in Hv; [discriminate|].
    unfold entry_metadata. apply lookup_union_Some_l. exact Hk.
  - eexists _, _. split; reflexivity.
Qed.

(** After [delete_memory_entry] the id reads as absent, every other id
    reads as before, and a second delete changes nothing more. *)
Theorem delete_memory_entry_then_get (memory_id : str) (st : Store) :
  let st' := snd (delete_memory_entry memory_id st) in
  get_memory_entry memory_id st' = Ok None
  /\ (forall other, other <> memory_id ->
        get_memory_entry other st' = get_memory_entry other st)
  /\ delete_memory_entry memory_id st' = (Ok true, st')
  /\ (get_stats st' <= get_stats st)%nat.
Proof.
  intros st'. unfold st', delete_memory_entry, get_memory_entry, get_stats.
  cbn [snd collection store_uuids]. split; [now rewrite lookup_delete_eq|].
  split.
  - intros other Hne. rewrite lookup_delete_ne by congruence. reflexivity.
  - split; [now rewrite delete_delete_eq|].
    destruct (collection st !! memory_id) eqn:Hm.
    + rewrite map_size_delete_Some by eauto. lia.
    + rewrite delete_id by exact Hm. lia.
Qed.

(** Deleting the entry that was just added gives back the collection
    there was before. *)
Theorem add_then_delete_memory_entry
  (e : MemoryEntry) (st st' : Store) (memory_id : str) :
  add_memory_entry encode uuid4 e st = (Ok memory_id, st') ->
  collection st !! memory_id = None ->
  collection (snd (delete_memory_entry memory_id st')) = collection st.
Proof.
  intros Hadd Hfresh.
  destruct (add_memory_entry_adds_one e st st' memory_id Hadd Hfresh)
    as (_ & _ & (row & Hc & _) & _).
  unfold delete_memory_entry. cbn [snd collection]. rewrite Hc.
  rewrite delete_insert_eq. now apply delete_id.
Qed.

Abbreviation all_storable md :=
  (map_Forall (fun (_ : str) v => storable v = true) md).

Lemma get_memory_entry_Some (memory_id : str) (st : Store)
  (existing : MemoryEntry) :
  get_memory_entry memory_id st = Ok (Some existing) ->
  exists r, collection st !! memory_id = Some r
            /\ entry_of_row memory_id (row_metadata r) (row_document r)
               = Ok existing
            /\ metadata existing = row_metadata r.
Proof.
  unfold get_memory_entry. intros Hget.
  destruct (collection st !! memory_id) as [r|]; [|discriminate].
  destruct (entry_of_row memory_id (row_metadata r) (row_document r))
    as [e|] eqn:He; [|discriminate].
  injection Hget as <-. exists r. split; [reflexivity|]. split; [exact He|].
  now destruct (entry_of_row_fields _ _ _ _ He) as (_ & _ & ->).
Qed.

Lemma dict_update_keeps (pairs : list (str * PyValue)) :
  forall (d : gmap str PyValue) (k : str),
    is_Some (d !! k) -> is_Some (dict_update d pairs !! k).
Proof.
  unfold dict_update.
  induction pairs as [|[k' v'] pairs IH]; intros d k Hk; [exact Hk|].
  cbn [foldl]. apply IH. cbn [fst snd].
  destruct (decide (k' = k)) as [->|Hne].
  - rewrite lookup_insert_eq. eauto.
  - now rewrite lookup_insert_ne.
Qed.

Lemma insert_keeps (d : gmap str PyValue) (k k' : str) (v : PyValue) :
  is_Some (d !! k) -> is_Some (<[k' := v]> d !! k).
Proof.
  intros Hk. destruct (decide (k' = k)) as [->|Hne].
  - rewrite lookup_insert_eq. eauto.
  - now rewrite lookup_insert_ne.
Qed.

(** The assignments to [existing.metadata] remove no key. *)
Lemma updated_metadata_keeps (md md' updates : gmap str PyValue) (k : str) :
  updated_metadata update_pairs md updates = Ok md' ->
  is_Some (md !! k) -> is_Some (md' !! k).
Proof.
  unfold updated_metadata. intros Hu Hk.
  set (md1 := match updates !! k_customer with
              | Some v => <[k_customer := value_or_empty v]> md
              | None => md end) in *.
  set (md2 := match updates !! k_project with
              | Some v => <[k_project := value_or_empty v]> md1
              | None => md1 end) in *.
  set (md3 := match updates !! k_importance_score with
              | Some v => <[k_importance_score := v]> md2
              | None => md2 end) in *.
  assert (is_Some (md3 !! k)) as H3.
  { subst md3 md2 md1.
    destruct (updates !! k_importance_score);
      destruct (updates !! k_project);
      destruct (updates !! k_customer);
      repeat apply insert_keeps; exact Hk. }
  destruct (updates !! k_metadata) as [v|]; [|injection Hu as <-; exact H3].
  destruct v as [| | | | | |d];
    try (destruct (update_pairs _) as [pairs|]; [|discriminate];
         cbn [mbind result_bind] in Hu; injection Hu as <-;
         now apply dict_update_keeps).
  injection Hu as <-. now apply dict_update_keeps.
Qed.

Lemma union_superset (md md' : gmap str PyValue) :
  (forall k, is_Some (md !! k) -> is_Some (md' !! k)) -> md' ∪ md = md'.
Proof.
  intros Hsup. apply map_eq. intros k. rewrite lookup_union.
  destruct (md' !! k) as [v'|] eqn:H'.
  - destruct (md !! k) as [v|]; reflexivity.
  - destruct (md !! k) as [v|] eqn:Hm; [|reflexivity].
    destruct (Hsup k) as [x Hx]; [rewrite Hm; eauto|]. congruence.
Qed.

(** [update_memory_entry] on an id the collection does not hold answers
    [False] and leaves the store as it was. *)
Theorem update_memory_entry_absent (memory_id : str)
  (updates : gmap str PyValue) (st : Store) :
  collection st !! memory_id = None ->
  update_memory_entry encode content_error update_pairs memory_id updates st
  = (Ok false, st).
Proof.
  intros Hnone. unfold update_memory_entry, get_memory_entry.
  now rewrite Hnone.
Qed.

(** What an update that goes through writes: the record keeps its id, its
    document and embedding are those of the new content when one is given,
    and its metadata are the stored ones with the assignments made. *)
Theorem update_memory_entry_writes
  (memory_id : str) (updates : gmap str PyValue) (st : Store)
  (existing : MemoryEntry) (r : Row) (md' : gmap str PyValue) :
  collection st !! memory_id = Some r ->
  get_memory_entry memory_id st = Ok (Some existing) ->
  all_storable (row_metadata r) ->
  (updates !! k_content = None
   \/ exists s, updates !! k_content = Some (PStr s)) ->
  updated_metadata update_pairs (row_metadata r) updates = Ok md' ->
  all_storable md' ->
  update_memory_entry encode content_error update_pairs memory_id updates st
  = (Ok true,
     with_collection st
       (<[memory_id :=
            {| row_embedding :=
                 match updates !! k_content with
                 | Some (PStr s) => encode s
                 | _ => row_embedding r
                 end;
               row_metadata := md';
               row_document :=
                 match updates !! k_content with
                 | Some (PStr s) => s
                 | _ => row_document r
                 end |}]> (collection st))).
Proof.
  intros Hr Hget Hst Hcontent Hmd Hst'.
  destruct (get_memory_entry_Some _ _ _ Hget) as (r' & Hr' & _ & Hmeta).
  rewrite Hr in Hr'. injection Hr' as <-.
  assert (md' ∪ row_metadata r = md') as Hsup.
  { apply union_superset. intros k.
    exact (updated_metadata_keeps _ _ updates k Hmd). }
  unfold update_memory_entry. rewrite Hget, Hmeta.
  destruct Hcontent as [Hc|(s & Hc)]; rewrite Hc.
  - rewrite Hmd. unfold collection_update.
    destruct (decide (all_storable md')); [|contradiction].
    rewrite Hr. cbn [default]. now rewrite Hsup.
  - unfold collection_update at 1.
    destruct (decide (all_storable (row_metadata r))); [|contradiction].
    rewrite Hr, Hmd. unfold collection_update.
    destruct (decide (all_storable md')); [|contradiction].
    rewrite lookup_insert_eq. cbn [default row_embedding row_metadata
      row_document]. rewrite insert_insert_eq.
    rewrite (map_union_assoc md'), Hsup, Hsup. reflexivity.
Qed.

(** The same entry with another content. *)
Definition with_content (e : MemoryEntry) (doc : str) : MemoryEntry :=
  {| id := id e; content := doc; embedding := embedding e;
     customer := customer e; project := project e; date := date e;
     source_document_id := source_document_id e;
     chunk_index := chunk_index e;
     importance_score := importance_score e; metadata := metadata e |}.

Lemma entry_of_row_content (memory_id : str) (md : gmap str PyValue)
  (doc doc' : str) (e : MemoryEntry) :
  entry_of_row memory_id md doc = Ok e ->
  entry_of_row memory_id md doc' = Ok (with_content e doc').
Proof.
  unfold entry_of_row. intros He.
  destruct (getitem md k_date) as [v1|]; [|discriminate].
  cbn [mbind result_bind] in *.
  destruct (parse_date v1) as [v2|]; [|discriminate].
  cbn [mbind result_bind] in *.
  destruct (getitem md k_source_document_id) as [v3|]; [|discriminate].
  cbn [mbind result_bind] in *.
  destruct (getitem md k_chunk_index) as [v4|]; [|discriminate].
  cbn [mbind result_bind] in *.
  destruct (validate_opt_str (or_None (md !! k_customer))) as [v5|];
    [|discriminate].
  cbn [mbind result_bind] in *.
  destruct (validate_opt_str (or_None (md !! k_project))) as [v6|];
    [|discriminate].
  cbn [mbind result_bind] in *.
  destruct (validate_str v3) as [v7|]; [|discriminate].
  cbn [mbind result_bind] in *.
  destruct (validate_int v4) as [v8|]; [|discriminate].
  cbn [mbind result_bind] in *.
  destruct (validate_float _) as [v9|]; [|discriminate].
  cbn [mbind result_bind] in *. injection He as <-. reflexivity.
Qed.

Lemma updated_metadata_content_only (md : gmap str PyValue) (s : str) :
  updated_metadata update_pairs md {[k_content := PStr s]} = Ok md.
Proof.
  unfold updated_metadata.
  rewrite !lookup_singleton_ne by key_ne. reflexivity.
Qed.

(** After an update of the content alone, the entry reads back with the
    new content and everything else as before, and no other entry has
    changed. *)
Theorem update_content_then_get
  (memory_id : str) (s : str) (st : Store) (existing : MemoryEntry)
  (r : Row) :
  collection st !! memory_id = Some r ->
  get_memory_entry memory_id st = Ok (Some existing) ->
  all_storable (row_metadata r) ->
  exists st',
    update_memory_entry encode content_error update_pairs memory_id
      {[k_content := PStr s]} st = (Ok true, st')
    /\ get_memory_entry memory_id st' = Ok (Some (with_content existing s))
    /\ (exists r', collection st' !! memory_id = Some r'
                   /\ row_embedding r' = encode s)
    /\ (forall other, other <> memory_id ->
          get_memory_entry other st' = get_memory_entry other st).
Proof.
  intros Hr Hget Hst.
  pose proof (update_memory_entry_writes memory_id {[k_content := PStr s]}
                st existing r (row_metadata r) Hr Hget Hst) as Hw.
  rewrite lookup_singleton_eq in Hw.
  eexists. split.
  { apply Hw; [right; eauto|apply updated_metadata_content_only|exact Hst]. }
  destruct (get_memory_entry_Some _ _ _ Hget) as (r' & Hr' & He & _).
  rewrite Hr in Hr'. injection Hr' as <-.
  unfold get_memory_entry, with_collection. cbn [collection]. split.
  - rewrite lookup_insert_eq. cbn [row_metadata row_document].
    now rewrite (entry_of_row_content _ _ _ s _ He).
  - split.
    + eexists. rewrite lookup_insert_eq. split; reflexivity.
    + intros other Hne. rewrite lookup_insert_ne by congruence. reflexivity.
Qed.

(** The update is not all-or-nothing: when the content is new and the
    importance score given cannot be stored, the call raises
    [ValueError], yet the new content is already written. *)
Theorem update_memory_entry_partial
  (memory_id : str) (updates : gmap str PyValue) (st : Store)
  (existing : MemoryEntry) (r : Row) (s : str) (v : PyValue) :
  collection st !! memory_id = Some r ->
  get_memory_entry memory_id st = Ok (Some existing) ->
  all_storable (row_metadata r) ->
  updates !! k_content = Some (PStr s) ->
  updates !! k_importance_score = Some v -> storable v = false ->
  updates !! k_metadata = None ->
  exists msg st' r',
    update_memory_entry encode content_error update_pairs memory_id updates
      st = (Err (Raise ValueError msg), st')
    /\ collection st' !! memory_id = Some r'
    /\ row_document r' = s
    /\ row_metadata r' = row_metadata r.
Proof.
  intros Hr Hget Hst Hc Hi Hv Hm.
  destruct (get_memory_entry_Some _ _ _ Hget) as (r' & Hr' & _ & Hmeta).
  rewrite Hr in Hr'. injection Hr' as <-.
  unfold update_memory_entry. rewrite Hget, Hmeta, Hc.
  unfold collection_update at 1.
  destruct (decide (all_storable (row_metadata r))); [|contradiction].
  rewrite Hr. unfold updated_metadata. rewrite Hi, Hm.
  unfold collection_update.
  match goal with
  | |- context [decide (all_storable ?m)] =>
      destruct (decide (all_storable m)) as [Hall|_]
  end.
  - exfalso. specialize (Hall k_importance_score v). cbv beta in Hall.
    rewrite Hall in Hv; [discriminate|]. apply lookup_insert_eq.
  - eexists _, _, _. split; [reflexivity|].
    unfold with_collection. cbn [collection]. rewrite lookup_insert_eq.
    split; [reflexivity|]. cbn [row_document row_metadata default].
    split; [reflexivity|]. apply map_union_idemp.
Qed.

End StoreMore.

Section ListAndDocuments.
Context `{PyDateTime} `{Pydantic}.
Import VectorStore VectorStoreOps.

Variable settings : Settings.
Variable encode : str -> list float.
Variable uuid4 : nat -> str.
Variable collection_get :
  gmap str Row -> Z -> Z -> option (gmap str PyValue) -> result GetResult.
Variable collection_add_many :
  gmap str Row -> list (str * Row) -> result (gmap str Row).

Lemma list_rows_spec (res : GetResult) :
  forall (ids : list str) (i : nat) (entries : list MemoryEntry),
    list_rows res i ids = Ok entries ->
    List.map id entries = ids
    /\ forall (k : nat) (e : MemoryEntry),
         entries !! k = Some e ->
         got_metadatas res !! (i + k)%nat = Some (metadata e)
         /\ got_documents res !! (i + k)%nat = Some (content e).
Proof.
  induction ids as [|memory_id rest IH]; intros i entries Hrun.
  - injection Hrun as <-. split; [reflexivity|]. intros k e Hk. inversion Hk.
  - cbn [list_rows] in Hrun. unfold at_index in Hrun.
    destruct (got_metadatas res !! i) as [md|] eqn:Hmd; [|discriminate].
    destruct (got_documents res !! i) as [doc|] eqn:Hdoc; [|discriminate].
    cbn [mbind result_bind] in Hrun.
    destruct (entry_of_row memory_id md doc) as [e|] eqn:He; [|discriminate].
    cbn [mbind result_bind] in Hrun.
    destruct (list_rows res (S i) rest) as [more|] eqn:Hmore; [|discriminate].
    cbn [mbind result_bind] in Hrun. injection Hrun as <-.
    destruct (IH (S i) more Hmore) as [Hids Hrows].
    destruct (entry_of_row_fields _ _ _ _ He) as (Hid & Hc & Hm).
    split; [cbn [List.map]; now rewrite Hid, Hids|].
    intros [|k] e' Hk.
    + injection Hk as <-. rewrite Nat.add_0_r, Hm, Hc. auto.
    + replace (i + S k)%nat with (S i + k)%nat by lia. now apply Hrows.
Qed.

(** [list_memory_entries] returns one entry per row of the page the store
    gave, in the same order and with the row's id, metadata and document;
    its [where] clause never mentions anything but the customer and the
    project, so date bounds among the filters are ignored. *)
Theorem list_memory_entries_rows (limit offset : Z)
  (filters : option (gmap str PyValue)) (st : Store)
  (entries : list MemoryEntry) :
  list_memory_entries collection_get limit offset filters st = Ok entries ->
  exists res : GetResult,
    collection_get (collection st) limit offset
      (if decide (list_where_clause filters = ∅) then None
       else Some (list_where_clause filters)) = Ok res
    /\ List.map id entries = got_ids res
    /\ (forall (k : nat) (e : MemoryEntry),
          entries !! k = Some e ->
          got_metadatas res !! k = Some (metadata e)
          /\ got_documents res !! k = Some (content e))
    /\ (forall key, key <> k_customer -> key <> k_project ->
          list_where_clause filters !! key = None).
Proof.
  unfold list_memory_entries. intros Hrun.
  destruct (collection_get _ _ _ _) as [res|]; [|discriminate].
  cbn [mbind result_bind] in Hrun. exists res. split; [reflexivity|].
  destruct (list_rows_spec res (got_ids res) 0 entries Hrun) as [Hids Hrows].
  split; [exact Hids|]. split; [exact Hrows|].
  intros key Hc Hp. unfold list_where_clause.
  destruct filters as [f|]; [|apply lookup_empty].
  destruct (decide (f = ∅)); [apply lookup_empty|].
  destruct (or_None (f !! k_customer)); destruct (or_None (f !! k_project));
    repeat (rewrite lookup_insert_ne by congruence); apply lookup_empty.
Qed.

End ListAndDocuments.

(** ** From a file to the rows of the store *)

Section DocumentsMore.
Context `{PyDateTime} `{Pydantic} `{TextLibs}.
Import VectorStore VectorStoreOps.

Variable settings : Settings.
Variable encode : str -> list float.
Variable utcnow : nat -> datetime.
Variable uuid4 : nat -> str.
Variable collection_add_many :
  gmap str Row -> list (str * Row) -> result (gmap str Row).

Abbreviation Document := DocumentIngestionService.Document.

(** The rows [add_document] prepares: one per chunk, in order; row [i]
    holds chunk [i] and its embedding under the [i]-th id drawn, and its
    metadata name the document and the index [i] unless the document's
    own metadata say otherwise. *)
Theorem chunk_rows_spec (document : Document) (n : nat)
  (chunks : list str) :
  length (chunk_rows encode uuid4 document n chunks) = length chunks
  /\ forall (i : nat) (chunk : str),
       chunks !! i = Some chunk ->
       exists row,
         chunk_rows encode uuid4 document n chunks !! i
         = Some (uuid4 (n + i), row)
         /\ row_document row = chunk
         /\ row_embedding row = encode chunk
         /\ (DocumentIngestionService.metadata document !! k_chunk_index
             = None ->
             row_metadata row !! k_chunk_index = Some (PInt (Z.of_nat i)))
         /\ (DocumentIngestionService.metadata document
               !! k_source_document_id = None ->
             row_metadata row !! k_source_document_id
             = Some (PStr (DocumentIngestionService.doc_id document))).
Proof.
  unfold chunk_rows. split; [apply length_imap|].
  intros i chunk Hi. eexists. rewrite list_lookup_imap, Hi.
  split; [reflexivity|]. cbn [row_document row_embedding row_metadata].
  split; [reflexivity|]. split; [reflexivity|].
  unfold chunk_metadata. split; intros Hnone;
    rewrite lookup_union_r by exact Hnone;
    repeat (rewrite lookup_insert_ne by key_ne); apply lookup_insert_eq.
Qed.

(** When [add_document] returns ids, the chunker returned, the ids are
    the uuids drawn, one per chunk and in chunk order, and the collection
    is what the store made of the prepared rows. *)
Theorem add_document_ids (fuel : nat) (document : Document)
  (st st' : Store) (ids : list str) :
  add_document settings encode uuid4 collection_add_many fuel document st
  = Some (Ok ids, st') ->
  exists chunks,
    _chunk_text settings fuel (DocumentIngestionService.content document)
    = Some chunks
    /\ length ids = length chunks
    /\ (forall i, (i < length chunks)%nat ->
          ids !! i = Some (uuid4 (store_uuids st + i)))
    /\ collection_add_many (collection st)
         (chunk_rows encode uuid4 document (store_uuids st) chunks)
       = Ok (collection st')
    /\ store_uuids st' = (store_uuids st + length chunks)%nat.
Proof.
  unfold add_document. intros Hrun.
  destruct (_chunk_text settings fuel _) as [chunks|]; [|discriminate].
  exists chunks. split; [reflexivity|].
  destruct (collection_add_many _ _) as [c|] eqn:Hadd; [|discriminate].
  injection Hrun as <- <-.
  split; [now rewrite length_map, (proj1 (chunk_rows_spec _ _ _))|].
  split; [|split; reflexivity].
  intros i Hi. destruct (lookup_lt_is_Some_2 chunks i Hi) as [chunk Hc].
  destruct (proj2 (chunk_rows_spec document (store_uuids st) chunks)
              i chunk Hc) as (row & Hrow & _).
  rewrite list_lookup_fmap, Hrow. reflexivity.
Qed.

(** A file whose extracted text fits one chunk is stored as exactly one
    row, whose document is that text, trimmed and not empty; when the
    store accepts the row, [add_document] returns exactly one id. *)
Theorem ingest_short_file
  (name : str) (file_content : list Byte.byte)
  (customer_arg project_arg : option str)
  (metadata_arg : option (gmap str PyValue))
  (w w' : DocumentIngestionService.World) (doc : Document)
  (st : Store) (fuel : nat) :
  DocumentIngestionService.process_document utcnow uuid4 name file_content
    customer_arg project_arg metadata_arg w = (Ok doc, w') ->
  len (DocumentIngestionService.content doc) <= chunk_size settings ->
  exists row,
    row_document row = DocumentIngestionService.content doc
    /\ strip (row_document row) = row_document row
    /\ row_document row <> []
    /\ add_document settings encode uuid4 collection_add_many fuel doc st
       = Some
           match collection_add_many (collection st)
                   [(uuid4 (store_uuids st), row)] with
           | Ok c =>
               (Ok [uuid4 (store_uuids st)],
                {| collection := c; store_uuids := S (store_uuids st) |})
           | Err e =>
               (Err e,
                {| collection := collection st;
                   store_uuids := S (store_uuids st) |})
           end.
Proof.
  intros Hdoc Hshort.
  destruct (process_document_result utcnow uuid4 _ _ _ _ _ _ _ _ Hdoc)
    as (_ & _ & _ & _ & Hs & Hne & _).
  eexists {| row_embedding := _; row_metadata := _; row_document := _ |}.
  cbn [row_document]. split; [reflexivity|]. split; [exact Hs|].
  split; [exact Hne|]. unfold add_document, _chunk_text.
  destruct (Z.leb_spec (len (DocumentIngestionService.content doc))
              (chunk_size settings)); [|lia].
  unfold chunk_rows. cbn [imap length List.map fst].
  rewrite !Nat.add_0_r, Nat.add_1_r. reflexivity.
Qed.

End DocumentsMore.

(** ** The prompt of the language-model client *)

(** One part of the prompt, with the blank line after it; nothing when
    the part is absent or empty. *)
Definition prompt_part (label : str) (o : option str) : str :=
  match o with
  | Some (c :: t) => label ++ (c :: t) ++ OllamaClient.blank_line
  | _ => []
  end.

(** The prompt is the system part, the context part, the human turn and
    the cue for the answer, in this order; an absent or empty part leaves
    no trace, and the prompt always ends with the cue. *)
Theorem build_prompt_shape (prompt : str) (context system_prompt : option str) :
  OllamaClient._build_prompt prompt context system_prompt
  = prompt_part (lit "System: ") system_prompt
    ++ prompt_part (lit "Context:" ++ [10%N]) context
    ++ lit "Human: " ++ prompt ++ OllamaClient.blank_line ++ lit "Assistant:"
  /\ lit "Assistant:"
     `suffix_of` OllamaClient._build_prompt prompt context system_prompt.
Proof.
  assert (OllamaClient._build_prompt prompt context system_prompt
          = prompt_part (lit "System: ") system_prompt
            ++ prompt_part (lit "Context:" ++ [10%N]) context
            ++ lit "Human: " ++ prompt ++ OllamaClient.blank_line
            ++ lit "Assistant:") as E.
  { unfold OllamaClient._build_prompt, prompt_part.
    destruct system_prompt as [[|c1 t1]|]; destruct context as [[|c2 t2]|];
      cbn [app RAGEngine.join]; rewrite <- ?app_assoc; cbn [app];
      rewrite <- ?app_assoc; reflexivity. }
  split; [exact E|]. rewrite E.
  exists (prompt_part (lit "System: ") system_prompt
          ++ prompt_part (lit "Context:" ++ [10%N]) context
          ++ lit "Human: " ++ prompt ++ OllamaClient.blank_line).
  now rewrite <- !app_assoc.
Qed.

(** ** The RAG engine: the table across calls *)

Section RAGMore.
Context `{PyDateTime} `{Pydantic}.
Import RAGEngine.

Variable utcnow : nat -> datetime.
Variable uuid4 : nat -> str.
Variable vector_store_search :
  str -> option (gmap str PyValue) -> Z
  -> result (list VectorStore.MemoryEntry).
Variable llm_generate : str -> str -> str -> result LLMResponse.
Variable llm_generate_stream : str -> str -> str -> list str * option exn.

(** What a call of [query] that returns has done, step by step. *)
Lemma query_Ok_inv (q : Query) (st st' : Engine) (resp : AgentResponse) :
  query utcnow uuid4 vector_store_search llm_generate q st = (Ok resp, st') ->
  exists key conv st1 entries llm st2,
    _get_or_create_conversation utcnow uuid4 (conversation_id q) (tick 1 st)
    = ((key, conv), st1)
    /\ vector_store_search (question q) (filters q) (max_results q)
       = Ok entries
    /\ llm_generate (question q) (_build_context entries) _get_system_prompt
       = Ok llm
    /\ new_AgentResponse utcnow (llm_response llm)
         (llm_generation_time_ms llm) (llm_tokens_used llm) entries
         (conv_id conv) st1 = (Ok resp, st2)
    /\ st' = _update_conversation utcnow key conv (question q) (answer resp)
               st2.
Proof.
  unfold query. intros Hrun.
  destruct (_get_or_create_conversation utcnow uuid4 (conversation_id q)
              (tick 1 st)) as [[key conv] st1] eqn:Hres.
  destruct (vector_store_search _ _ _) as [entries|] eqn:Hs; [|discriminate].
  destruct (llm_generate _ _ _) as [llm|] eqn:Hg; [|discriminate].
  destruct (new_AgentResponse _ _ _ _ _ _ _) as [[resp0|] st2] eqn:Hresp;
    [|discriminate].
  injection Hrun as -> <-.
  exists key, conv, st1, entries, llm, st2. auto.
Qed.

(** The response of [query]: its sources are the entries the search
    returned, its answer is the text the model gave for the question and
    the context built from exactly these entries, and its conversation id
    is the id of the resolved conversation. *)
Theorem query_response (q : Query) (st st' : Engine) (resp : AgentResponse) :
  query utcnow uuid4 vector_store_search llm_generate q st = (Ok resp, st') ->
  exists entries llm,
    vector_store_search (question q) (filters q) (max_results q) = Ok entries
    /\ llm_generate (question q) (_build_context entries) _get_system_prompt
       = Ok llm
    /\ sources resp = entries
    /\ validate_str (llm_response llm) = Ok (answer resp)
    /\ (forall s, llm_response llm = PStr s -> answer resp = s)
    /\ resp_conversation_id resp
       = conv_id (snd (fst (_get_or_create_conversation utcnow uuid4
                              (conversation_id q) (tick 1 st)))).
Proof.
  intros Hrun.
  destruct (query_Ok_inv _ _ _ _ Hrun)
    as (key & conv & st1 & entries & llm & st2 & Hres & Hs & Hg & Hresp & _).
  destruct (new_AgentResponse_spec _ _ _ _ _ _ _ _ _ Hresp)
    as (Hcid & Hsrc & Hans & _).
  exists entries, llm. rewrite Hres. cbn [fst snd].
  repeat split; auto.
  intros s Hstr. rewrite Hstr in Hans. cbn in Hans. congruence.
Qed.

(** Whatever its outcome, [query] changes the table at one key at most,
    the key of the conversation it resolved. *)
Theorem query_touches_one_conversation
  (q : Query) (st : Engine) (k : str) :
  let key := fst (fst (_get_or_create_conversation utcnow uuid4
                         (conversation_id q) (tick 1 st))) in
  k <> key ->
  conversations
    (snd (query utcnow uuid4 vector_store_search llm_generate q st)) !! k
  = conversations st !! k.
Proof.
  intros key Hk. unfold query. subst key.
  destruct (_get_or_create_conversation utcnow uuid4 (conversation_id q)
              (tick 1 st)) as [[key conv] st1] eqn:Hres.
  cbn [fst] in Hk.
  assert (conversations st1 !! k = conversations st !! k) as H1.
  { destruct (get_or_create_spec _ _ _ _ _ _ _ Hres)
      as [(_ & _ & -> & _)|(_ & _ & _ & _ & _ & _ & Ht & _)];
      [reflexivity|].
    rewrite Ht. rewrite lookup_insert_ne by congruence. reflexivity. }
  destruct (vector_store_search _ _ _) as [entries|]; [|exact H1].
  destruct (llm_generate _ _ _) as [llm|]; [|exact H1].
  unfold new_AgentResponse.
  destruct (_ ← validate_str _; _) as [resp|]; cbn [snd]; [|exact H1].
  unfold _update_conversation. cbn [conversations tick].
  rewrite lookup_insert_ne by congruence. exact H1.
Qed.

(** When the query names a conversation of the table and the search or
    the generation raises, the table is left exactly as it was. *)
Theorem query_failure_on_known_conversation
  (q : Query) (st : Engine) (e : exn) :
  ~ resolves_fresh (conversation_id q) st ->
  (vector_store_search (question q) (filters q) (max_results q) = Err e
   \/ exists entries,
        vector_store_search (question q) (filters q) (max_results q)
        = Ok entries
        /\ llm_generate (question q) (_build_context entries)
             _get_system_prompt = Err e) ->
  query utcnow uuid4 vector_store_search llm_generate q st
  = (Err e, tick 1 st)
  /\ conversations (tick 1 st) = conversations st.
Proof.
  intros Hknown Hfail. split; [|reflexivity]. unfold query.
  destruct (_get_or_create_conversation utcnow uuid4 (conversation_id q)
              (tick 1 st)) as [[key conv] st1] eqn:Hres.
  destruct (get_or_create_spec _ _ _ _ _ _ _ Hres)
    as [(_ & _ & -> & _)|(Hfresh & _)]; [|elim Hknown; exact Hfresh].
  destruct Hfail as [Hs|(entries & Hs & Hg)].
  - now rewrite Hs.
  - now rewrite Hs, Hg.
Qed.

End RAGMore.

Section EngineInvariant.
Context `{PyDateTime} `{Pydantic}.
Import RAGEngine.

Variable utcnow : nat -> datetime.
Variable uuid4 : nat -> str.
Variable vector_store_search :
  str -> option (gmap str PyValue) -> Z
  -> result (list VectorStore.MemoryEntry).
Variable llm_generate : str -> str -> str -> result LLMResponse.
Variable llm_generate_stream : str -> str -> str -> list str * option exn.

Hypothesis clock_steady : clock_monotone utcnow.

Lemma create_conversation_wf (title_arg customer_arg project_arg : option str)
  (st : Engine) :
  engine_wf utcnow st ->
  engine_wf utcnow
    (snd (create_conversation utcnow uuid4 title_arg customer_arg project_arg
            st)).
Proof.
  intros Hwf. unfold create_conversation.
  set (n := match title_arg with
            | Some (_ :: _) => clock_reads st
            | _ => S (clock_reads st)
            end).
  assert (clock_reads st <= n)%nat as Hn.
  { subst n. destruct title_arg as [[|ch tl]|]; lia. }
  assert (forall title_v,
            engine_wf utcnow
              {| conversations :=
                   <[uuid4 (uuid_draws st) :=
                       {| conv_id := uuid4 (uuid_draws st);
                          title := Some title_v; messages := [];
                          conv_customer := customer_arg;
                          conv_project := project_arg;
                          created_at := utcnow n;
                          updated_at := utcnow (S n) |}]> (conversations st);
                 clock_reads := S (S n);
                 uuid_draws := S (uuid_draws st) |}) as Hgoal.
  { intros title_v k c Hk. cbn [conversations clock_reads] in *.
    destruct (decide (uuid4 (uuid_draws st) = k)) as [<-|Hne].
    - rewrite lookup_insert_eq in Hk. injection Hk as <-. cbn.
      split; [reflexivity|]. split; [apply clock_steady; lia|].
      exists (S n). split; [lia|reflexivity].
    - rewrite lookup_insert_ne in Hk by exact Hne.
      destruct (Hwf k c Hk) as (Hi & Hle & i & Hlt & Hu).
      split; [exact Hi|]. split; [exact Hle|]. exists i. split; [lia|exact Hu]. }
  subst n. destruct title_arg as [[|ch tl]|]; cbn [snd]; apply Hgoal.
Qed.

Lemma delete_conversation_wf (cid : str) (st : Engine) :
  engine_wf utcnow st -> engine_wf utcnow (snd (delete_conversation cid st)).
Proof.
  intros Hwf. unfold delete_conversation.
  destruct (conversations st !! cid) as [found|] eqn:Hc; cbn [snd];
    [|exact Hwf].
  intros k c Hk. cbn [conversations clock_reads] in *.
  destruct (decide (cid = k)) as [<-|Hne].
  - rewrite lookup_delete_eq in Hk. discriminate.
  - rewrite lookup_delete_ne in Hk by exact Hne. exact (Hwf k c Hk).
Qed.

Lemma update_conversation_wf (key : str) (conv : Conversation)
  (question_arg answer_arg : str) (st : Engine) :
  engine_wf utcnow st -> conversations st !! key = Some conv ->
  engine_wf utcnow
    (_update_conversation utcnow key conv question_arg answer_arg st).
Proof.
  intros Hwf Hkey. destruct (Hwf key conv Hkey) as (Hid & Hle & i & Hi & Hu).
  intros k c Hk. unfold _update_conversation in *.
  cbn [conversations clock_reads] in *.
  destruct (decide (key = k)) as [<-|Hne].
  - rewrite lookup_insert_eq in Hk. injection Hk as <-. cbn.
    split; [exact Hid|]. split.
    + etransitivity; [exact Hle|]. rewrite Hu. apply clock_steady. lia.
    + exists (S (S (clock_reads st))). split; [lia|reflexivity].
  - rewrite lookup_insert_ne in Hk by exact Hne.
    destruct (Hwf k c Hk) as (Hi' & Hle' & j & Hj & Hu').
    split; [exact Hi'|]. split; [exact Hle'|]. exists j. split; [lia|exact Hu'].
Qed.

Lemma query_wf (q : Query) (st : Engine) :
  engine_wf utcnow st ->
  engine_wf utcnow
    (snd (query utcnow uuid4 vector_store_search llm_generate q st)).
Proof.
  intros Hwf. unfold query.
  destruct (_get_or_create_conversation utcnow uuid4 (conversation_id q)
              (tick 1 st)) as [[key conv] st1] eqn:Hres.
  assert (engine_wf utcnow (tick 1 st)) as Hwf0.
  { apply engine_wf_later; [exact Hwf|lia]. }
  pose proof (get_or_create_wf _ _ _ _ _ _ _ clock_steady Hwf0 Hres) as Hwf1.
  destruct (get_or_create_stored _ _ _ _ _ _ _ Hres) as [Hstored _].
  destruct (vector_store_search _ _ _) as [entries|]; [|exact Hwf1].
  destruct (llm_generate _ _ _) as [llm|]; [|exact Hwf1].
  assert (engine_wf utcnow (tick 1 st1)) as Hwf2.
  { apply engine_wf_later; [exact Hwf1|lia]. }
  unfold new_AgentResponse.
  destruct (_ ← validate_str _; _) as [resp|]; cbn [snd]; [|exact Hwf2].
  apply update_conversation_wf; [exact Hwf2|exact Hstored].
Qed.

Lemma query_stream_wf (q : Query) (st : Engine) :
  engine_wf utcnow st ->
  engine_wf utcnow
    (engine_after (query_stream utcnow uuid4 vector_store_search
                     llm_generate_stream q st)).
Proof.
  intros Hwf.
  assert (forall e s, engine_wf utcnow s ->
                      engine_wf utcnow (snd (stream_handler uuid4 q e s)))
    as Hhandler.
  { intros e s Hs. unfold stream_handler.
    destruct (conversation_id q) as [[|c t]|]; cbn [snd]; try exact Hs;
      (apply engine_wf_later; [exact Hs|lia]). }
  assert (engine_wf utcnow
            (snd (stream_body utcnow uuid4 vector_store_search
                    llm_generate_stream q st))) as Hbody.
  { unfold stream_body.
    destruct (_get_or_create_conversation utcnow uuid4 (conversation_id q) st)
      as [[key conv] st1] eqn:Hres.
    pose proof (get_or_create_wf _ _ _ _ _ _ _ clock_steady Hwf Hres) as Hwf1.
    destruct (get_or_create_stored _ _ _ _ _ _ _ Hres) as [Hstored _].
    destruct (vector_store_search _ _ _) as [entries|]; [|exact Hwf1].
    destruct (llm_generate_stream _ _ _) as [fragments [e|]]; [exact Hwf1|].
    assert (engine_wf utcnow (tick 1 st1)) as Hwf2.
    { apply engine_wf_later; [exact Hwf1|lia]. }
    unfold new_AgentResponse.
    destruct (_ ← validate_str _; _) as [resp|]; cbn [snd]; [|exact Hwf2].
    apply update_conversation_wf; [exact Hwf2|exact Hstored]. }
  unfold query_stream.
  destruct (stream_body _ _ _ _ _ _) as [[evs [e|]] st'];
    cbn [snd] in Hbody.
  - specialize (Hhandler e st' Hbody).
    destruct (stream_handler uuid4 q e st'). exact Hhandler.
  - exact Hbody.
Qed.

(** One call on the engine. *)
Inductive engine_step : Engine -> Engine -> Prop :=
  | step_create (title_arg customer_arg project_arg : option str) st :
      engine_step st
        (snd (create_conversation utcnow uuid4 title_arg customer_arg
                project_arg st))
  | step_delete (cid : str) st :
      engine_step st (snd (delete_conversation cid st))
  | step_query (q : Query) st :
      engine_step st
        (snd (query utcnow uuid4 vector_store_search llm_generate q st))
  | step_query_stream (q : Query) st :
      engine_step st
        (engine_after (query_stream utcnow uuid4 vector_store_search
                         llm_generate_stream q st)).

(** The engines that calls can produce from the engine as constructed. *)
Inductive reachable : Engine -> Prop :=
  | reach_new : reachable empty_engine
  | reach_step st st' : reachable st -> engine_step st st' -> reachable st'.

(** On a clock that does not run backwards, every engine that calls of
    [create_conversation], [delete_conversation], [query] and
    [query_stream] can produce keeps the table invariant: each
    conversation is stored under its own id and has
    [created_at <= updated_at]. *)
Theorem reachable_engine_wf (st : Engine) :
  reachable st ->
  engine_wf utcnow st
  /\ forall k c, conversations st !! k = Some c ->
                 conv_id c = k /\ dt_le (created_at c) (updated_at c).
Proof.
  intros Hreach.
  assert (engine_wf utcnow st) as Hwf.
  { induction Hreach as [|st st' _ IH Hstep]; [apply engine_wf_empty|].
    destruct Hstep.
    - now apply create_conversation_wf.
    - now apply delete_conversation_wf.
    - now apply query_wf.
    - now apply query_stream_wf. }
  split; [exact Hwf|]. intros k c Hk.
  destruct (Hwf k c Hk) as (Hid & Hle & _). auto.
Qed.

End EngineInvariant.

Section ConversationsAndStreams.
Context `{PyDateTime} `{Pydantic}.
Import RAGEngine.

Variable utcnow : nat -> datetime.
Variable uuid4 : nat -> str.
Variable vector_store_search :
  str -> option (gmap str PyValue) -> Z
  -> result (list VectorStore.MemoryEntry).
Variable llm_generate : str -> str -> str -> result LLMResponse.
Variable llm_generate_stream : str -> str -> str -> list str * option exn.

(** A conversation that was created is in the table with no messages and
    the labels given; its title is the one given, or one made from the
    clock when none (or an empty one) was given; deleting it answers
    [True] and removes it, and deleting it again answers [False]. *)
Theorem conversation_life_cycle
  (title_arg customer_arg project_arg : option str) (st : Engine) :
  let created := create_conversation utcnow uuid4 title_arg customer_arg
                   project_arg st in
  let conv := fst created in
  let deleted := delete_conversation (conv_id conv) (snd created) in
  get_conversation (conv_id conv) (snd created) = Some conv
  /\ messages conv = []
  /\ conv_customer conv = customer_arg /\ conv_project conv = project_arg
  /\ title conv
     = Some match title_arg with
            | Some (c :: t) => c :: t
            | _ => lit "Conversation "
                   ++ strftime_minutes (utcnow (clock_reads st))
            end
  /\ fst deleted = true
  /\ get_conversation (conv_id conv) (snd deleted) = None
  /\ delete_conversation (conv_id conv) (snd deleted)
     = (false, snd deleted)
  /\ (forall k, k <> conv_id conv ->
        get_conversation k (snd deleted) = get_conversation k st).
Proof.
  unfold create_conversation, delete_conversation, get_conversation.
  destruct title_arg as [[|ch tl]|]; cbn [fst snd conversations conv_id];
    rewrite ?lookup_insert_eq; cbn [fst snd conversations];
    rewrite ?lookup_delete_eq;
    (repeat split; try reflexivity);
    intros k Hk; rewrite lookup_delete_ne, lookup_insert_ne by congruence;
    reflexivity.
Qed.

(** Two queries in a row that name no conversation, both answered, make
    two conversations when the two uuids drawn differ: the responses
    carry different ids, and each id holds one turn of two messages. *)
Theorem two_queries_two_conversations
  (q1 q2 : Query) (st st1 st2 : Engine) (r1 r2 : AgentResponse) :
  conversation_id q1 = None -> conversation_id q2 = None ->
  query utcnow uuid4 vector_store_search llm_generate q1 st = (Ok r1, st1) ->
  query utcnow uuid4 vector_store_search llm_generate q2 st1
  = (Ok r2, st2) ->
  uuid4 (uuid_draws st) <> uuid4 (S (uuid_draws st)) ->
  resp_conversation_id r1 = uuid4 (uuid_draws st)
  /\ resp_conversation_id r2 = uuid4 (S (uuid_draws st))
  /\ resp_conversation_id r1 <> resp_conversation_id r2
  /\ (exists c1, conversations st2 !! resp_conversation_id r1 = Some c1
                 /\ length (messages c1) = 2%nat)
  /\ (exists c2, conversations st2 !! resp_conversation_id r2 = Some c2
                 /\ length (messages c2) = 2%nat).
Proof.
  intros Hq1 Hq2 Hrun1 Hrun2 Hdiff.
  destruct (query_Ok_inv _ _ _ _ _ _ _ _ Hrun1)
    as (k1 & c1 & s1 & e1 & l1 & t1 & Hres1 & _ & _ & Hresp1 & Hst1).
  destruct (query_Ok_inv _ _ _ _ _ _ _ _ Hrun2)
    as (k2 & c2 & s2 & e2 & l2 & t2 & Hres2 & _ & _ & Hresp2 & Hst2).
  destruct (new_AgentResponse_spec _ _ _ _ _ _ _ _ _ Hresp1)
    as (Hcid1 & _ & _ & Ht1 & _ & Hu1).
  destruct (new_AgentResponse_spec _ _ _ _ _ _ _ _ _ Hresp2)
    as (Hcid2 & _ & _ & Ht2 & _ & Hu2).
  destruct (get_or_create_spec _ _ _ _ _ _ _ Hres1)
    as [(Habs & _)|(_ & Hk1 & Hi1 & Hm1 & _ & _ & _ & _ & Hd1)];
    [rewrite Hq1 in Habs; discriminate|].
  destruct (get_or_create_spec _ _ _ _ _ _ _ Hres2)
    as [(Habs & _)|(_ & Hk2 & Hi2 & Hm2 & _ & _ & _ & _ & Hd2)];
    [rewrite Hq2 in Habs; discriminate|].
  cbn [tick uuid_draws] in Hk1, Hk2, Hd1.
  assert (uuid_draws st1 = S (uuid_draws st)) as Hdraws.
  { rewrite Hst1. unfold _update_conversation. cbn [uuid_draws]. congruence. }
  rewrite Hdraws in Hk2.
  assert (resp_conversation_id r1 = k1) as E1 by congruence.
  assert (resp_conversation_id r2 = k2) as E2 by congruence.
  rewrite E1, E2. subst k1 k2.
  split; [reflexivity|]. split; [reflexivity|]. split; [exact Hdiff|].
  assert (conversations st1 !! uuid4 (uuid_draws st)
          = Some {| conv_id := conv_id c1; title := title c1;
                    messages := messages c1 ++
                      [{| role := lit "user"; msg_content := question q1;
                          timestamp := isoformat (utcnow (clock_reads t1)) |};
                       {| role := lit "assistant";
                          msg_content := answer r1;
                          timestamp :=
                            isoformat (utcnow (S (clock_reads t1))) |}];
                    conv_customer := conv_customer c1;
                    conv_project := conv_project c1;
                    created_at := created_at c1;
                    updated_at := utcnow (S (S (clock_reads t1))) |}) as Hin1.
  { rewrite Hst1. unfold _update_conversation. cbn [conversations].
    apply lookup_insert_eq. }
  split.
  - eexists. split.
    + rewrite <- Hin1.
      pose proof (query_touches_one_conversation utcnow uuid4
                    vector_store_search llm_generate q2 st1
                    (uuid4 (uuid_draws st))) as Hkeep.
      rewrite Hrun2, Hres2 in Hkeep. cbn [fst snd] in Hkeep.
      apply Hkeep. exact Hdiff.
    + cbn [messages]. rewrite Hm1. reflexivity.
  - eexists. split.
    + rewrite Hst2. unfold _update_conversation. cbn [conversations].
      apply lookup_insert_eq.
    + cbn [messages]. rewrite Hm2. reflexivity.
Qed.

End ConversationsAndStreams.

Section StreamsAndContext.
Context `{PyDateTime} `{Pydantic}.
Import RAGEngine.

Variable utcnow : nat -> datetime.
Variable uuid4 : nat -> str.
Variable vector_store_search :
  str -> option (gmap str PyValue) -> Z
  -> result (list VectorStore.MemoryEntry).
Variable llm_generate_stream : str -> str -> str -> list str * option exn.



(** When the search returns and the stream ends normally, [query_stream]
    yields one chunk event per fragment and then one complete event; the
    answer of its response is the fragments joined, its sources are the
    entries of the search, and the conversation has gained the question
    and that answer. *)
Theorem query_stream_completes
  (q : Query) (st : Engine) (key : str) (conv : Conversation) (st1 : Engine)
  (entries : list VectorStore.MemoryEntry) (fragments : list str) :
  _get_or_create_conversation utcnow uuid4 (conversation_id q) st
  = ((key, conv), st1) ->
  vector_store_search (question q) (filters q) (max_results q) = Ok entries ->
  llm_generate_stream (question q) (_build_context entries) _get_system_prompt
  = (fragments, None) ->
  let run := query_stream utcnow uuid4 vector_store_search
               llm_generate_stream q st in
  exists response conv',
    events run
    = List.map (fun f => ChunkEvent f (conv_id conv)) fragments
      ++ [CompleteEvent response (conv_id conv)]
    /\ answer response = List.concat fragments
    /\ sources response = entries
    /\ resp_conversation_id response = conv_id conv
    /\ query_time_ms response = 0 /\ tokens_used response = Some 0
    /\ escaped run = None
    /\ conversations (engine_after run) !! key = Some conv'
    /\ exists m_user m_assistant,
         messages conv' = messages conv ++ [m_user; m_assistant]
         /\ role m_user = lit "user" /\ msg_content m_user = question q
         /\ role m_assistant = lit "assistant"
         /\ msg_content m_assistant = List.concat fragments.
Proof.
  intros Hres Hs Hg run. subst run.
  unfold query_stream, stream_body. rewrite Hres, Hs, Hg.
  unfold new_AgentResponse. cbn [validate_str validate_int validate_opt_int
    mbind result_bind]. cbn [events escaped engine_after].
  eexists _, _. split; [reflexivity|]. cbn [answer sources
    resp_conversation_id query_time_ms tokens_used].
  do 6 (split; [reflexivity|]).
  unfold _update_conversation. cbn [conversations].
  split; [apply lookup_insert_eq|].
  eexists _, _. cbn [messages]. split; [reflexivity|]. repeat split.
Qed.



End StreamsAndContext.

(** ** Runs of the model for these facts *)

Section MoreRuns.
#[local] Existing Instance naive_datetime.
#[local] Existing Instance strict_pydantic.
#[local] Existing Instance AsciiText.libs.

Lemma chunk_text_long_chunks_are_stripped_witness :
  exists chunks,
    VectorStore._chunk_text (VectorStore.small_settings 10 2) 50
      (lit "alpha beta gamma delta") = Some chunks
    /\ forall chunk, chunk ∈ chunks -> chunk <> [] /\ strip chunk = chunk.
Proof.
  eexists. split; [reflexivity|].
  apply (chunk_text_long_chunks_are_stripped (VectorStore.small_settings 10 2)
           (lit "alpha beta gamma delta") 50); reflexivity.
Defined.

Lemma chunk_text_chunk_length_witness :
  exists chunks,
    VectorStore._chunk_text (VectorStore.small_settings 10 2) 50
      (lit "alpha beta gamma delta") = Some chunks
    /\ forall chunk, chunk ∈ chunks -> len chunk <= 10.
Proof.
  eexists. split; [reflexivity|].
  apply (chunk_text_chunk_length (VectorStore.small_settings 10 2)
           (lit "alpha beta gamma delta") 50); [discriminate|reflexivity].
Defined.

Lemma processors_exclusive_witness :
  DocumentIngestionService.can_process
    DocumentIngestionService.TheTxtProcessor (lit "Notes.TXT") = true
  /\ forall proc,
       DocumentIngestionService.can_process proc (lit "Notes.TXT") = true ->
       proc = DocumentIngestionService.TheTxtProcessor.
Proof.
  split; [reflexivity|]. intros proc Hproc.
  exact (processors_exclusive proc DocumentIngestionService.TheTxtProcessor
           (lit "Notes.TXT") Hproc eq_refl).
Defined.

Lemma process_document_result_witness :
  exists doc w',
    DocumentIngestionService.process_document Fixture.clock numbered_uuid
      (lit "Notes.TXT") [Byte.x20; Byte.x68; Byte.x69; Byte.x0a]
      (Some (lit "acme")) None None Fixture.world0 = (Ok doc, w')
    /\ DocumentIngestionService.content doc = lit "hi"
    /\ DocumentIngestionService.document_type doc = TXT
    /\ DocumentIngestionService.file_size doc = 4
    /\ DocumentIngestionService.doc_id doc = numbered_uuid 0
    /\ DocumentIngestionService.metadata doc = ∅.
Proof.
  assert (exists doc w',
            DocumentIngestionService.process_document Fixture.clock
              numbered_uuid (lit "Notes.TXT")
              [Byte.x20; Byte.x68; Byte.x69; Byte.x0a]
              (Some (lit "acme")) None None Fixture.world0 = (Ok doc, w'))
    as (doc & w' & Hrun) by (eexists _, _; reflexivity).
  destruct (process_document_result Fixture.clock numbered_uuid
              (lit "Notes.TXT") [Byte.x20; Byte.x68; Byte.x69; Byte.x0a]
              (Some (lit "acme")) None None Fixture.world0 w' doc Hrun)
    as (proc & Hfind & Hext & Htype & _ & _ & _ & Hsize & _ & _ & Hmd & Hid
        & _).
  assert (proc = DocumentIngestionService.TheTxtProcessor) as ->
    by (apply (inj Some); rewrite <- Hfind; reflexivity).
  exists doc, w'. split; [exact Hrun|].
  change (Ok (lit "hi") = Ok (DocumentIngestionService.content doc)) in Hext.
  injection Hext as Hext. split; [symmetry; exact Hext|].
  split; [exact Htype|]. split; [exact Hsize|]. split; [exact Hid|exact Hmd].
Defined.

Lemma txt_and_markdown_extraction_witness :
  (TxtProcessor.extract_text [Byte.x20; Byte.x68; Byte.x69] = Ok (lit "hi")
   /\ MarkdownProcessor.extract_text [Byte.x20; Byte.x68; Byte.x69]
      = Ok (lit "hi"))
  /\ (exists text, TxtProcessor.extract_text [Byte.xe9] = Ok text)
  /\ exists msg, MarkdownProcessor.extract_text [Byte.xe9]
                 = Err (Raise ValueError msg).
Proof.
  split.
  - exact (proj1 (txt_and_markdown_extraction [Byte.x20; Byte.x68; Byte.x69])
             _ eq_refl).
  - exact (proj2 (txt_and_markdown_extraction [Byte.xe9]) eq_refl).
Defined.

Lemma search_entries_in_rank_order_witness :
  exists entries,
    VectorStore.search default_settings Fixture.encode
      (Fixture.answers Fixture.near_and_far) Fixture.store (lit "assay")
      None 5 = Ok entries
    /\ List.map VectorStore.id entries `sublist_of` [lit "near"; lit "far"].
Proof.
  assert (exists entries,
            VectorStore.search default_settings Fixture.encode
              (Fixture.answers Fixture.near_and_far) Fixture.store
              (lit "assay") None 5 = Ok entries)
    as (entries & Hrun) by (eexists; reflexivity).
  destruct (search_entries_in_rank_order default_settings Fixture.encode
              (Fixture.answers Fixture.near_and_far) Fixture.store
              (lit "assay") None 5 entries Hrun)
    as (results & Hq & _ & Hsub).
  injection Hq as <-. exists entries. split; [exact Hrun|exact Hsub].
Defined.

Lemma search_all_below_threshold_witness :
  VectorStore.search default_settings Fixture.encode
    (Fixture.answers Fixture.only_far) Fixture.store (lit "assay") None 5
  = Ok [].
Proof.
  apply (search_all_below_threshold default_settings Fixture.encode
           (Fixture.answers Fixture.only_far) Fixture.store (lit "assay")
           None 5 Fixture.only_far [lit "far"] []); [reflexivity..|].
  intros k Hk. destruct k as [|k]; [|simpl in Hk; lia].
  eexists _, _, _. repeat split; reflexivity.
Defined.

Lemma where_clause_of_filters_witness :
  let f : gmap str PyValue :=
    {[VectorStore.k_customer := PStr (lit "acme");
      VectorStore.k_date_to := PStr (lit "2024-06-30");
      lit "filename" := PStr (lit "report.txt")]} in
  VectorStore.where_clause_of (Some f) !! VectorStore.k_customer
  = Some (PStr (lit "acme"))
  /\ VectorStore.where_clause_of (Some f) !! VectorStore.k_project = None
  /\ VectorStore.where_clause_of (Some f) !! lit "filename" = None.
Proof.
  intros f.
  destruct (where_clause_of_filters f) as (Hc & Hp & _ & Hother).
  split; [rewrite Hc; reflexivity|]. split; [rewrite Hp; reflexivity|].
  apply Hother; key_ne.
Defined.

Lemma add_memory_entry_adds_one_witness :
  exists memory_id st',
    VectorStore.add_memory_entry Fixture.encode numbered_uuid Fixture.note
      Fixture.empty_store = (Ok memory_id, st')
    /\ memory_id = numbered_uuid 0
    /\ VectorStoreOps.get_stats st' = 1%nat
    /\ VectorStore.get_memory_entry (lit "near") st' = Ok None.
Proof.
  assert (exists memory_id st',
            VectorStore.add_memory_entry Fixture.encode numbered_uuid
              Fixture.note Fixture.empty_store = (Ok memory_id, st'))
    as (memory_id & st' & Hrun) by (eexists _, _; reflexivity).
  destruct (add_memory_entry_adds_one Fixture.encode numbered_uuid
              Fixture.note Fixture.empty_store st' memory_id Hrun)
    as (Hid & Hn & _ & Hothers); [apply lookup_empty|].
  exists memory_id, st'. split; [exact Hrun|]. split; [exact Hid|].
  split; [exact Hn|]. rewrite Hothers; [reflexivity|].
  rewrite Hid. key_ne.
Defined.

Lemma add_memory_entry_refuses_unstorable_witness :
  exists msg st',
    VectorStore.add_memory_entry Fixture.encode numbered_uuid
      MoreFixtures.tagged_note Fixture.empty_store
    = (Err (Raise ValueError msg), st')
    /\ VectorStore.collection st' = ∅.
Proof.
  apply (add_memory_entry_refuses_unstorable Fixture.encode numbered_uuid
           MoreFixtures.tagged_note Fixture.empty_store (lit "tags")
           (PList [PStr (lit "ph")])); [|reflexivity].
  apply lookup_singleton_eq.
Defined.

Lemma delete_memory_entry_then_get_witness :
  let st' := snd (VectorStore.delete_memory_entry (lit "near") Fixture.store)
  in
  VectorStore.get_memory_entry (lit "near") st' = Ok None
  /\ VectorStore.get_memory_entry (lit "far") st'
     = VectorStore.get_memory_entry (lit "far") Fixture.store
  /\ VectorStore.delete_memory_entry (lit "near") st' = (Ok true, st').
Proof.
  destruct (delete_memory_entry_then_get (lit "near") Fixture.store)
    as (Hgone & Hothers & Hagain & _).
  split; [exact Hgone|]. split; [apply Hothers; key_ne|exact Hagain].
Defined.

Lemma add_then_delete_memory_entry_witness :
  exists memory_id st',
    VectorStore.add_memory_entry Fixture.encode numbered_uuid Fixture.note
      Fixture.empty_store = (Ok memory_id, st')
    /\ VectorStore.collection
         (snd (VectorStore.delete_memory_entry memory_id st')) = ∅.
Proof.
  assert (exists memory_id st',
            VectorStore.add_memory_entry Fixture.encode numbered_uuid
              Fixture.note Fixture.empty_store = (Ok memory_id, st'))
    as (memory_id & st' & Hrun) by (eexists _, _; reflexivity).
  exists memory_id, st'. split; [exact Hrun|].
  apply (add_then_delete_memory_entry Fixture.encode numbered_uuid
           Fixture.note Fixture.empty_store st' memory_id Hrun).
  apply lookup_empty.
Defined.

Fact stored_metadata_storable :
  map_Forall (fun (_ : str) v => VectorStore.storable v = true)
    Fixture.stored_metadata.
Proof.
  unfold Fixture.stored_metadata. cbn [list_to_map foldr uncurry fst snd].
  repeat (apply map_Forall_insert_2; [reflexivity|]).
  apply map_Forall_empty.
Qed.

Lemma update_memory_entry_absent_witness :
  VectorStoreOps.update_memory_entry Fixture.encode MoreFixtures.content_error
    MoreFixtures.update_pairs (lit "missing")
    {[VectorStore.k_customer := PStr (lit "globex")]} Fixture.store
  = (Ok false, Fixture.store).
Proof.
  apply (update_memory_entry_absent Fixture.encode MoreFixtures.content_error
           MoreFixtures.update_pairs (lit "missing")
           {[VectorStore.k_customer := PStr (lit "globex")]} Fixture.store).
  reflexivity.
Defined.

Lemma update_memory_entry_writes_witness :
  exists st' r',
    VectorStoreOps.update_memory_entry Fixture.encode MoreFixtures.content_error
      MoreFixtures.update_pairs (lit "near")
      {[VectorStore.k_customer := PStr (lit "globex")]} Fixture.store
    = (Ok true, st')
    /\ VectorStore.collection st' !! lit "near" = Some r'
    /\ VectorStore.row_document r' = lit "assay results"
    /\ VectorStore.row_metadata r'
       = <[VectorStore.k_customer := PStr (lit "globex")]>
           Fixture.stored_metadata.
Proof.
  assert (exists existing,
            VectorStore.get_memory_entry (lit "near") Fixture.store
            = Ok (Some existing))
    as (existing & Hget) by (eexists; reflexivity).
  eexists _, _. split.
  - apply (update_memory_entry_writes Fixture.encode MoreFixtures.content_error
             MoreFixtures.update_pairs (lit "near")
             {[VectorStore.k_customer := PStr (lit "globex")]} Fixture.store
             existing Fixture.row
             (<[VectorStore.k_customer := PStr (lit "globex")]>
                Fixture.stored_metadata)).
    + apply lookup_insert_eq.
    + exact Hget.
    + exact stored_metadata_storable.
    + left. reflexivity.
    + reflexivity.
    + apply map_Forall_insert_2; [reflexivity|exact stored_metadata_storable].
  - unfold VectorStoreOps.with_collection. cbn [VectorStore.collection].
    split; [apply lookup_insert_eq|]. split; reflexivity.
Defined.

Lemma update_content_then_get_witness :
  exists st' e,
    VectorStoreOps.update_memory_entry Fixture.encode MoreFixtures.content_error
      MoreFixtures.update_pairs (lit "near")
      {[VectorStoreOps.k_content := PStr (lit "assay repeated")]}
      Fixture.store = (Ok true, st')
    /\ VectorStore.get_memory_entry (lit "near") st' = Ok (Some e)
    /\ VectorStore.content e = lit "assay repeated"
    /\ VectorStore.get_memory_entry (lit "far") st'
       = VectorStore.get_memory_entry (lit "far") Fixture.store.
Proof.
  assert (exists existing,
            VectorStore.get_memory_entry (lit "near") Fixture.store
            = Ok (Some existing))
    as (existing & Hget) by (eexists; reflexivity).
  destruct (update_content_then_get Fixture.encode MoreFixtures.content_error
              MoreFixtures.update_pairs (lit "near") (lit "assay repeated")
              Fixture.store existing Fixture.row)
    as (st' & Hrun & Hread & _ & Hothers).
  - apply lookup_insert_eq.
  - exact Hget.
  - exact stored_metadata_storable.
  - exists st', (with_content existing (lit "assay repeated")).
    split; [exact Hrun|]. split; [exact Hread|]. split; [reflexivity|].
    apply Hothers. key_ne.
Defined.

Lemma update_memory_entry_partial_witness :
  exists msg st' r',
    VectorStoreOps.update_memory_entry Fixture.encode MoreFixtures.content_error
      MoreFixtures.update_pairs (lit "near")
      {[VectorStoreOps.k_content := PStr (lit "assay repeated");
        VectorStore.k_importance_score := PNone]}
      Fixture.store = (Err (Raise ValueError msg), st')
    /\ VectorStore.collection st' !! lit "near" = Some r'
    /\ VectorStore.row_document r' = lit "assay repeated"
    /\ VectorStore.row_metadata r' = Fixture.stored_metadata.
Proof.
  assert (exists existing,
            VectorStore.get_memory_entry (lit "near") Fixture.store
            = Ok (Some existing))
    as (existing & Hget) by (eexists; reflexivity).
  apply (update_memory_entry_partial Fixture.encode MoreFixtures.content_error
           MoreFixtures.update_pairs (lit "near")
           {[VectorStoreOps.k_content := PStr (lit "assay repeated");
             VectorStore.k_importance_score := PNone]}
           Fixture.store existing Fixture.row (lit "assay repeated") PNone).
  - apply lookup_insert_eq.
  - exact Hget.
  - exact stored_metadata_storable.
  - apply lookup_insert_eq.
  - reflexivity.
  - reflexivity.
  - reflexivity.
Defined.

Lemma list_memory_entries_rows_witness :
  exists entries,
    VectorStoreOps.list_memory_entries MoreFixtures.lists_near 100 0 None
      Fixture.store = Ok entries
    /\ List.map VectorStore.id entries = [lit "near"]
    /\ forall e, entries !! 0%nat = Some e ->
                 VectorStore.content e = lit "assay results".
Proof.
  assert (exists entries,
            VectorStoreOps.list_memory_entries MoreFixtures.lists_near 100 0 None
              Fixture.store = Ok entries)
    as (entries & Hrun) by (eexists; reflexivity).
  destruct (list_memory_entries_rows MoreFixtures.lists_near 100 0 None
              Fixture.store entries Hrun)
    as (res & Hget & Hids & Hrows & _).
  injection Hget as <-.
  exists entries. split; [exact Hrun|]. split; [exact Hids|].
  intros e He. destruct (Hrows 0%nat e He) as (_ & Hdoc).
  injection Hdoc as Hdoc. symmetry. exact Hdoc.
Defined.

Lemma chunk_rows_spec_witness :
  exists row,
    VectorStoreOps.chunk_rows Fixture.encode numbered_uuid MoreFixtures.report 3
      [lit "alpha beta"; lit "ta gamma d"] !! 1%nat
    = Some (numbered_uuid 4, row)
    /\ VectorStore.row_document row = lit "ta gamma d"
    /\ VectorStore.row_metadata row !! VectorStore.k_chunk_index
       = Some (PInt 1)
    /\ VectorStore.row_metadata row !! VectorStore.k_source_document_id
       = Some (PStr (lit "doc-1")).
Proof.
  destruct (proj2 (chunk_rows_spec Fixture.encode numbered_uuid
                     MoreFixtures.report 3 [lit "alpha beta"; lit "ta gamma d"])
              1%nat (lit "ta gamma d") eq_refl)
    as (row & Hrow & Hdoc & _ & Hindex & Hsource).
  exists row. split; [exact Hrow|]. split; [exact Hdoc|].
  split; [apply Hindex; apply lookup_empty|apply Hsource; apply lookup_empty].
Defined.

Lemma add_document_ids_witness :
  exists ids st',
    VectorStoreOps.add_document (VectorStore.small_settings 10 2)
      Fixture.encode numbered_uuid MoreFixtures.add_all 50 MoreFixtures.report
      Fixture.empty_store = Some (Ok ids, st')
    /\ ids !! 0%nat = Some (numbered_uuid 0)
    /\ VectorStore.store_uuids st' = length ids.
Proof.
  assert (exists ids st',
            VectorStoreOps.add_document (VectorStore.small_settings 10 2)
              Fixture.encode numbered_uuid MoreFixtures.add_all 50
              MoreFixtures.report Fixture.empty_store = Some (Ok ids, st'))
    as (ids & st' & Hrun) by (eexists _, _; reflexivity).
  destruct (add_document_ids (VectorStore.small_settings 10 2)
              Fixture.encode numbered_uuid MoreFixtures.add_all 50
              MoreFixtures.report Fixture.empty_store st' ids Hrun)
    as (chunks & Hchunks & Hlen & Hids & _ & Hdrawn).
  exists ids, st'. split; [exact Hrun|].
  assert (0 < length chunks)%nat as Hpos.
  { destruct chunks; [vm_compute in Hchunks; discriminate Hchunks|].
    simpl. lia. }
  split; [exact (Hids 0%nat Hpos)|]. rewrite Hdrawn, Hlen. reflexivity.
Defined.

Lemma ingest_short_file_witness :
  exists doc w' row st',
    DocumentIngestionService.process_document Fixture.clock numbered_uuid
      (lit "Notes.TXT") [Byte.x20; Byte.x68; Byte.x69; Byte.x0a]
      None None None Fixture.world0 = (Ok doc, w')
    /\ VectorStore.row_document row = lit "hi"
    /\ VectorStoreOps.add_document default_settings Fixture.encode
         numbered_uuid MoreFixtures.add_all 0 doc Fixture.empty_store
       = Some (Ok [numbered_uuid 0], st')
    /\ VectorStore.collection st' !! numbered_uuid 0 = Some row.
Proof.
  assert (exists doc w',
            (DocumentIngestionService.process_document Fixture.clock
               numbered_uuid (lit "Notes.TXT")
               [Byte.x20; Byte.x68; Byte.x69; Byte.x0a]
               None None None Fixture.world0 = (Ok doc, w'))
            /\ DocumentIngestionService.content doc = lit "hi")
    as (doc & w' & Hrun & Hcontent)
    by (eexists _, _; split; reflexivity).
  destruct (ingest_short_file default_settings Fixture.encode Fixture.clock
              numbered_uuid MoreFixtures.add_all (lit "Notes.TXT")
              [Byte.x20; Byte.x68; Byte.x69; Byte.x0a] None None None
              Fixture.world0 w' doc Fixture.empty_store 0 Hrun)
    as (row & Hdoc & _ & _ & Hadd).
  - rewrite Hcontent. discriminate.
  - exists doc, w', row. eexists. split; [exact Hrun|].
    split; [rewrite Hdoc; exact Hcontent|].
    split; [exact Hadd|]. apply lookup_insert_eq.
Defined.

Lemma query_response_witness :
  exists resp st',
    RAGEngine.query Fixture.clock numbered_uuid Fixture.search_nothing
      Fixture.generate_answer Fixture.question_only empty_engine
    = (Ok resp, st')
    /\ RAGEngine.answer resp = lit "Nothing yet."
    /\ RAGEngine.sources resp = []
    /\ RAGEngine.resp_conversation_id resp = numbered_uuid 0.
Proof.
  assert (exists resp st',
            RAGEngine.query Fixture.clock numbered_uuid
              Fixture.search_nothing Fixture.generate_answer
              Fixture.question_only empty_engine = (Ok resp, st'))
    as (resp & st' & Hrun) by (eexists _, _; reflexivity).
  destruct (query_response Fixture.clock numbered_uuid
              Fixture.search_nothing Fixture.generate_answer
              Fixture.question_only empty_engine st' resp Hrun)
    as (entries & llm & Hs & Hg & Hsrc & _ & Hans & Hid).
  injection Hs as <-. injection Hg as <-.
  exists resp, st'. split; [exact Hrun|].
  split; [exact (Hans _ eq_refl)|]. split; [exact Hsrc|exact Hid].
Defined.

Lemma query_touches_one_conversation_witness :
  let st := snd (RAGEngine.create_conversation Fixture.clock numbered_uuid
                   (Some (lit "Assay")) None None empty_engine) in
  RAGEngine.conversations
    (snd (RAGEngine.query Fixture.clock numbered_uuid Fixture.search_nothing
            Fixture.generate_answer Fixture.question_only st))
    !! numbered_uuid 0
  = RAGEngine.conversations st !! numbered_uuid 0.
Proof.
  intros st.
  apply (query_touches_one_conversation Fixture.clock numbered_uuid
           Fixture.search_nothing Fixture.generate_answer
           Fixture.question_only st (numbered_uuid 0)).
  key_ne.
Defined.

Lemma query_failure_on_known_conversation_witness :
  let st := snd (RAGEngine.create_conversation Fixture.clock numbered_uuid
                   (Some (lit "Assay")) None None empty_engine) in
  RAGEngine.query Fixture.clock numbered_uuid Fixture.search_down
    Fixture.generate_answer MoreFixtures.follow_up st
  = (Err (Raise ConnectionError (lit "store unreachable")),
     RAGEngine.tick 1 st)
  /\ RAGEngine.conversations (RAGEngine.tick 1 st) = RAGEngine.conversations st.
Proof.
  intros st.
  apply (query_failure_on_known_conversation Fixture.clock numbered_uuid
           Fixture.search_down Fixture.generate_answer MoreFixtures.follow_up st
           (Raise ConnectionError (lit "store unreachable"))).
  - intros Hfresh. change (RAGEngine.conversations st !! numbered_uuid 0 = None)
      in Hfresh.
    assert (exists conv,
              RAGEngine.conversations st !! numbered_uuid 0 = Some conv)
      as (conv & Hconv) by (eexists; reflexivity).
    rewrite Hconv in Hfresh. discriminate Hfresh.
  - left. reflexivity.
Defined.

Lemma reachable_engine_wf_witness :
  let st := snd (RAGEngine.query Fixture.clock numbered_uuid
                   Fixture.search_nothing Fixture.generate_answer
                   Fixture.question_only empty_engine) in
  engine_wf Fixture.clock st
  /\ exists conv,
       RAGEngine.conversations st !! numbered_uuid 0 = Some conv
       /\ RAGEngine.conv_id conv = numbered_uuid 0
       /\ dt_le (RAGEngine.created_at conv) (RAGEngine.updated_at conv).
Proof.
  intros st.
  destruct (reachable_engine_wf Fixture.clock numbered_uuid
              Fixture.search_nothing Fixture.generate_answer
              Fixture.stream_breaks stepping_clock_le st) as (Hwf & Hall).
  - apply (reach_step _ _ _ _ _ empty_engine).
    + apply reach_new.
    + apply step_query.
  - split; [exact Hwf|].
    assert (exists conv,
              RAGEngine.conversations st !! numbered_uuid 0 = Some conv)
      as (conv & Hconv) by (eexists; reflexivity).
    exists conv. split; [exact Hconv|]. exact (Hall _ _ Hconv).
Defined.

Lemma conversation_life_cycle_witness :
  let created := RAGEngine.create_conversation Fixture.clock numbered_uuid
                   (Some (lit "Assay")) (Some (lit "acme")) None
                   empty_engine in
  RAGEngine.title (fst created) = Some (lit "Assay")
  /\ RAGEngine.get_conversation (RAGEngine.conv_id (fst created))
       (snd created) = Some (fst created)
  /\ RAGEngine.delete_conversation (RAGEngine.conv_id (fst created))
       (snd (RAGEngine.delete_conversation (RAGEngine.conv_id (fst created))
               (snd created)))
     = (false,
        snd (RAGEngine.delete_conversation (RAGEngine.conv_id (fst created))
               (snd created)))
  /\ RAGEngine.get_conversation (lit "other")
       (snd (RAGEngine.delete_conversation (RAGEngine.conv_id (fst created))
               (snd created)))
     = None.
Proof.
  intros created.
  destruct (conversation_life_cycle Fixture.clock numbered_uuid
              (Some (lit "Assay")) (Some (lit "acme")) None empty_engine)
    as (Hget & _ & _ & _ & Htitle & _ & _ & Hagain & Hothers).
  split; [exact Htitle|]. split; [exact Hget|]. split; [exact Hagain|].
  rewrite Hothers; [reflexivity|key_ne].
Defined.

Lemma two_queries_two_conversations_witness :
  exists r1 st1 r2 st2,
    RAGEngine.query Fixture.clock numbered_uuid Fixture.search_nothing
      Fixture.generate_answer Fixture.question_only empty_engine
    = (Ok r1, st1)
    /\ RAGEngine.query Fixture.clock numbered_uuid Fixture.search_nothing
         Fixture.generate_answer Fixture.question_only st1 = (Ok r2, st2)
    /\ RAGEngine.resp_conversation_id r1 = numbered_uuid 0
    /\ RAGEngine.resp_conversation_id r2 = numbered_uuid 1
    /\ RAGEngine.resp_conversation_id r1 <> RAGEngine.resp_conversation_id r2.
Proof.
  assert (exists r1 st1 r2 st2,
            RAGEngine.query Fixture.clock numbered_uuid
              Fixture.search_nothing Fixture.generate_answer
              Fixture.question_only empty_engine = (Ok r1, st1)
            /\ RAGEngine.query Fixture.clock numbered_uuid
                 Fixture.search_nothing Fixture.generate_answer
                 Fixture.question_only st1 = (Ok r2, st2))
    as (r1 & st1 & r2 & st2 & Hrun1 & Hrun2)
    by (eexists _, _, _, _; split; reflexivity).
  destruct (two_queries_two_conversations Fixture.clock numbered_uuid
              Fixture.search_nothing Fixture.generate_answer
              Fixture.question_only Fixture.question_only empty_engine
              st1 st2 r1 r2 eq_refl eq_refl Hrun1 Hrun2)
    as (H1 & H2 & Hne & _); [key_ne|].
  exists r1, st1, r2, st2. auto.
Defined.

Lemma query_stream_completes_witness :
  let run := RAGEngine.query_stream Fixture.clock numbered_uuid
               Fixture.search_nothing MoreFixtures.stream_ends
               Fixture.question_only empty_engine in
  exists response conv',
    RAGEngine.events run
    = [RAGEngine.ChunkEvent (lit "Noth") (numbered_uuid 0);
       RAGEngine.ChunkEvent (lit "ing") (numbered_uuid 0);
       RAGEngine.CompleteEvent response (numbered_uuid 0)]
    /\ RAGEngine.answer response = lit "Nothing"
    /\ RAGEngine.escaped run = None
    /\ RAGEngine.conversations (RAGEngine.engine_after run)
         !! numbered_uuid 0 = Some conv'
    /\ length (RAGEngine.messages conv') = 2%nat.
Proof.
  intros run.
  assert (exists key conv st1,
            RAGEngine._get_or_create_conversation Fixture.clock
              numbered_uuid None empty_engine = ((key, conv), st1)
            /\ key = numbered_uuid 0 /\ RAGEngine.conv_id conv = numbered_uuid 0
            /\ RAGEngine.messages conv = [])
    as (key & conv & st1 & Hres & Hkey & Hid & Hnone)
    by (eexists _, _, _; repeat split; reflexivity).
  destruct (query_stream_completes Fixture.clock numbered_uuid
              Fixture.search_nothing MoreFixtures.stream_ends
              Fixture.question_only empty_engine key conv st1 []
              [lit "Noth"; lit "ing"] Hres eq_refl eq_refl)
    as (response & conv' & Hev & Hans & _ & _ & _ & _ & Hesc & Hlook
        & mu & ma & Hmsgs & _).
  exists response, conv'. rewrite Hid in Hev. rewrite Hkey in Hlook.
  split; [exact Hev|]. split; [exact Hans|]. split; [exact Hesc|].
  split; [exact Hlook|]. rewrite Hmsgs, Hnone. reflexivity.
Defined.


End MoreRuns.
